(** * Attachment-upload confirmation protocol (browser/actions/attachments.ts)

    A shallow embedding of the attachment helpers of the browser automation
    layer: the string primitives they rely on, the four inlined name
    matchers, the polling loops and [uploadAttachmentFile].

    Conventions of the embedding.
    - A JavaScript string is the list of its UTF-16 code units ([list N]).
    - [toLowerCase] is the engine's: the string is read as code points,
      lower-cased by the Unicode Default Case Conversion (the simple
      mappings, U+0130 and the Final_Sigma rule, with the tables of Unicode
      14.0) and written back as code units.
    - A regular expression is only ever built from an escaped candidate
      label; [RegExp_new] parses the fragment such patterns live in
      (literals, identity escapes of syntax characters, [.], and [*]) and
      answers [None] elsewhere, which the callers treat like the source's
      [catch] branch; [completion_pattern_compiles] and
      [anchored_pattern_compiles] show that no pattern either wait builds
      ends up there.
    - The page is an external collaborator.  Every [Runtime.evaluate] round
      trip observes whatever the environment shows at that probe, and every
      [await] may take longer than asked for; both are supplied by an
      explicit environment ([Env]). *)

From Stdlib Require Import List NArith ZArith Bool Lia String Ascii.
Import ListNotations.

Set Implicit Arguments.

(* ================================================================== *)
(** ** Strings as the engine sees them *)
(* ================================================================== *)

Module JsString.

Definition jsstring := list N.

(** An ASCII literal of the source, as code units. *)
Definition lit (s : string) : jsstring :=
  map N_of_ascii (list_ascii_of_string s).
Arguments lit s%_string.

Definition SPACE : N := 32.
Definition DOT : N := 46.
Definition STAR : N := 42.
Definition SLASH : N := 47.
Definition BACKSLASH : N := 92.
Definition NEWLINE : N := 10.
(** U+2026 HORIZONTAL ELLIPSIS, one code unit. *)
Definition ELLIPSIS : N := 8230.

Definition inRange (lo hi c : N) : bool := ((lo <=? c) && (c <=? hi))%N.

(** *** Lower-casing

    [String.prototype.toLowerCase] converts the string to code points
    ([StringToCodePoints]), lower-cases them by the Unicode Default Case
    Conversion ([toLowercase]: the locale-insensitive mappings of
    UnicodeData.txt and SpecialCasing.txt) and converts back
    ([CodePointsToString]). *)

(** A code point of a string: a code unit standing alone (a lone surrogate
    included), or a lead surrogate with the trail surrogate that follows
    it. *)
Inductive CodePoint :=
| Unit (u : N)
| Pair (lead trail : N).

Definition isLead (u : N) : bool := inRange 55296 56319 u.
Definition isTrail (u : N) : bool := inRange 56320 57343 u.

Fixpoint StringToCodePoints (s : jsstring) : list CodePoint :=
  match s with
  | [] => []
  | h :: t =>
      match t with
      | l :: t' =>
          if isLead h && isTrail l then Pair h l :: StringToCodePoints t'
          else Unit h :: StringToCodePoints t
      | [] => [Unit h]
      end
  end.

Definition CodePointsToString (cps : list CodePoint) : jsstring :=
  flat_map (fun c => match c with Unit u => [u] | Pair h l => [h; l] end) cps.

(** The scalar value of a code point, and the code point of a scalar
    value. *)
Definition value (c : CodePoint) : N :=
  match c with
  | Unit u => u
  | Pair h l => (65536 + (h - 55296) * 1024 + (l - 56320))%N
  end.

Definition ofValue (v : N) : CodePoint :=
  if (v <? 65536)%N then Unit v
  else Pair (55296 + (v - 65536) / 1024)%N (56320 + (v - 65536) mod 1024)%N.

(** The simple lower-case mappings of the Unicode Character Database
    (UnicodeData.txt, version 14.0), in runs: [(first, count, target, step)]
    maps [first + step * i] to [target + step * i] for [i < count].  U+0130,
    whose mapping has two code points, is not listed. *)
Definition lowerRuns : list (N * N * N * N) :=
  [
    (65, 26, 97, 1); (192, 23, 224, 1); (216, 7, 248, 1); (256, 24, 257, 2);
    (306, 3, 307, 2); (313, 8, 314, 2); (330, 23, 331, 2); (376, 1, 255, 1);
    (377, 3, 378, 2); (385, 1, 595, 1); (386, 2, 387, 2); (390, 1, 596, 1);
    (391, 1, 392, 1); (393, 2, 598, 1); (395, 1, 396, 1); (398, 1, 477, 1);
    (399, 1, 601, 1); (400, 1, 603, 1); (401, 1, 402, 1); (403, 1, 608, 1);
    (404, 1, 611, 1); (406, 1, 617, 1); (407, 1, 616, 1); (408, 1, 409, 1);
    (412, 1, 623, 1); (413, 1, 626, 1); (415, 1, 629, 1); (416, 3, 417, 2);
    (422, 1, 640, 1); (423, 1, 424, 1); (425, 1, 643, 1); (428, 1, 429, 1);
    (430, 1, 648, 1); (431, 1, 432, 1); (433, 2, 650, 1); (435, 2, 436, 2);
    (439, 1, 658, 1); (440, 1, 441, 1); (444, 1, 445, 1); (452, 1, 454, 1);
    (453, 1, 454, 1); (455, 1, 457, 1); (456, 1, 457, 1); (458, 1, 460, 1);
    (459, 9, 460, 2); (478, 9, 479, 2); (497, 1, 499, 1); (498, 2, 499, 2);
    (502, 1, 405, 1); (503, 1, 447, 1); (504, 20, 505, 2); (544, 1, 414, 1);
    (546, 9, 547, 2); (570, 1, 11365, 1); (571, 1, 572, 1); (573, 1, 410, 1);
    (574, 1, 11366, 1); (577, 1, 578, 1); (579, 1, 384, 1); (580, 1, 649, 1);
    (581, 1, 652, 1); (582, 5, 583, 2); (880, 2, 881, 2); (886, 1, 887, 1);
    (895, 1, 1011, 1); (902, 1, 940, 1); (904, 3, 941, 1); (908, 1, 972, 1);
    (910, 2, 973, 1); (913, 17, 945, 1); (931, 9, 963, 1); (975, 1, 983, 1);
    (984, 12, 985, 2); (1012, 1, 952, 1); (1015, 1, 1016, 1);
    (1017, 1, 1010, 1); (1018, 1, 1019, 1); (1021, 3, 891, 1);
    (1024, 16, 1104, 1); (1040, 32, 1072, 1); (1120, 17, 1121, 2);
    (1162, 27, 1163, 2); (1216, 1, 1231, 1); (1217, 7, 1218, 2);
    (1232, 48, 1233, 2); (1329, 38, 1377, 1); (4256, 38, 11520, 1);
    (4295, 1, 11559, 1); (4301, 1, 11565, 1); (5024, 80, 43888, 1);
    (5104, 6, 5112, 1); (7312, 43, 4304, 1); (7357, 3, 4349, 1);
    (7680, 75, 7681, 2); (7838, 1, 223, 1); (7840, 48, 7841, 2);
    (7944, 8, 7936, 1); (7960, 6, 7952, 1); (7976, 8, 7968, 1);
    (7992, 8, 7984, 1); (8008, 6, 8000, 1); (8025, 4, 8017, 2);
    (8040, 8, 8032, 1); (8072, 8, 8064, 1); (8088, 8, 8080, 1);
    (8104, 8, 8096, 1); (8120, 2, 8112, 1); (8122, 2, 8048, 1);
    (8124, 1, 8115, 1); (8136, 4, 8050, 1); (8140, 1, 8131, 1);
    (8152, 2, 8144, 1); (8154, 2, 8054, 1); (8168, 2, 8160, 1);
    (8170, 2, 8058, 1); (8172, 1, 8165, 1); (8184, 2, 8056, 1);
    (8186, 2, 8060, 1); (8188, 1, 8179, 1); (8486, 1, 969, 1);
    (8490, 1, 107, 1); (8491, 1, 229, 1); (8498, 1, 8526, 1);
    (8544, 16, 8560, 1); (8579, 1, 8580, 1); (9398, 26, 9424, 1);
    (11264, 48, 11312, 1); (11360, 1, 11361, 1); (11362, 1, 619, 1);
    (11363, 1, 7549, 1); (11364, 1, 637, 1); (11367, 3, 11368, 2);
    (11373, 1, 593, 1); (11374, 1, 625, 1); (11375, 1, 592, 1);
    (11376, 1, 594, 1); (11378, 1, 11379, 1); (11381, 1, 11382, 1);
    (11390, 2, 575, 1); (11392, 50, 11393, 2); (11499, 2, 11500, 2);
    (11506, 1, 11507, 1); (42560, 23, 42561, 2); (42624, 14, 42625, 2);
    (42786, 7, 42787, 2); (42802, 31, 42803, 2); (42873, 2, 42874, 2);
    (42877, 1, 7545, 1); (42878, 5, 42879, 2); (42891, 1, 42892, 1);
    (42893, 1, 613, 1); (42896, 2, 42897, 2); (42902, 10, 42903, 2);
    (42922, 1, 614, 1); (42923, 1, 604, 1); (42924, 1, 609, 1);
    (42925, 1, 620, 1); (42926, 1, 618, 1); (42928, 1, 670, 1);
    (42929, 1, 647, 1); (42930, 1, 669, 1); (42931, 1, 43859, 1);
    (42932, 8, 42933, 2); (42948, 1, 42900, 1); (42949, 1, 642, 1);
    (42950, 1, 7566, 1); (42951, 2, 42952, 2); (42960, 1, 42961, 1);
    (42966, 2, 42967, 2); (42997, 1, 42998, 1); (65313, 26, 65345, 1);
    (66560, 40, 66600, 1); (66736, 36, 66776, 1); (66928, 11, 66967, 1);
    (66940, 15, 66979, 1); (66956, 7, 66995, 1); (66964, 2, 67003, 1);
    (68736, 51, 68800, 1); (71840, 32, 71872, 1); (93760, 32, 93792, 1);
    (125184, 34, 125218, 1)
  ]%N.

(** The property Cased (DerivedCoreProperties.txt), as closed ranges. *)
Definition casedRanges : list (N * N) :=
  [
    (65, 90); (97, 122); (170, 170); (181, 181); (186, 186); (192, 214);
    (216, 246); (248, 442); (444, 447); (452, 659); (661, 696); (704, 705);
    (736, 740); (837, 837); (880, 883); (886, 887); (890, 893); (895, 895);
    (902, 902); (904, 906); (908, 908); (910, 929); (931, 1013);
    (1015, 1153); (1162, 1327); (1329, 1366); (1376, 1416); (4256, 4293);
    (4295, 4295); (4301, 4301); (4304, 4346); (4349, 4351); (5024, 5109);
    (5112, 5117); (7296, 7304); (7312, 7354); (7357, 7359); (7424, 7615);
    (7680, 7957); (7960, 7965); (7968, 8005); (8008, 8013); (8016, 8023);
    (8025, 8025); (8027, 8027); (8029, 8029); (8031, 8061); (8064, 8116);
    (8118, 8124); (8126, 8126); (8130, 8132); (8134, 8140); (8144, 8147);
    (8150, 8155); (8160, 8172); (8178, 8180); (8182, 8188); (8305, 8305);
    (8319, 8319); (8336, 8348); (8450, 8450); (8455, 8455); (8458, 8467);
    (8469, 8469); (8473, 8477); (8484, 8484); (8486, 8486); (8488, 8488);
    (8490, 8493); (8495, 8500); (8505, 8505); (8508, 8511); (8517, 8521);
    (8526, 8526); (8544, 8575); (8579, 8580); (9398, 9449); (11264, 11492);
    (11499, 11502); (11506, 11507); (11520, 11557); (11559, 11559);
    (11565, 11565); (42560, 42605); (42624, 42653); (42786, 42887);
    (42891, 42894); (42896, 42954); (42960, 42961); (42963, 42963);
    (42965, 42969); (42997, 42998); (43000, 43002); (43824, 43866);
    (43868, 43880); (43888, 43967); (64256, 64262); (64275, 64279);
    (65313, 65338); (65345, 65370); (66560, 66639); (66736, 66771);
    (66776, 66811); (66928, 66938); (66940, 66954); (66956, 66962);
    (66964, 66965); (66967, 66977); (66979, 66993); (66995, 67001);
    (67003, 67004); (67456, 67456); (67459, 67461); (67463, 67504);
    (67506, 67514); (68736, 68786); (68800, 68850); (71840, 71903);
    (93760, 93823); (119808, 119892); (119894, 119964); (119966, 119967);
    (119970, 119970); (119973, 119974); (119977, 119980); (119982, 119993);
    (119995, 119995); (119997, 120003); (120005, 120069); (120071, 120074);
    (120077, 120084); (120086, 120092); (120094, 120121); (120123, 120126);
    (120128, 120132); (120134, 120134); (120138, 120144); (120146, 120485);
    (120488, 120512); (120514, 120538); (120540, 120570); (120572, 120596);
    (120598, 120628); (120630, 120654); (120656, 120686); (120688, 120712);
    (120714, 120744); (120746, 120770); (120772, 120779); (122624, 122633);
    (122635, 122654); (125184, 125251); (127280, 127305); (127312, 127337);
    (127344, 127369)
  ]%N.

(** The property Case_Ignorable (DerivedCoreProperties.txt), as closed
    ranges. *)
Definition caseIgnorableRanges : list (N * N) :=
  [
    (39, 39); (46, 46); (58, 58); (94, 94); (96, 96); (168, 168); (173, 173);
    (175, 175); (180, 180); (183, 184); (688, 879); (884, 885); (890, 890);
    (900, 901); (903, 903); (1155, 1161); (1369, 1369); (1375, 1375);
    (1425, 1469); (1471, 1471); (1473, 1474); (1476, 1477); (1479, 1479);
    (1524, 1524); (1536, 1541); (1552, 1562); (1564, 1564); (1600, 1600);
    (1611, 1631); (1648, 1648); (1750, 1757); (1759, 1768); (1770, 1773);
    (1807, 1807); (1809, 1809); (1840, 1866); (1958, 1968); (2027, 2037);
    (2042, 2042); (2045, 2045); (2070, 2093); (2137, 2139); (2184, 2184);
    (2192, 2193); (2200, 2207); (2249, 2306); (2362, 2362); (2364, 2364);
    (2369, 2376); (2381, 2381); (2385, 2391); (2402, 2403); (2417, 2417);
    (2433, 2433); (2492, 2492); (2497, 2500); (2509, 2509); (2530, 2531);
    (2558, 2558); (2561, 2562); (2620, 2620); (2625, 2626); (2631, 2632);
    (2635, 2637); (2641, 2641); (2672, 2673); (2677, 2677); (2689, 2690);
    (2748, 2748); (2753, 2757); (2759, 2760); (2765, 2765); (2786, 2787);
    (2810, 2815); (2817, 2817); (2876, 2876); (2879, 2879); (2881, 2884);
    (2893, 2893); (2901, 2902); (2914, 2915); (2946, 2946); (3008, 3008);
    (3021, 3021); (3072, 3072); (3076, 3076); (3132, 3132); (3134, 3136);
    (3142, 3144); (3146, 3149); (3157, 3158); (3170, 3171); (3201, 3201);
    (3260, 3260); (3263, 3263); (3270, 3270); (3276, 3277); (3298, 3299);
    (3328, 3329); (3387, 3388); (3393, 3396); (3405, 3405); (3426, 3427);
    (3457, 3457); (3530, 3530); (3538, 3540); (3542, 3542); (3633, 3633);
    (3636, 3642); (3654, 3662); (3761, 3761); (3764, 3772); (3782, 3782);
    (3784, 3789); (3864, 3865); (3893, 3893); (3895, 3895); (3897, 3897);
    (3953, 3966); (3968, 3972); (3974, 3975); (3981, 3991); (3993, 4028);
    (4038, 4038); (4141, 4144); (4146, 4151); (4153, 4154); (4157, 4158);
    (4184, 4185); (4190, 4192); (4209, 4212); (4226, 4226); (4229, 4230);
    (4237, 4237); (4253, 4253); (4348, 4348); (4957, 4959); (5906, 5908);
    (5938, 5939); (5970, 5971); (6002, 6003); (6068, 6069); (6071, 6077);
    (6086, 6086); (6089, 6099); (6103, 6103); (6109, 6109); (6155, 6159);
    (6211, 6211); (6277, 6278); (6313, 6313); (6432, 6434); (6439, 6440);
    (6450, 6450); (6457, 6459); (6679, 6680); (6683, 6683); (6742, 6742);
    (6744, 6750); (6752, 6752); (6754, 6754); (6757, 6764); (6771, 6780);
    (6783, 6783); (6823, 6823); (6832, 6862); (6912, 6915); (6964, 6964);
    (6966, 6970); (6972, 6972); (6978, 6978); (7019, 7027); (7040, 7041);
    (7074, 7077); (7080, 7081); (7083, 7085); (7142, 7142); (7144, 7145);
    (7149, 7149); (7151, 7153); (7212, 7219); (7222, 7223); (7288, 7293);
    (7376, 7378); (7380, 7392); (7394, 7400); (7405, 7405); (7412, 7412);
    (7416, 7417); (7468, 7530); (7544, 7544); (7579, 7679); (8125, 8125);
    (8127, 8129); (8141, 8143); (8157, 8159); (8173, 8175); (8189, 8190);
    (8203, 8207); (8216, 8217); (8228, 8228); (8231, 8231); (8234, 8238);
    (8288, 8292); (8294, 8303); (8305, 8305); (8319, 8319); (8336, 8348);
    (8400, 8432); (11388, 11389); (11503, 11505); (11631, 11631);
    (11647, 11647); (11744, 11775); (11823, 11823); (12293, 12293);
    (12330, 12333); (12337, 12341); (12347, 12347); (12441, 12446);
    (12540, 12542); (40981, 40981); (42232, 42237); (42508, 42508);
    (42607, 42610); (42612, 42621); (42623, 42623); (42652, 42655);
    (42736, 42737); (42752, 42785); (42864, 42864); (42888, 42890);
    (42994, 42996); (43000, 43001); (43010, 43010); (43014, 43014);
    (43019, 43019); (43045, 43046); (43052, 43052); (43204, 43205);
    (43232, 43249); (43263, 43263); (43302, 43309); (43335, 43345);
    (43392, 43394); (43443, 43443); (43446, 43449); (43452, 43453);
    (43471, 43471); (43493, 43494); (43561, 43566); (43569, 43570);
    (43573, 43574); (43587, 43587); (43596, 43596); (43632, 43632);
    (43644, 43644); (43696, 43696); (43698, 43700); (43703, 43704);
    (43710, 43711); (43713, 43713); (43741, 43741); (43756, 43757);
    (43763, 43764); (43766, 43766); (43867, 43871); (43881, 43883);
    (44005, 44005); (44008, 44008); (44013, 44013); (64286, 64286);
    (64434, 64450); (65024, 65039); (65043, 65043); (65056, 65071);
    (65106, 65106); (65109, 65109); (65279, 65279); (65287, 65287);
    (65294, 65294); (65306, 65306); (65342, 65342); (65344, 65344);
    (65392, 65392); (65438, 65439); (65507, 65507); (65529, 65531);
    (66045, 66045); (66272, 66272); (66422, 66426); (67456, 67461);
    (67463, 67504); (67506, 67514); (68097, 68099); (68101, 68102);
    (68108, 68111); (68152, 68154); (68159, 68159); (68325, 68326);
    (68900, 68903); (69291, 69292); (69446, 69456); (69506, 69509);
    (69633, 69633); (69688, 69702); (69744, 69744); (69747, 69748);
    (69759, 69761); (69811, 69814); (69817, 69818); (69821, 69821);
    (69826, 69826); (69837, 69837); (69888, 69890); (69927, 69931);
    (69933, 69940); (70003, 70003); (70016, 70017); (70070, 70078);
    (70089, 70092); (70095, 70095); (70191, 70193); (70196, 70196);
    (70198, 70199); (70206, 70206); (70367, 70367); (70371, 70378);
    (70400, 70401); (70459, 70460); (70464, 70464); (70502, 70508);
    (70512, 70516); (70712, 70719); (70722, 70724); (70726, 70726);
    (70750, 70750); (70835, 70840); (70842, 70842); (70847, 70848);
    (70850, 70851); (71090, 71093); (71100, 71101); (71103, 71104);
    (71132, 71133); (71219, 71226); (71229, 71229); (71231, 71232);
    (71339, 71339); (71341, 71341); (71344, 71349); (71351, 71351);
    (71453, 71455); (71458, 71461); (71463, 71467); (71727, 71735);
    (71737, 71738); (71995, 71996); (71998, 71998); (72003, 72003);
    (72148, 72151); (72154, 72155); (72160, 72160); (72193, 72202);
    (72243, 72248); (72251, 72254); (72263, 72263); (72273, 72278);
    (72281, 72283); (72330, 72342); (72344, 72345); (72752, 72758);
    (72760, 72765); (72767, 72767); (72850, 72871); (72874, 72880);
    (72882, 72883); (72885, 72886); (73009, 73014); (73018, 73018);
    (73020, 73021); (73023, 73029); (73031, 73031); (73104, 73105);
    (73109, 73109); (73111, 73111); (73459, 73460); (78896, 78904);
    (92912, 92916); (92976, 92982); (92992, 92995); (94031, 94031);
    (94095, 94111); (94176, 94177); (94179, 94180); (110576, 110579);
    (110581, 110587); (110589, 110590); (113821, 113822); (113824, 113827);
    (118528, 118573); (118576, 118598); (119143, 119145); (119155, 119170);
    (119173, 119179); (119210, 119213); (119362, 119364); (121344, 121398);
    (121403, 121452); (121461, 121461); (121476, 121476); (121499, 121503);
    (121505, 121519); (122880, 122886); (122888, 122904); (122907, 122913);
    (122915, 122916); (122918, 122922); (123184, 123197); (123566, 123566);
    (123628, 123631); (125136, 125142); (125252, 125259); (127995, 127999);
    (917505, 917505); (917536, 917631); (917760, 917999)
  ]%N.

Definition expandRun (r : N * N * N * N) : list (N * N) :=
  let '(first, count, target, step) := r in
  map (fun i => (first + step * N.of_nat i, target + step * N.of_nat i)%N)
      (seq 0 (N.to_nat count)).

(** The mappings, one by one. *)
Definition lowerTable : list (N * N) :=
  Eval vm_compute in flat_map expandRun lowerRuns.

Definition simpleLowercase (v : N) : option N :=
  match find (fun p => (fst p =? v)%N) lowerTable with
  | Some p => Some (snd p)
  | None => None
  end.

Definition inRanges (ranges : list (N * N)) (v : N) : bool :=
  existsb (fun r => inRange (fst r) (snd r) v) ranges.

Definition isCased (c : CodePoint) : bool := inRanges casedRanges (value c).
Definition isCaseIgnorable (c : CodePoint) : bool :=
  inRanges caseIgnorableRanges (value c).

Definition CAPITAL_SIGMA : N := 931.
Definition SMALL_SIGMA : N := 963.
Definition FINAL_SIGMA : N := 962.
(** U+0130 LATIN CAPITAL LETTER I WITH DOT ABOVE. *)
Definition CAPITAL_I_DOT : N := 304.

(** Lowercase_Mapping of a code point, the capital sigma apart: U+0130
    becomes i followed by U+0307 (SpecialCasing.txt), a code point with a
    simple mapping its image, any other code point itself. *)
Definition lowercaseMapping (c : CodePoint) : list CodePoint :=
  if (value c =? CAPITAL_I_DOT)%N then [Unit 105; Unit 775]
  else match simpleLowercase (value c) with
       | Some v => [ofValue v]
       | None => [c]
       end.

(** The second half of the condition Final_Sigma: what follows is any
    number of case-ignorable code points and then a cased letter. *)
Fixpoint followedByCased (cps : list CodePoint) : bool :=
  match cps with
  | [] => false
  | c :: rest => if isCaseIgnorable c then followedByCased rest else isCased c
  end.

(** [toLowercase] of the Default Case Conversion.  [afterCased] is the
    first half of Final_Sigma: what precedes is a cased letter and then any
    number of case-ignorable code points.  As in the engines' libraries, a
    code point that is case-ignorable is passed over whether or not it is
    also cased. *)
Fixpoint toLowercase (afterCased : bool) (cps : list CodePoint) : list CodePoint :=
  match cps with
  | [] => []
  | c :: rest =>
      (if (value c =? CAPITAL_SIGMA)%N
       then [Unit (if afterCased && negb (followedByCased rest)
                   then FINAL_SIGMA else SMALL_SIGMA)]
       else lowercaseMapping c)
      ++ toLowercase (if isCaseIgnorable c then afterCased else isCased c) rest
  end.

Definition toLowerCase (s : jsstring) : jsstring :=
  CodePointsToString (toLowercase false (StringToCodePoints s)).

(** The class [\s] (WhiteSpace and LineTerminator), which is also what
    [trim] strips. *)
Definition isWhiteSpace (c : N) : bool :=
  inRange 9 13 c || (c =? 32)%N || (c =? 160)%N || (c =? 5760)%N
  || inRange 8192 8202 c || (c =? 8232)%N || (c =? 8233)%N
  || (c =? 8239)%N || (c =? 8287)%N || (c =? 12288)%N || (c =? 65279)%N.

(** [s.replace(/\s+/g, ' ')]: every maximal run of white space becomes one
    space.  [inRun] tells that the previous unit was white space. *)
Fixpoint collapseFrom (inRun : bool) (s : jsstring) : jsstring :=
  match s with
  | [] => []
  | c :: t =>
      if isWhiteSpace c
      then (if inRun then collapseFrom true t else SPACE :: collapseFrom true t)
      else c :: collapseFrom false t
  end.

Definition collapseWhiteSpace (s : jsstring) : jsstring := collapseFrom false s.

Fixpoint dropWhile (f : N -> bool) (s : jsstring) : jsstring :=
  match s with
  | [] => []
  | c :: t => if f c then dropWhile f t else s
  end.

Definition trimStart (s : jsstring) : jsstring := dropWhile isWhiteSpace s.
Definition trimEnd (s : jsstring) : jsstring := rev (dropWhile isWhiteSpace (rev s)).
Definition trim (s : jsstring) : jsstring := trimEnd (trimStart s).

(** [Boolean(s)] for a string. *)
Definition truthy (s : jsstring) : bool :=
  match s with [] => false | _ :: _ => true end.

Fixpoint startsWith (s needle : jsstring) : bool :=
  match needle, s with
  | [], _ => true
  | _ :: _, [] => false
  | a :: needle', b :: s' => (a =? b)%N && startsWith s' needle'
  end.

(** [s.includes(needle)]. *)
Fixpoint includes (s needle : jsstring) : bool :=
  startsWith s needle
  || match s with
     | [] => false
     | _ :: t => includes t needle
     end.

(** [s.split(sep).pop()]: what follows the last separator. *)
Definition lastSegment (sep : N) (s : jsstring) : jsstring :=
  fold_left (fun acc c => if (c =? sep)%N then [] else acc ++ [c]) s [].

(** [s.replaceAll(pat, rep)] for a non-empty [pat]; [skip] counts the units
    of a match that are still to be passed over. *)
Fixpoint replaceAllFrom (pat rep : jsstring) (skip : nat) (s : jsstring) : jsstring :=
  match s with
  | [] => []
  | c :: t =>
      match skip with
      | S k => replaceAllFrom pat rep k t
      | O =>
          if startsWith s pat
          then rep ++ replaceAllFrom pat rep (Nat.pred (List.length pat)) t
          else c :: replaceAllFrom pat rep 0 t
      end
  end.

Definition replaceAll (pat rep s : jsstring) : jsstring := replaceAllFrom pat rep 0 s.

Definition join (sep : jsstring) (parts : list jsstring) : jsstring :=
  match parts with
  | [] => []
  | p :: ps => p ++ flat_map (fun q => sep ++ q) ps
  end.

(** The class [[a-z0-9]] under the [i] flag (no [u] flag): ASCII letters of
    both cases and digits. *)
Definition isAlnum (c : N) : bool :=
  inRange 48 57 c || inRange 65 90 c || inRange 97 122 c.

(** [s.replace(/\.[a-z0-9]{1,10}$/i, '')]: the leftmost dot that is followed,
    up to the end of the string, by one to ten alphanumerics. *)
Definition isExtensionTail (t : jsstring) : bool :=
  (1 <=? List.length t) && (List.length t <=? 10) && forallb isAlnum t.

Fixpoint stripExtension (s : jsstring) : jsstring :=
  match s with
  | [] => []
  | c :: t =>
      if (c =? DOT)%N && isExtensionTail t then [] else c :: stripExtension t
  end.

(** The class [[.*+?^${}()|[\]\\]] of the two escaping replaces. *)
Definition isEscaped (c : N) : bool :=
  existsb (N.eqb c) (lit ".*+?^${}()|[]\").

(** [s.replace(/[.*+?^${}()|[\]\\]/g, '\\$&')]. *)
Definition escapeRegExp (s : jsstring) : jsstring :=
  flat_map (fun c => if isEscaped c then [BACKSLASH; c] else [c]) s.

Definition DOTSTAR : jsstring := [DOT; STAR].
Definition THREE_DOTS : jsstring := [DOT; DOT; DOT].

(** [s.replace(/\\…|\\\.\\\.\\\./g, '.*')]: at each position the first
    alternative (a backslash and the ellipsis character) is tried before the
    second (three backslash-dot pairs). *)
Fixpoint replaceEscapedEllipsis (s : jsstring) : jsstring :=
  match s with
  | [] => []
  | a :: t =>
      match t with
      | b :: t2 =>
          if (a =? BACKSLASH)%N && (b =? ELLIPSIS)%N
          then DOTSTAR ++ replaceEscapedEllipsis t2
          else
            match t2 with
            | c :: d :: e :: f :: t6 =>
                if (a =? BACKSLASH)%N && (b =? DOT)%N && (c =? BACKSLASH)%N
                   && (d =? DOT)%N && (e =? BACKSLASH)%N && (f =? DOT)%N
                then DOTSTAR ++ replaceEscapedEllipsis t6
                else a :: replaceEscapedEllipsis t
            | _ => a :: replaceEscapedEllipsis t
            end
      | [] => [a]
      end
  end.

(** *** Regular expressions *)

Inductive Atom :=
| Lit (c : N)
| AnyChar.

(** A pattern of the fragment: atoms, each possibly starred. *)
Definition Regex := list (Atom * bool).

Inductive Token :=
| TAtom (a : Atom)
| TStar.

(** ECMAScript's SyntaxCharacter. *)
Definition isSyntaxChar (c : N) : bool :=
  existsb (N.eqb c) (lit "^$\.*+?()[]{}|").

Definition isLineTerminator (c : N) : bool :=
  (c =? 10)%N || (c =? 13)%N || (c =? 8232)%N || (c =? 8233)%N.

Definition consOpt {A} (a : A) (o : option (list A)) : option (list A) :=
  match o with Some l => Some (a :: l) | None => None end.

Fixpoint tokenize (escaped : bool) (p : jsstring) : option (list Token) :=
  match p with
  | [] => if escaped then None else Some []
  | c :: t =>
      if escaped
      then (if isSyntaxChar c then consOpt (TAtom (Lit c)) (tokenize false t) else None)
      else if (c =? BACKSLASH)%N then tokenize true t
      else if (c =? DOT)%N then consOpt (TAtom AnyChar) (tokenize false t)
      else if (c =? STAR)%N then consOpt TStar (tokenize false t)
      else if isSyntaxChar c then None
      else consOpt (TAtom (Lit c)) (tokenize false t)
  end.

Fixpoint quantify (ts : list Token) : option Regex :=
  match ts with
  | [] => Some []
  | TStar :: _ => None
  | TAtom a :: t =>
      match t with
      | TStar :: t' => consOpt (a, true) (quantify t')
      | _ => consOpt (a, false) (quantify t)
      end
  end.

(** [new RegExp(pattern)] without flags; [None] stands for a pattern that
    does not compile (or lies outside the fragment). *)
Definition RegExp_new (pattern : jsstring) : option Regex :=
  match tokenize false pattern with
  | Some ts => quantify ts
  | None => None
  end.

Definition atomMatches (a : Atom) (c : N) : bool :=
  match a with
  | Lit d => (c =? d)%N
  | AnyChar => negb (isLineTerminator c)
  end.

(** Does [re] match a prefix of [s]? *)
Fixpoint matchHere (re : Regex) (s : jsstring) {struct re} : bool :=
  match re with
  | [] => true
  | (a, false) :: re' =>
      match s with
      | c :: s' => atomMatches a c && matchHere re' s'
      | [] => false
      end
  | (a, true) :: re' =>
      (fix star (s : jsstring) : bool :=
         matchHere re' s
         || match s with
            | c :: s' => atomMatches a c && star s'
            | [] => false
            end) s
  end.

(** [re.test(s)]: the pattern is not anchored, any start position will do. *)
Fixpoint RegExp_test (re : Regex) (s : jsstring) : bool :=
  matchHere re s
  || match s with
     | [] => false
     | _ :: t => RegExp_test re t
     end.

(** *** Names *)

(** [name.toLowerCase().replace(/\s+/g, ' ').trim()]. *)
Definition normalizeName (s : jsstring) : jsstring :=
  trim (collapseWhiteSpace (toLowerCase s)).

(** [expected.split('/').pop()?.split('\\').pop() ?? expected]; [split]
    never yields an empty array, so the fallback is never taken. *)
Definition baseName (expected : jsstring) : jsstring :=
  lastSegment BACKSLASH (lastSegment SLASH expected).

Definition hasEllipsisMarker (s : jsstring) : bool :=
  includes s [ELLIPSIS] || includes s THREE_DOTS.

End JsString.

Import JsString.

(* ================================================================== *)
(** ** The page, as far as the embedded scripts look at it *)
(* ================================================================== *)

Module Dom.

(** An element, with the attributes the scripts read. *)
Record Node := {
  isButton : bool;
  textContent : jsstring;
  ariaLabel : option jsstring;
  title : option jsstring;
  testId : option jsstring;                (* data-testid *)
  alt : option jsstring;
  cardText : option jsstring               (* parentElement?.parentElement?.innerText *)
}.

Record FileInput := {
  accept : option jsstring;
  files : list jsstring                    (* the names of [el.files] *)
}.

(** The last user turn of the transcript: its [innerText] and, for every
    descendant matching [[aria-label],[title]], the two attribute values
    (the empty string when absent). *)
Record UserTurn := {
  turnText : jsstring;
  turnAttrs : list (jsstring * jsstring)
}.

(** What the selectors of constants.js ([SEND_BUTTON_SELECTORS],
    [UPLOAD_STATUS_SELECTORS], [CONVERSATION_TURN_SELECTOR]) resolve to is
    taken as given: the first send button (and whether it is disabled), the
    verdict of the busy-indicator scan, the last user turn. *)
Record Document := {
  nodes : list Node;                       (* in document order *)
  fileInputs : list FileInput;             (* input[type="file"] *)
  sendButton : option bool;                (* Some true: found and disabled *)
  uploadBusy : bool;
  lastUserTurn : option UserTurn
}.

Inductive Selector :=
| TestIdContains (v : jsstring)            (* [data-testid*="v"] *)
| AriaLabelContains (v : jsstring)         (* [aria-label*="v"] *)
| AriaLabelIs (v : jsstring)               (* [aria-label="v"] *)
| ButtonAriaLabelContains (v : jsstring).  (* button[aria-label*="v"] *)

Fixpoint eqString (a b : jsstring) : bool :=
  match a, b with
  | [], [] => true
  | x :: a', y :: b' => (x =? y)%N && eqString a' b'
  | _, _ => false
  end.

Definition attrContains (attr : option jsstring) (v : jsstring) : bool :=
  match attr with Some a => includes a v | None => false end.

Definition matchesSelector (sel : Selector) (n : Node) : bool :=
  match sel with
  | TestIdContains v => attrContains (testId n) v
  | AriaLabelContains v => attrContains (ariaLabel n) v
  | AriaLabelIs v => match ariaLabel n with Some a => eqString a v | None => false end
  | ButtonAriaLabelContains v => isButton n && attrContains (ariaLabel n) v
  end.

Definition querySelectorAll (sel : Selector) (d : Document) : list Node :=
  filter (matchesSelector sel) (nodes d).

(** [x ?? ''] and [x || ''] on an attribute. *)
Definition orEmpty (attr : option jsstring) : jsstring :=
  match attr with Some a => a | None => [] end.

Definition selAttachment := TestIdContains (lit "attachment").
Definition selChip := TestIdContains (lit "chip").
Definition selUpload := TestIdContains (lit "upload").
Definition selRemove := AriaLabelContains (lit "Remove").

(** [btn?.parentElement?.parentElement?.innerText?.toLowerCase?.() ?? '']
    over [[aria-label*="Remove"]]. *)
Definition removeCardTexts (d : Document) : list jsstring :=
  map (fun btn => toLowerCase (orEmpty (cardText btn))) (querySelectorAll selRemove d).

End Dom.

Import Dom.

(* ================================================================== *)
(** ** The name matchers, one per wait, as the source inlines them *)
(* ================================================================== *)

(** *** waitForAttachmentCompletion *)

Module Completion.

Inductive ControlState := ready | disabled | missing.

(** The value the page expression returns. *)
Record Snapshot := {
  state : ControlState;
  uploading : bool;
  filesAttached : bool;
  attachedNames : list jsstring;
  inputNames : list jsstring
}.

(** The page expression. *)
Definition probe (d : Document) : Snapshot :=
  let chipTexts :=
    flat_map (fun sel =>
      flat_map (fun node =>
        let text := toLowerCase (textContent node) in
        if truthy text then [text] else [])
        (querySelectorAll sel d))
      [selChip; selAttachment; selUpload] in
  let names := chipTexts ++ filter truthy (removeCardTexts d) in
  let fromInputs :=
    flat_map (fun input =>
      flat_map (fun name => if truthy name then [toLowerCase name] else [])
               (files input))
      (fileInputs d) in
  {| state := match sendButton d with
              | Some true => disabled
              | Some false => ready
              | None => missing
              end;
     uploading := uploadBusy d;
     filesAttached := 0 <? List.length names;
     attachedNames := names;
     inputNames := fromInputs |}.

(** [names.map(normalize).filter(Boolean)]. *)
Definition normalizeAll (names : list jsstring) : list jsstring :=
  filter truthy (map normalizeName names).

Definition ellipsisPattern (raw : jsstring) : jsstring :=
  replaceEscapedEllipsis (escapeRegExp raw).

(** The callback of [attachedNames.some(...)]. *)
Definition candidateMatches (normalizedExpected expectedNoExt raw : jsstring) : bool :=
  if includes raw normalizedExpected then true
  else if (6 <=? List.length expectedNoExt) && includes raw expectedNoExt then true
  else if includes raw [ELLIPSIS] || includes raw THREE_DOTS then
    match RegExp_new (ellipsisPattern raw) with
    | Some re =>
        RegExp_test re normalizedExpected
        || ((6 <=? List.length expectedNoExt) && RegExp_test re expectedNoExt)
    | None => false
    end
  else false.

Definition matchesExpected (attachedNames : list jsstring) (expected : jsstring) : bool :=
  let normalizedExpected := normalizeName (baseName expected) in
  let expectedNoExt := stripExtension normalizedExpected in
  existsb (candidateMatches normalizedExpected expectedNoExt) attachedNames.

(** The callback of the [inputMissing] filter, negated. *)
Definition inputMatches (inputNames : list jsstring) (expected : jsstring) : bool :=
  let normalizedExpected := normalizeName (baseName expected) in
  let expectedNoExt := stripExtension normalizedExpected in
  existsb (fun raw =>
             includes raw normalizedExpected
             || ((6 <=? List.length expectedNoExt) && includes raw expectedNoExt))
          inputNames.

End Completion.

(** *** waitForUserTurnAttachments *)

Module UserTurnWait.

(** The value the page expression returns: [{ ok: false }] or
    [{ ok: true, text, attrs }]. *)
Definition probe (d : Document) : option (jsstring * list jsstring) :=
  match lastUserTurn d with
  | None => None
  | Some turn =>
      Some (toLowerCase (turnText turn),
            filter truthy
              (map (fun at_ => toLowerCase (trim (fst at_ ++ [SPACE] ++ snd at_)))
                   (turnAttrs turn)))
  end.

Definition haystackOf (text : jsstring) (attrs : list jsstring) : jsstring :=
  join [NEWLINE] (text :: attrs).

(** The callback of the [missing] filter, negated. *)
Definition matchesExpected (haystack expected : jsstring) : bool :=
  let normalizedExpected := normalizeName (baseName expected) in
  let expectedNoExt := stripExtension normalizedExpected in
  if includes haystack normalizedExpected then true
  else if (6 <=? List.length expectedNoExt) && includes haystack expectedNoExt then true
  else false.

End UserTurnWait.

(** *** waitForAttachmentVisible *)

Module Visible.

(** The test both [matchNode] and the card scan apply to a candidate. *)
Definition valueMatches (normalized normalizedNoExt value : jsstring) : bool :=
  includes value normalized
  || ((6 <=? List.length normalizedNoExt) && includes value normalizedNoExt).

Definition matchNode (normalized normalizedNoExt : jsstring) (node : Node) : bool :=
  let candidates :=
    filter truthy
      [ toLowerCase (textContent node);
        toLowerCase (orEmpty (ariaLabel node));
        toLowerCase (orEmpty (title node));
        toLowerCase (orEmpty (testId node));
        toLowerCase (orEmpty (alt node)) ] in
  existsb (valueMatches normalized normalizedNoExt) candidates.

(** The page expression: the [found] field of its result. *)
Definition probe (expectedName : jsstring) (d : Document) : bool :=
  let normalized := toLowerCase expectedName in
  let normalizedNoExt := stripExtension normalized in
  if existsb (fun sel => existsb (matchNode normalized normalizedNoExt)
                                 (querySelectorAll sel d))
             [selAttachment; selChip; selUpload]
  then true
  else existsb (valueMatches normalized normalizedNoExt) (removeCardTexts d).

End Visible.

(** *** waitForAttachmentAnchored *)

Module Anchored.

Definition ellipsisPattern (text : jsstring) : jsstring :=
  replaceAll THREE_DOTS DOTSTAR (replaceAll [ELLIPSIS] DOTSTAR (escapeRegExp text)).

(** [matchesExpected] of the page expression; [normalized] is the
    lower-cased expected name. *)
Definition matchesExpected (normalized normalizedNoExt value : jsstring) : bool :=
  let text := toLowerCase value in
  if negb (truthy text) then false
  else if includes text normalized then true
  else if (6 <=? List.length normalizedNoExt) && includes text normalizedNoExt then true
  else if includes text [ELLIPSIS] || includes text THREE_DOTS then
    match RegExp_new (ellipsisPattern text) with
    | Some re =>
        RegExp_test re normalized
        || ((6 <=? List.length normalizedNoExt) && RegExp_test re normalizedNoExt)
    | None => false
    end
  else false.

(** The page expression: the [found] field of its result. *)
Definition probe (expectedName : jsstring) (d : Document) : bool :=
  let normalized := toLowerCase expectedName in
  let normalizedNoExt := stripExtension normalized in
  let matches := matchesExpected normalized normalizedNoExt in
  if existsb (fun sel =>
       existsb (fun node =>
                  existsb matches
                    [textContent node; orEmpty (ariaLabel node); orEmpty (title node)])
               (querySelectorAll sel d))
       [selAttachment; selChip; selUpload; selRemove;
        ButtonAriaLabelContains (lit "Remove")]
  then true
  else existsb matches (removeCardTexts d).

End Anchored.

(* ================================================================== *)
(** ** Awaiting on an external page *)
(* ================================================================== *)

Module Async.

(** What a [Runtime.evaluate] round trip can come back with: a rejected
    promise, a result without a value, or the script's value on the
    document the page showed at that moment. *)
Inductive Probe :=
| Rejected
| NoValue
| Shown (d : Document).

(** The environment: what the n-th round trip observes, and by how many
    milliseconds the n-th [await] overruns. *)
Record Env := {
  observe : nat -> Probe;
  lag : nat -> N
}.

(** The script expressions of the module. *)
Inductive Script :=
| ClickComposerPlus
| ClickUploadMenuItem
| IsAttachmentPresent
| MarkUploadTarget
| DispatchEvents
| SnapshotAfterSet
| CompletionProbe
| UserTurnProbe
| VisibleProbe
| AnchoredProbe.

Inductive Event :=
| Evaluated (s : Script)
| Slept (ms : Z)
| Logged (line : jsstring)
| DomFailure (tag : string)
| GotDocument
| QueriedSelector
| SetFileInputFiles (nodeId : N) (path : jsstring).

Record World := {
  clock : Z;                 (* Date.now() *)
  probes : nat;              (* round trips so far *)
  awaits : nat;              (* awaits so far *)
  events : list Event        (* oldest first *)
}.

Inductive Outcome (A : Type) :=
| Done (a : A)
| Thrown (message : string)
| OutOfFuel.
Arguments Done {A} a.
Arguments Thrown {A} message%_string.
Arguments OutOfFuel {A}.

Definition M (A : Type) := Env -> World -> Outcome A * World.

Definition ret {A} (a : A) : M A := fun _ w => (Done a, w).

Definition bind {A B} (m : M A) (k : A -> M B) : M B :=
  fun env w =>
    match m env w with
    | (Done a, w') => k a env w'
    | (Thrown e, w') => (Thrown e, w')
    | (OutOfFuel, w') => (OutOfFuel, w')
    end.

Definition throw {A} (message : string) : M A := fun _ w => (Thrown message, w).
Arguments throw {A} message%_string.

Definition outOfFuel {A} : M A := fun _ w => (OutOfFuel, w).

(** [promise.catch(() => undefined)]. *)
Definition catch {A} (m : M A) : M (option A) :=
  fun env w =>
    match m env w with
    | (Done a, w') => (Done (Some a), w')
    | (Thrown _, w') => (Done None, w')
    | (OutOfFuel, w') => (OutOfFuel, w')
    end.

Definition dateNow : M Z := fun _ w => (Done (clock w), w).

(** One [await] that was asked to last [ms] milliseconds. *)
Definition elapse (ms : Z) (e : list Event) (bump : nat) (env : Env) (w : World) : World :=
  {| clock := clock w + ms + Z.of_N (lag env (awaits w));
     probes := bump + probes w;
     awaits := S (awaits w);
     events := events w ++ e |}.

Definition record (e : Event) : M unit :=
  fun _ w =>
    (Done tt, {| clock := clock w; probes := probes w; awaits := awaits w;
                 events := events w ++ [e] |}).

(** [await Runtime.evaluate({ expression, returnByValue: true })]. *)
Definition evaluate (s : Script) : M Probe :=
  fun env w => (Done (observe env (probes w)), elapse 0 [Evaluated s] 1 env w).

(** The same, with the expression run on the document and read back through
    [result?.value]; a rejection propagates. *)
Definition evaluateValue {A} (s : Script) (expression : Document -> A) : M (option A) :=
  bind (evaluate s) (fun p =>
    match p with
    | Rejected => throw "Runtime.evaluate rejected"
    | NoValue => ret None
    | Shown d => ret (Some (expression d))
    end).

(** Modelled from the spec: [delay] (utils.js) is not among the sources; the
    spec has the loops sleep a fixed step between probes.  [await delay(ms)]
    is an await of [ms] milliseconds, plus whatever the timer overruns. *)
Definition delay (ms : Z) : M unit :=
  fun env w => (Done tt, elapse ms [Slept ms] 0 env w).

(** [logger(line)]. *)
Definition log (line : jsstring) : M unit := record (Logged line).

(** [logger?.(line)]. *)
Definition logIf (logger : bool) (line : jsstring) : M unit :=
  if logger then log line else ret tt.

(** Modelled from the spec: [logDomFailure] (domDebug.js) is not among the
    sources; the spec makes it a best-effort diagnostic capture whose own
    failure is discarded.  It is an await that records the tag and never
    throws. *)
Definition logDomFailure (tag : string) : M unit :=
  fun env w => (Done tt, elapse 0 [DomFailure tag] 0 env w).
Arguments logDomFailure tag%_string.

Declare Scope async_scope.
Delimit Scope async_scope with async.
Bind Scope async_scope with M.
Notation "x <- c1 ;; c2" := (bind c1 (fun x => c2))
  (at level 61, c1 at next level, right associativity) : async_scope.
Notation "c1 ;; c2" := (bind c1 (fun _ => c2))
  (at level 61, right associativity) : async_scope.

End Async.

Import Async.
Open Scope async_scope.
Open Scope Z_scope.

(* ================================================================== *)
(** ** The waits *)
(* ================================================================== *)

Module Waits.

Import Completion.

Definition isReady (s : ControlState) : bool :=
  match s with ready => true | _ => false end.
Definition isMissing (s : ControlState) : bool :=
  match s with missing => true | _ => false end.

(** Which [return] of [waitForAttachmentCompletion] was taken. *)
Inductive Exit :=
| ChipsReady            (* every name on a chip, send control ready *)
| ChipsNoControl        (* every name on a chip, no send control, chips present *)
| InputStable.          (* file inputs hold the names, long enough *)

(** The body of the loop from the probe's value on; [again] is the next
    iteration ([continue], or falling off the end of the body). *)
Definition completionTick (expectedNormalized : list jsstring)
    (again : option Z -> M Exit)
    (value : option Snapshot) (inputMatchSince : option Z) : M Exit :=
  match value with
  | Some v =>
      if negb (uploading v) then
        let attachedNames := normalizeAll (attachedNames v) in
        let inputNames := normalizeAll (inputNames v) in
        let missing :=
          filter (fun expected => negb (matchesExpected attachedNames expected))
                 expectedNormalized in
        let fallback : M Exit :=
          let inputMissing :=
            filter (fun expected => negb (inputMatches inputNames expected))
                   expectedNormalized in
          if (List.length inputMissing =? 0)%nat && isReady (state v) then
            since <- match inputMatchSince with
                     | None => dateNow
                     | Some t => ret t
                     end ;;
            now <- dateNow ;;
            if now - since >? 1500 then ret InputStable
            else delay 250 ;; again (Some since)
          else
            delay 250 ;; again None in
        if (List.length missing =? 0)%nat then
          if isReady (state v) then ret ChipsReady
          else if isMissing (state v) && filesAttached v then ret ChipsNoControl
          else if filesAttached v then delay 500 ;; again inputMatchSince
          else fallback
        else fallback
      else delay 250 ;; again inputMatchSince
  | None => delay 250 ;; again inputMatchSince
  end.

Fixpoint completionLoop (fuel : nat) (logger : bool)
    (expectedNormalized : list jsstring) (deadline : Z)
    (inputMatchSince : option Z) : M Exit :=
  match fuel with
  | O => outOfFuel
  | S fuel' =>
      now <- dateNow ;;
      if now <? deadline then
        value <- evaluateValue CompletionProbe Completion.probe ;;
        completionTick expectedNormalized
          (fun since => completionLoop fuel' logger expectedNormalized deadline since)
          value inputMatchSince
      else
        logIf logger (lit "Attachment upload timed out while waiting for ChatGPT composer to become ready.") ;;
        logDomFailure "file-upload-timeout" ;;
        throw "Attachments did not finish uploading before timeout."
  end.

Definition waitForAttachmentCompletion (fuel : nat) (timeoutMs : Z)
    (expectedNames : list jsstring) (logger : bool) : M Exit :=
  now <- dateNow ;;
  let deadline := now + timeoutMs in
  let expectedNormalized := map toLowerCase expectedNames in
  completionLoop fuel logger expectedNormalized deadline None.

(** *** waitForUserTurnAttachments *)

Fixpoint userTurnLoop (fuel : nat) (logger : bool)
    (expectedNormalized : list jsstring) (deadline : Z) : M unit :=
  match fuel with
  | O => outOfFuel
  | S fuel' =>
      now <- dateNow ;;
      if now <? deadline then
        value <- evaluateValue UserTurnProbe UserTurnWait.probe ;;
        match value with
        | Some (Some (text, attrs)) =>
            let haystack := UserTurnWait.haystackOf text attrs in
            let missing :=
              filter (fun expected => negb (UserTurnWait.matchesExpected haystack expected))
                     expectedNormalized in
            if (List.length missing =? 0)%nat then ret tt
            else delay 250 ;; userTurnLoop fuel' logger expectedNormalized deadline
        | _ => delay 200 ;; userTurnLoop fuel' logger expectedNormalized deadline
        end
      else
        logIf logger (lit "Sent user message did not show expected attachment names in time.") ;;
        logDomFailure "attachment-missing-user-turn" ;;
        throw "Attachment was not present on the sent user message."
  end.

(** [expectedNames] is [None] when the caller passed nothing. *)
Definition waitForUserTurnAttachments (fuel : nat)
    (expectedNames : option (list jsstring)) (timeoutMs : Z) (logger : bool) : M unit :=
  match expectedNames with
  | None => ret tt
  | Some [] => ret tt
  | Some names =>
      let expectedNormalized := map toLowerCase names in
      now <- dateNow ;;
      userTurnLoop fuel logger expectedNormalized (now + timeoutMs)
  end.

(** *** waitForAttachmentVisible *)

Definition isFound (value : option bool) : bool :=
  match value with Some true => true | _ => false end.

Fixpoint visibleLoop (fuel : nat) (logger : bool)
    (expectedName : jsstring) (deadline : Z) : M unit :=
  match fuel with
  | O => outOfFuel
  | S fuel' =>
      now <- dateNow ;;
      if now <? deadline then
        value <- evaluateValue VisibleProbe (Visible.probe expectedName) ;;
        if isFound value then ret tt
        else delay 200 ;; visibleLoop fuel' logger expectedName deadline
      else
        logIf logger (lit "Attachment not visible in composer; giving up.") ;;
        logDomFailure "attachment-visible" ;;
        throw "Attachment did not appear in ChatGPT composer."
  end.

Definition waitForAttachmentVisible (fuel : nat) (expectedName : jsstring)
    (timeoutMs : Z) (logger : bool) : M unit :=
  now <- dateNow ;;
  visibleLoop fuel logger expectedName (now + timeoutMs).

(** *** waitForAttachmentAnchored *)

Fixpoint anchoredLoop (fuel : nat) (expectedName : jsstring) (deadline : Z) : M bool :=
  match fuel with
  | O => outOfFuel
  | S fuel' =>
      now <- dateNow ;;
      if now <? deadline then
        value <- evaluateValue AnchoredProbe (Anchored.probe expectedName) ;;
        if isFound value then ret true
        else delay 200 ;; anchoredLoop fuel' expectedName deadline
      else ret false
  end.

Definition waitForAttachmentAnchored (fuel : nat) (expectedName : jsstring)
    (timeoutMs : Z) : M bool :=
  now <- dateNow ;;
  anchoredLoop fuel expectedName (now + timeoutMs).

End Waits.

(* ================================================================== *)
(** ** uploadAttachmentFile *)
(* ================================================================== *)

Module Upload.

Import Waits.

(** [s.split(sep)]. *)
Fixpoint splitFrom (sep : N) (current : jsstring) (s : jsstring) : list jsstring :=
  match s with
  | [] => [current]
  | c :: t =>
      if (c =? sep)%N then current :: splitFrom sep [] t
      else splitFrom sep (current ++ [c]) t
  end.

Definition split (sep : N) (s : jsstring) : list jsstring := splitFrom sep [] s.

(** [path.basename] (POSIX flavour): trailing slashes are ignored. *)
Definition path_basename (p : jsstring) : jsstring :=
  lastSegment SLASH (rev (dropWhile (N.eqb SLASH) (rev p))).

(** The page expression of [isAttachmentPresent(name)]. *)
Definition isAttachmentPresent (name : jsstring) (d : Document) : bool :=
  let expected := toLowerCase name in
  let chips :=
    existsb (fun sel =>
      existsb (fun node => includes (toLowerCase (textContent node)) expected)
              (querySelectorAll sel d))
      [selAttachment; selChip; selUpload] in
  if chips then true
  else
    let cardTexts :=
      map (fun btn => toLowerCase (orEmpty (cardText btn)))
          (querySelectorAll (AriaLabelIs (lit "Remove file")) d) in
    if existsb (fun text => includes text expected) cardTexts then true
    else
      existsb (fun el => existsb (fun f => includes (toLowerCase f) expected) (files el))
              (fileInputs d).

Definition acceptIsImageOnly (accept : option jsstring) : bool :=
  match accept with
  | None => false
  | Some a =>
      if negb (truthy a) then false
      else
        let parts := filter truthy (map (fun p => toLowerCase (trim p)) (split 44 a)) in
        (0 <? List.length parts)%nat
        && forallb (fun p => startsWith p (lit "image/")) parts
  end.

(** The page expression that tags the upload target: the input it picks, if
    any ([true] is returned exactly when there is one). *)
Definition markUploadTarget (d : Document) : option FileInput :=
  let inputs := fileInputs d in
  let nonImage := filter (fun el => negb (acceptIsImageOnly (accept el))) inputs in
  match nonImage with
  | _ :: _ => Some (last nonImage (Build_FileInput None []))
  | [] =>
      match inputs with
      | _ :: _ => Some (last inputs (Build_FileInput None []))
      | [] => None
      end
  end.

Definition isSome {A} (o : option A) : bool :=
  match o with Some _ => true | None => false end.

(** The snapshot taken right after the files were set: chip texts and the
    file names of every input. *)
Definition snapshotAfterSet (d : Document) : list jsstring * list (list jsstring) :=
  (filter truthy
     (map (fun node => trim (textContent node))
          (filter (fun n => existsb (fun sel => matchesSelector sel n)
                                    [selAttachment; selChip; selUpload; selRemove])
                  (nodes d))),
   map files (fileInputs d)).

(** The structural DOM channel ([deps.dom]): what its three calls answer.
    [None] is a rejected promise; node id 0 is "no such node". *)
Record DomChannel := {
  getDocument : option N;
  querySelector : N -> option N;
  setFileInputFiles : N -> jsstring -> bool
}.

Definition domGetDocument (dom : DomChannel) : M N :=
  fun env w =>
    let w' := elapse 0 [GotDocument] 0 env w in
    match getDocument dom with
    | Some root => (Done root, w')
    | None => (Thrown "DOM.getDocument rejected", w')
    end.

Definition domQuerySelector (dom : DomChannel) (root : N) : M N :=
  fun env w =>
    let w' := elapse 0 [QueriedSelector] 0 env w in
    match querySelector dom root with
    | Some node => (Done node, w')
    | None => (Thrown "DOM.querySelector rejected", w')
    end.

Definition domSetFileInputFiles (dom : DomChannel) (node : N) (path : jsstring) : M unit :=
  fun env w =>
    let w' := elapse 0 [SetFileInputFiles node path] 0 env w in
    if setFileInputFiles dom node path then (Done tt, w')
    else (Thrown "DOM.setFileInputFiles rejected", w').

Definition attachmentUiTimeoutMs : Z := 12000.

(** [attachmentPath] is [attachment.path]; the logger is mandatory here. *)
Definition uploadAttachmentFile (fuel : nat) (dom : option DomChannel)
    (attachmentPath : jsstring) : M unit :=
  match dom with
  | None => throw "DOM domain unavailable while uploading attachments."
  | Some dom =>
      catch (evaluate ClickComposerPlus) ;;
      delay 250 ;;
      catch (evaluate ClickUploadMenuItem) ;;
      let expectedName := path_basename attachmentPath in
      check <- evaluateValue IsAttachmentPresent (isAttachmentPresent expectedName) ;;
      if isFound check then
        log (lit "Attachment already present: " ++ path_basename attachmentPath)
      else
        markResult <- evaluateValue MarkUploadTarget (fun d => isSome (markUploadTarget d)) ;;
        let marked := isFound markResult in
        if negb marked then
          logDomFailure "file-input-missing" ;;
          throw "Unable to locate ChatGPT file attachment input."
        else
          root <- domGetDocument dom ;;
          resolvedNodeId <- domQuerySelector dom root ;;
          if (resolvedNodeId =? 0)%N then
            logDomFailure "file-input-missing" ;;
            throw "Unable to locate ChatGPT file attachment input."
          else
            domSetFileInputFiles dom resolvedNodeId attachmentPath ;;
            evaluateValue DispatchEvents (fun _ => true) ;;
            snapshot <- catch (evaluateValue SnapshotAfterSet snapshotAfterSet) ;;
            let snapshot := match snapshot with Some (Some s) => Some s | _ => None end in
            match snapshot with
            | Some _ => log (lit "Attachment snapshot after setFileInputFiles")
            | None => ret tt
            end ;;
            let inputHasFile :=
              match snapshot with
              | Some (_, inputs) =>
                  existsb (fun entry =>
                             existsb (fun name =>
                                        includes (toLowerCase name) (toLowerCase expectedName))
                                     entry)
                          inputs
              | None => false
              end in
            anchored <- waitForAttachmentAnchored fuel expectedName attachmentUiTimeoutMs ;;
            if anchored then
              waitForAttachmentVisible fuel expectedName attachmentUiTimeoutMs true ;;
              log (if inputHasFile
                   then lit "Attachment queued (UI anchored, file input confirmed)"
                   else lit "Attachment queued (UI anchored)")
            else if inputHasFile then
              log (lit "Attachment queued (file input only; no UI chip yet)")
            else
              logDomFailure "file-upload-missing" ;;
              throw "Attachment did not register with the ChatGPT composer in time."
  end.

End Upload.

(* ================================================================== *)
(** ** The four matchers at a single candidate label *)
(* ================================================================== *)

Module Matchers.

(** The readiness wait, for a snapshot whose only chip text is [candidate]
    and the caller's [expected] name. *)
Definition completion (candidate expected : jsstring) : bool :=
  Completion.matchesExpected (Completion.normalizeAll [candidate]) (toLowerCase expected).

(** The anchored wait, for one text handed to its [matchesExpected]. *)
Definition anchored (candidate expected : jsstring) : bool :=
  let normalized := toLowerCase expected in
  Anchored.matchesExpected normalized (stripExtension normalized) candidate.

(** The visible wait, for a card whose text is [candidate]. *)
Definition visible (candidate expected : jsstring) : bool :=
  let normalized := toLowerCase expected in
  Visible.valueMatches normalized (stripExtension normalized) (toLowerCase candidate).

(** The post-send check, for a user turn whose text is [candidate] and that
    carries no labelled descendants. *)
Definition userTurn (candidate expected : jsstring) : bool :=
  UserTurnWait.matchesExpected
    (UserTurnWait.haystackOf (toLowerCase candidate) []) (toLowerCase expected).

(** The rule the four have in common: the name, or its stem when that is at
    least six units long, occurs in the candidate. *)
Definition substringRule (candidate expected : jsstring) : bool :=
  includes candidate expected
  || ((6 <=? List.length (stripExtension expected))%nat
      && includes candidate (stripExtension expected)).

End Matchers.

(* ================================================================== *)
(** ** Auxiliary notions for the proofs *)
(* ================================================================== *)

Module Aux.

(** White space occurs only as single spaces; [prev] tells that the unit
    before the list was white space. *)
Fixpoint wellSpaced (prev : bool) (l : jsstring) : bool :=
  match l with
  | [] => true
  | c :: t =>
      if isWhiteSpace c then negb prev && (c =? SPACE)%N && wellSpaced true t
      else wellSpaced false t
  end.

(** The first unit, if any, is not white space. *)
Definition cleanHead (l : jsstring) : Prop :=
  match l with
  | [] => True
  | c :: _ => isWhiteSpace c = false
  end.

(** The world after [k] rounds that each ran script [s] and then slept
    [ms] milliseconds. *)
Fixpoint afterPolls (s : Script) (ms : Z) (k : nat) (env : Env) (w : World) : World :=
  match k with
  | O => w
  | S k' =>
      afterPolls s ms k' env
        (elapse ms [Slept ms] 0 env (elapse 0 [Evaluated s] 1 env w))
  end.

(** The overruns of [count] consecutive awaits, from the [from]-th on. *)
Fixpoint lagSum (env : Env) (from count : nat) : Z :=
  match count with
  | O => 0
  | S c => Z.of_N (lag env from) + lagSum env (S from) c
  end.

(** A round trip that came back without a match. *)
Definition fruitless (found : Document -> bool) (p : Probe) : Prop :=
  match p with
  | Rejected => False
  | NoValue => True
  | Shown d => found d = false
  end.

(** The pattern compiles, and does not begin with a quantifier. *)
Definition parses (s : jsstring) : Prop :=
  exists ts re, tokenize false s = Some ts /\ quantify ts = Some re /\ hd_error ts <> Some TStar.

(** Three dots in a row occur nowhere in the string. *)
Fixpoint noTripleDots (s : jsstring) : bool :=
  negb (startsWith s THREE_DOTS)
  && match s with [] => true | _ :: t => noTripleDots t end.

(** What the anchored wait turns one unit of a label into: escaping, then
    the ellipsis character replaced. *)
Definition anchoredUnit (c : N) : jsstring :=
  if (c =? ELLIPSIS)%N then DOTSTAR
  else if isEscaped c then [BACKSLASH; c] else [c].

(** The condition the file-input fallback debounces. *)
Definition inputCondition (expectedNormalized : list jsstring) (v : Completion.Snapshot) : bool :=
  forallb (Completion.inputMatches (Completion.normalizeAll (Completion.inputNames v)))
          expectedNormalized
  && Waits.isReady (Completion.state v).

(** Every expected name is on some chip or card. *)
Definition chipsMatch (expectedNormalized : list jsstring) (v : Completion.Snapshot) : bool :=
  forallb (Completion.matchesExpected (Completion.normalizeAll (Completion.attachedNames v)))
          expectedNormalized.

(** The lower-case mapping leaves the scalar value [v] alone. *)
Definition fixedValue (v : N) : bool :=
  negb (v =? CAPITAL_I_DOT)%N
  && match simpleLowercase v with Some _ => false | None => true end.

(** Every code point of the string is left alone by the lower-case
    mapping, the pair [prev] may form with the first unit included. *)
Fixpoint settledFrom (prev : N) (x : jsstring) : bool :=
  match x with
  | [] => true
  | u :: t =>
      fixedValue u
      && (if isLead prev && isTrail u then fixedValue (value (Pair prev u)) else true)
      && settledFrom u t
  end.

(** What the table has to say about an image: written out in code units it
    is settled, begins with no trail surrogate, ends with no lead surrogate
    and holds no path separator. *)
Definition imageOk (v : N) : bool :=
  let us := CodePointsToString [ofValue v] in
  settledFrom 0 us
  && negb (isTrail (hd 0%N us))
  && negb (isLead (last us 0%N))
  && forallb (fun u => negb (u =? SLASH)%N && negb (u =? BACKSLASH)%N) us.

(** What one code point turns into under [toLowercase]. *)
Definition lowered (b : bool) (c : CodePoint) (rest : list CodePoint) : list CodePoint :=
  if (value c =? CAPITAL_SIGMA)%N
  then [Unit (if b && negb (followedByCased rest) then FINAL_SIGMA else SMALL_SIGMA)]
  else lowercaseMapping c.

End Aux.

Import Aux.

(* ================================================================== *)
(** ** Sample pages and environments *)
(* ================================================================== *)

Module Samples.

Definition reportName : jsstring := lit "quarterly-report.xlsx".

Definition emptyPage : Document :=
  {| nodes := []; fileInputs := []; sendButton := None;
     uploadBusy := false; lastUserTurn := None |}.

(** A chip showing the file name. *)
Definition chip : Node :=
  {| isButton := false; textContent := reportName; ariaLabel := None;
     title := None; testId := Some (lit "attachment-chip"); alt := None;
     cardText := None |}.

(** The composer with the chip rendered and the given send button. *)
Definition chipPage (button : option bool) : Document :=
  {| nodes := [chip]; fileInputs := []; sendButton := button;
     uploadBusy := false; lastUserTurn := None |}.

(** No chip, the file held by the file input, send button enabled. *)
Definition inputOnlyPage : Document :=
  {| nodes := [];
     fileInputs := [ {| accept := None; files := [reportName] |} ];
     sendButton := Some false; uploadBusy := false; lastUserTurn := None |}.

(** An upload indicator is shown, the file input is empty and the send
    button is disabled. *)
Definition busyPage : Document :=
  {| nodes := [];
     fileInputs := [ {| accept := None; files := [] |} ];
     sendButton := Some true; uploadBusy := true; lastUserTurn := None |}.

Definition start : World :=
  {| clock := 0; probes := 0; awaits := 0; events := [] |}.

(** Every await exactly on time, the same page at every probe. *)
Definition steady (d : Document) : Env :=
  {| observe := fun _ => Shown d; lag := fun _ => 0%N |}.

(** On time; the file input holds the file, except that the seventh round
    trip (probe 6) sees a page without any file input. *)
Definition dropout : Env :=
  {| observe := fun n => if (n =? 6)%nat then Shown emptyPage else Shown inputOnlyPage;
     lag := fun _ => 0%N |}.

(** Nothing ever shows up, and every await overruns by 60 ms. *)
Definition sluggish : Env :=
  {| observe := fun _ => Shown emptyPage; lag := fun _ => 60%N |}.

(** A structural channel that resolves node 7. *)
Definition channel : Upload.DomChannel :=
  {| Upload.getDocument := Some 1%N;
     Upload.querySelector := fun _ => Some 7%N;
     Upload.setFileInputFiles := fun _ _ => true |}.

End Samples.

(* ================================================================== *)
(** ** Notions for the end-to-end properties *)
(* ================================================================== *)

Module Views.

(** The events of [k] rounds that each ran script [s] and then slept [ms]
    milliseconds. *)
Fixpoint pollTrace (s : Script) (ms : Z) (k : nat) : list Event :=
  match k with
  | O => []
  | S k' => Evaluated s :: Slept ms :: pollTrace s ms k'
  end.

(** What a return of the readiness wait rests on. *)
Definition justifies (expectedNormalized : list jsstring) (exit : Waits.Exit)
    (v : Completion.Snapshot) : Prop :=
  match exit with
  | Waits.ChipsReady =>
      chipsMatch expectedNormalized v = true
      /\ Completion.state v = Completion.ready
  | Waits.ChipsNoControl =>
      chipsMatch expectedNormalized v = true
      /\ Completion.state v = Completion.missing
      /\ Completion.filesAttached v = true
  | Waits.InputStable => inputCondition expectedNormalized v = true
  end.

(** Every expected name occurs in the rendered user turn. *)
Definition turnShows (expectedNormalized : list jsstring) (d : Document) : Prop :=
  exists text attrs,
    UserTurnWait.probe d = Some (text, attrs)
    /\ forallb (UserTurnWait.matchesExpected (UserTurnWait.haystackOf text attrs))
               expectedNormalized = true.

(** How a run of the readiness loop that started in [w] can end: with a
    return that the snapshot of the last round trip justifies, or with the
    timeout error; [rounds] bounds the round trips. *)
Definition readinessEnds (expectedNormalized : list jsstring) (deadline : Z) (env : Env)
    (w : World) (rounds : nat) (result : Outcome Waits.Exit * World) : Prop :=
  let w' := snd result in
  ((exists exit d,
       fst result = Done exit
       /\ (probes w < probes w')%nat
       /\ observe env (Nat.pred (probes w')) = Shown d
       /\ Completion.uploading (Completion.probe d) = false
       /\ justifies expectedNormalized exit (Completion.probe d))
   \/ (fst result = Thrown "Attachments did not finish uploading before timeout."
       /\ deadline <= clock w'
       /\ exists earlier, events w' = earlier ++ [DomFailure "file-upload-timeout"]))
  /\ (probes w <= probes w' <= probes w + rounds)%nat.

(** How a run of the post-send loop that started in [w] can end. *)
Definition userTurnEnds (expectedNormalized : list jsstring) (deadline : Z) (env : Env)
    (w : World) (rounds : nat) (result : Outcome unit * World) : Prop :=
  let w' := snd result in
  ((exists d,
       fst result = Done tt
       /\ (probes w < probes w')%nat
       /\ observe env (Nat.pred (probes w')) = Shown d
       /\ turnShows expectedNormalized d)
   \/ (fst result = Thrown "Attachment was not present on the sent user message."
       /\ deadline <= clock w'
       /\ exists earlier,
            events w' = earlier ++ [DomFailure "attachment-missing-user-turn"]))
  /\ (probes w <= probes w' <= probes w + rounds)%nat.

(** How a run of the visible loop that started in [w] can end. *)
Definition visibleEnds (expectedName : jsstring) (deadline : Z) (env : Env)
    (w : World) (rounds : nat) (result : Outcome unit * World) : Prop :=
  let w' := snd result in
  ((fst result = Done tt
    /\ (exists d, (probes w < probes w')%nat
                  /\ observe env (Nat.pred (probes w')) = Shown d
                  /\ Visible.probe expectedName d = true)
    /\ exists later, events w' = events w ++ later)
   \/ (fst result = Thrown "Attachment did not appear in ChatGPT composer."
       /\ deadline <= clock w'
       /\ exists later, events w' = events w ++ later ++ [DomFailure "attachment-visible"]))
  /\ (probes w <= probes w' <= probes w + rounds)%nat.

(** What [result?.value] of a round trip wrapped in [catch] is. *)
Definition caughtValue {A} (f : Document -> A) (p : Probe) : option (option A) :=
  match p with
  | Rejected => None
  | NoValue => Some None
  | Shown d => Some (Some (f d))
  end.

(** Whether the snapshot taken right after the files were set shows a file
    input holding the expected name ([inputHasFile] of the source); a
    snapshot that could not be taken counts as no. *)
Definition inputHasFile (expectedName : jsstring) (p : Probe) : bool :=
  match p with
  | Shown d =>
      existsb (fun entry =>
                 existsb (fun name =>
                            includes (toLowerCase name) (toLowerCase expectedName))
                         entry)
              (snd (Upload.snapshotAfterSet d))
  | _ => false
  end.

(** The confirmation stage of the upload (the anchored wait and what
    follows it), as a function of what the snapshot said about the file
    input. *)
Definition confirmUpload (fuel : nat) (expectedName : jsstring) (inputHasFile : bool)
    : M unit :=
  anchored <- Waits.waitForAttachmentAnchored fuel expectedName
                Upload.attachmentUiTimeoutMs ;;
  if anchored then
    Waits.waitForAttachmentVisible fuel expectedName Upload.attachmentUiTimeoutMs true ;;
    log (if inputHasFile
         then lit "Attachment queued (UI anchored, file input confirmed)"
         else lit "Attachment queued (UI anchored)")
  else if inputHasFile then
    log (lit "Attachment queued (file input only; no UI chip yet)")
  else
    logDomFailure "file-upload-missing" ;;
    throw "Attachment did not register with the ChatGPT composer in time.".

(** What one unit of a label becomes in the pattern the anchored wait
    compiles: the ellipsis character a starred wildcard, any other unit
    itself. *)
Definition anchoredAtom (c : N) : Atom * bool :=
  if (c =? ELLIPSIS)%N then (AnyChar, true) else (Lit c, false).

(** A run the wildcard can stand for. *)
Definition sameLine (s : jsstring) : bool :=
  forallb (fun c => negb (isLineTerminator c)) s.

End Views.

Import Views.

(** Pages and environments of an upload in progress. *)
Module Scenes.

(** The composer before the upload: one empty file input, nothing rendered. *)
Definition blankComposer : Document :=
  {| nodes := [];
     fileInputs := [ {| accept := None; files := [] |} ];
     sendButton := Some true; uploadBusy := false; lastUserTurn := None |}.

(** A chip whose label was cut in the middle. *)
Definition truncatedChip : Node :=
  {| isButton := false;
     textContent := lit "quarterly-rep" ++ ELLIPSIS :: lit "xlsx";
     ariaLabel := None; title := None;
     testId := Some (lit "attachment-chip"); alt := None; cardText := None |}.

(** The composer showing the truncated chip, the file held by the input. *)
Definition truncatedPage : Document :=
  {| nodes := [truncatedChip];
     fileInputs := [ {| accept := None; files := [Samples.reportName] |} ];
     sendButton := Some false; uploadBusy := false; lastUserTurn := None |}.

(** On time; the blank composer up to the dispatch of the change events
    (probes 0 to 4), page [d] from the snapshot on. *)
Definition afterAssignment (d : Document) : Env :=
  {| observe := fun n => if (n <? 5)%nat then Shown blankComposer else Shown d;
     lag := fun _ => 0%N |}.

(** On time; the blank composer for [later] more round trips than in
    [afterAssignment] (probes 0 to 4 + later), page [d] from then on. *)
Definition lateChip (later : nat) (d : Document) : Env :=
  {| observe := fun n => if (n <? 5 + later)%nat then Shown blankComposer else Shown d;
     lag := fun _ => 0%N |}.

(** A structural channel whose query resolves nothing. *)
Definition deafChannel : Upload.DomChannel :=
  {| Upload.getDocument := Some 1%N;
     Upload.querySelector := fun _ => Some 0%N;
     Upload.setFileInputFiles := fun _ _ => true |}.

(** Every round trip is rejected. *)
Definition broken : Env :=
  {| observe := fun _ => Rejected; lag := fun _ => 0%N |}.

End Scenes.

(* ================================================================== *)
(** ** Properties of the string primitives *)
(* ================================================================== *)

Section StringFacts.

Lemma in_collapseFrom (b : bool) (s : jsstring) (c : N) :
  In c (collapseFrom b s) -> c = SPACE \/ In c s.
Proof.
  revert b; induction s as [|x t IH]; intros b H; simpl in *.
  - contradiction.
  - destruct (isWhiteSpace x).
    + destruct b.
      * destruct (IH _ H); auto.
      * destruct H as [H|H]; [auto|]. destruct (IH _ H); auto.
    + destruct H as [H|H]; [auto|]. destruct (IH _ H); auto.
Qed.

Lemma dropWhile_suffix (f : N -> bool) (s : jsstring) :
  exists p, s = p ++ dropWhile f s.
Proof.
  induction s as [|x t [p IH]]; simpl.
  - exists []; reflexivity.
  - destruct (f x).
    + exists (x :: p). simpl. f_equal. exact IH.
    + exists []. reflexivity.
Qed.

Lemma trimStart_suffix (s : jsstring) : exists p, s = p ++ trimStart s.
Proof. apply dropWhile_suffix. Qed.

Lemma trimEnd_prefix (s : jsstring) : exists q, s = trimEnd s ++ q.
Proof.
  unfold trimEnd.
  destruct (dropWhile_suffix isWhiteSpace (rev s)) as [p Hp].
  exists (rev p).
  rewrite <- rev_app_distr, <- Hp, rev_involutive. reflexivity.
Qed.

Lemma in_trim (s : jsstring) (c : N) : In c (trim s) -> In c s.
Proof.
  unfold trim. intro H.
  destruct (trimEnd_prefix (trimStart s)) as [q Hq].
  destruct (trimStart_suffix s) as [p Hp].
  rewrite Hp, Hq. apply in_or_app. right. apply in_or_app. left. exact H.
Qed.

Lemma jsstring_pair_ind (P : jsstring -> Prop) :
  P [] ->
  (forall h, P [h]) ->
  (forall h l t, P (l :: t) -> P t -> P (h :: l :: t)) ->
  forall s, P s.
Proof.
  intros Hnil Hone Hstep s.
  assert (H : P s /\ forall h, P (h :: s)).
  { induction s as [|l t [IHt IHc]].
    - split; [exact Hnil|exact Hone].
    - split; [apply IHc|]. intro h. apply Hstep; [apply IHc|exact IHt]. }
  apply H.
Qed.

Lemma StringToCodePoints_step (h l : N) (t : jsstring) :
  StringToCodePoints (h :: l :: t)
  = if isLead h && isTrail l then Pair h l :: StringToCodePoints t
    else Unit h :: StringToCodePoints (l :: t).
Proof. reflexivity. Qed.

(** [CodePointsToString (StringToCodePoints s)] is [s]. *)
Lemma codePoints_roundtrip (s : jsstring) :
  CodePointsToString (StringToCodePoints s) = s.
Proof.
  induction s as [|h|h l t IHc IHt] using jsstring_pair_ind; try reflexivity.
  rewrite StringToCodePoints_step.
  destruct (isLead h && isTrail l).
  - unfold CodePointsToString in *. cbn [flat_map app]. rewrite IHt. reflexivity.
  - unfold CodePointsToString in *. cbn [flat_map app]. rewrite IHc. reflexivity.
Qed.

Lemma CodePointsToString_app (a b : list CodePoint) :
  CodePointsToString (a ++ b) = CodePointsToString a ++ CodePointsToString b.
Proof. unfold CodePointsToString. apply flat_map_app. Qed.

(** *** What the tables say *)

Lemma images_ok : forallb (fun p => imageOk (snd p)) lowerTable = true.
Proof. vm_compute. reflexivity. Qed.

Lemma keys_no_surrogates :
  forallb (fun p => negb (isLead (fst p) || isTrail (fst p))) lowerTable = true.
Proof. vm_compute. reflexivity. Qed.

Lemma simpleLowercase_image (v w : N) :
  simpleLowercase v = Some w -> imageOk w = true.
Proof.
  unfold simpleLowercase. intro H.
  destruct (find (fun p => (fst p =? v)%N) lowerTable) as [p|] eqn:Hf; [|discriminate H].
  injection H as <-. apply find_some in Hf. destruct Hf as [Hin _].
  exact (proj1 (forallb_forall _ _) images_ok p Hin).
Qed.

Lemma surrogate_fixed (u : N) :
  isLead u || isTrail u = true -> fixedValue u = true.
Proof.
  intro H. unfold fixedValue.
  assert (Hi : (u =? CAPITAL_I_DOT)%N = false).
  { apply N.eqb_neq. intro E. subst u. discriminate H. }
  rewrite Hi. cbn [negb andb]. unfold simpleLowercase.
  destruct (find (fun p => (fst p =? u)%N) lowerTable) as [p|] eqn:Hf; [|reflexivity].
  apply find_some in Hf. destruct Hf as [Hin Hk]. apply N.eqb_eq in Hk.
  pose proof (proj1 (forallb_forall _ _) keys_no_surrogates p Hin) as Hs.
  cbv beta in Hs. rewrite Hk, H in Hs. discriminate Hs.
Qed.

Lemma lead_not_trail (u : N) : isLead u = true -> isTrail u = false.
Proof.
  unfold isLead, isTrail, inRange. intro H.
  apply andb_true_iff in H. destruct H as [_ H]. apply N.leb_le in H.
  apply andb_false_iff. left. apply N.leb_gt. lia.
Qed.

Lemma trail_not_lead (u : N) : isTrail u = true -> isLead u = false.
Proof.
  intro H. destruct (isLead u) eqn:E; [|reflexivity].
  apply lead_not_trail in E. congruence.
Qed.

Lemma pair_value_large (h l : N) : (65536 <= value (Pair h l))%N.
Proof. cbn [value]. lia. Qed.

(** *** Settled strings *)

Lemma last_cons (a : jsstring) :
  forall u p : N, last (u :: a) p = last a u.
Proof.
  induction a as [|v a IH]; intros u p; [reflexivity|].
  change (last (u :: v :: a) p) with (last (v :: a) p).
  rewrite (IH v p), (IH v u). reflexivity.
Qed.

Lemma last_default (a : jsstring) (p q : N) : a <> [] -> last a p = last a q.
Proof.
  destruct a as [|u a]; [intro H; contradiction H; reflexivity|].
  intros _. rewrite !last_cons. reflexivity.
Qed.

Lemma settledFrom_app (p : N) (a x : jsstring) :
  settledFrom p (a ++ x) = settledFrom p a && settledFrom (last a p) x.
Proof.
  revert p. induction a as [|u a IH]; intro p; [reflexivity|].
  cbn [app settledFrom]. rewrite IH, last_cons, !andb_assoc. reflexivity.
Qed.

Lemma settledFrom_free (p q : N) (x : jsstring) :
  isLead q && isTrail (hd 0%N x) = false ->
  settledFrom p x = true -> settledFrom q x = true.
Proof.
  destruct x as [|u t]; [reflexivity|]. cbn [hd settledFrom]. intros Hq H.
  rewrite Hq. apply andb_true_iff in H. destruct H as [H Ht].
  apply andb_true_iff in H. destruct H as [Hu _].
  rewrite Hu, Ht. reflexivity.
Qed.

Lemma settledFrom_start (p : N) (x : jsstring) :
  settledFrom p x = true -> settledFrom 0 x = true.
Proof. apply settledFrom_free. reflexivity. Qed.

Lemma settled_anywhere (x : jsstring) :
  settledFrom 0 x = true -> isTrail (hd 0%N x) = false ->
  forall p, settledFrom p x = true.
Proof.
  intros H Hhd p. apply settledFrom_free with (p := 0%N); [|exact H].
  rewrite Hhd. apply andb_false_r.
Qed.

Lemma settled_prefix (p : N) (a x : jsstring) :
  settledFrom p (a ++ x) = true -> settledFrom p a = true.
Proof. rewrite settledFrom_app. intro H. apply andb_true_iff in H. apply H. Qed.

Lemma settled_suffix (p : N) (a x : jsstring) :
  settledFrom p (a ++ x) = true -> settledFrom 0 x = true.
Proof.
  rewrite settledFrom_app. intro H. apply andb_true_iff in H.
  eapply settledFrom_start. apply H.
Qed.

Lemma settled_collapseFrom (x : jsstring) :
  forall (p : N) (b : bool),
    settledFrom p x = true ->
    settledFrom (if b then SPACE else p) (collapseFrom b x) = true.
Proof.
  induction x as [|c t IH]; intros p b H; [reflexivity|].
  cbn [settledFrom] in H. apply andb_true_iff in H. destruct H as [H Ht].
  apply andb_true_iff in H. destruct H as [Hc Hpair].
  cbn [collapseFrom]. destruct (isWhiteSpace c).
  - destruct b.
    + exact (IH c true Ht).
    + cbn [settledFrom]. rewrite (IH c true Ht).
      change (isTrail SPACE) with false. rewrite andb_false_r. reflexivity.
  - cbn [settledFrom]. rewrite Hc, (IH c false Ht). destruct b.
    + reflexivity.
    + rewrite Hpair. reflexivity.
Qed.

(** *** Lower-casing a settled string *)

Lemma fixed_not_sigma (v : N) :
  fixedValue v = true -> (v =? CAPITAL_SIGMA)%N = false.
Proof.
  intro H. destruct (N.eqb_spec v CAPITAL_SIGMA) as [->|]; [|reflexivity].
  vm_compute in H. discriminate H.
Qed.

Lemma lowercaseMapping_fixed (c : CodePoint) :
  fixedValue (value c) = true -> lowercaseMapping c = [c].
Proof.
  unfold fixedValue, lowercaseMapping. intro H.
  apply andb_true_iff in H. destruct H as [Hi Hs].
  apply negb_true_iff in Hi. rewrite Hi.
  destruct (simpleLowercase (value c)); [discriminate Hs|reflexivity].
Qed.

Lemma toLowercase_fixed (cps : list CodePoint) :
  Forall (fun c => fixedValue (value c) = true) cps ->
  forall b, toLowercase b cps = cps.
Proof.
  induction 1 as [|c cps Hc _ IH]; intro b; [reflexivity|].
  cbn [toLowercase]. rewrite (fixed_not_sigma _ Hc), lowercaseMapping_fixed by exact Hc.
  rewrite IH. reflexivity.
Qed.

Lemma settled_codePoints (x : jsstring) :
  forall p, settledFrom p x = true ->
            Forall (fun c => fixedValue (value c) = true) (StringToCodePoints x).
Proof.
  induction x as [|h|h l t IHc IHt] using jsstring_pair_ind; intros p H.
  - constructor.
  - cbn [settledFrom] in H. apply andb_true_iff in H. destruct H as [H _].
    apply andb_true_iff in H. destruct H as [H _].
    constructor; [exact H|constructor].
  - rewrite StringToCodePoints_step.
    cbn [settledFrom] in H. apply andb_true_iff in H. destruct H as [H Ht].
    apply andb_true_iff in H. destruct H as [Hh _].
    destruct (isLead h && isTrail l) eqn:Hpair.
    + apply andb_true_iff in Ht. destruct Ht as [Ht Hrest].
      apply andb_true_iff in Ht. destruct Ht as [_ Hv].
      constructor; [exact Hv|]. exact (IHt l Hrest).
    + constructor; [exact Hh|]. apply (IHc h).
      cbn [settledFrom]. rewrite Hpair. exact Ht.
Qed.

(** A settled string is its own lower case. *)
Lemma toLowerCase_settled_id (x : jsstring) :
  settledFrom 0 x = true -> toLowerCase x = x.
Proof.
  intro H. unfold toLowerCase.
  rewrite toLowercase_fixed by (eapply settled_codePoints; exact H).
  apply codePoints_roundtrip.
Qed.

(** *** The lower case of any string is settled *)

Lemma toLowercase_cons (b : bool) (c : CodePoint) (rest : list CodePoint) :
  toLowercase b (c :: rest)
  = lowered b c rest
    ++ toLowercase (if isCaseIgnorable c then b else isCased c) rest.
Proof. reflexivity. Qed.

(** Either the code point is left alone, or what it turns into is settled
    whatever precedes it, and ends with no lead surrogate. *)
Lemma lowered_cases (b : bool) (c : CodePoint) (rest : list CodePoint) :
  (lowered b c rest = [c] /\ fixedValue (value c) = true)
  \/ (let us := CodePointsToString (lowered b c rest) in
      (forall p, settledFrom p us = true)
      /\ isLead (last us 0%N) = false
      /\ us <> []
      /\ forallb (fun u => negb (u =? SLASH)%N && negb (u =? BACKSLASH)%N) us = true).
Proof.
  unfold lowered.
  destruct (value c =? CAPITAL_SIGMA)%N.
  { right. destruct (b && negb (followedByCased rest)); cbv zeta;
      (split; [apply settled_anywhere; vm_compute; reflexivity|]);
      (split; [reflexivity|]); (split; [discriminate|reflexivity]). }
  unfold lowercaseMapping.
  destruct (value c =? CAPITAL_I_DOT)%N eqn:Hi.
  { right. cbv zeta.
    split; [apply settled_anywhere; vm_compute; reflexivity|].
    split; [reflexivity|]. split; [discriminate|reflexivity]. }
  destruct (simpleLowercase (value c)) as [w|] eqn:Hs.
  - right. cbv zeta. apply simpleLowercase_image in Hs.
    unfold imageOk in Hs. cbv zeta in Hs.
    apply andb_true_iff in Hs. destruct Hs as [Hs Hsep].
    apply andb_true_iff in Hs. destruct Hs as [Hs Hlast].
    apply andb_true_iff in Hs. destruct Hs as [Hset Hhead].
    apply negb_true_iff in Hhead. apply negb_true_iff in Hlast.
    split; [|split; [exact Hlast|split; [|exact Hsep]]].
    + apply settled_anywhere; assumption.
    + unfold ofValue. destruct (w <? 65536)%N; discriminate.
  - left. split; [reflexivity|]. unfold fixedValue. rewrite Hi, Hs. reflexivity.
Qed.

Lemma toLowercase_settled (s : jsstring) :
  forall (p : N) (b : bool),
    isLead p && isTrail (hd 0%N s) = false ->
    settledFrom p (CodePointsToString (toLowercase b (StringToCodePoints s))) = true.
Proof.
  induction s as [|h|h l t IHc IHt] using jsstring_pair_ind; intros p b Hp.
  - reflexivity.
  - cbn [StringToCodePoints]. rewrite toLowercase_cons. cbn [toLowercase].
    rewrite app_nil_r.
    destruct (lowered_cases b (Unit h) []) as [[-> Hfix]|(Hset & _)].
    + cbn [CodePointsToString flat_map app settledFrom]. cbn [hd] in Hp.
      cbn [value] in Hfix. rewrite Hfix, Hp. reflexivity.
    + apply Hset.
  - rewrite StringToCodePoints_step.
    destruct (isLead h && isTrail l) eqn:Hpair.
    + rewrite toLowercase_cons, CodePointsToString_app, settledFrom_app.
      apply andb_true_iff in Hpair. destruct Hpair as [Hh Hl].
      destruct (lowered_cases b (Pair h l) (StringToCodePoints t))
        as [[-> Hfix]|(Hset & Hlast & Hne & _)].
      * cbn [CodePointsToString flat_map app settledFrom last].
        rewrite Hh, Hl, Hfix. cbn [andb].
        rewrite (lead_not_trail _ Hh), andb_false_r.
        rewrite !surrogate_fixed by (rewrite ?Hh, ?Hl, ?orb_true_r; reflexivity).
        cbn [andb]. apply IHt. rewrite (trail_not_lead _ Hl). reflexivity.
      * cbv zeta in Hset, Hlast, Hne. rewrite Hset. cbn [andb].
        apply IHt. rewrite (last_default p 0%N Hne), Hlast. reflexivity.
    + rewrite toLowercase_cons, CodePointsToString_app, settledFrom_app.
      destruct (lowered_cases b (Unit h) (StringToCodePoints (l :: t)))
        as [[-> Hfix]|(Hset & Hlast & Hne & _)].
      * cbn [CodePointsToString flat_map app settledFrom last].
        cbn [hd] in Hp. cbn [value] in Hfix. rewrite Hfix, Hp. cbn [andb].
        apply IHc. cbn [hd]. exact Hpair.
      * cbv zeta in Hset, Hlast, Hne. rewrite Hset. cbn [andb].
        apply IHc. rewrite (last_default p 0%N Hne), Hlast. reflexivity.
Qed.

Lemma toLowerCase_settled (s : jsstring) : settledFrom 0 (toLowerCase s) = true.
Proof. apply toLowercase_settled. reflexivity. Qed.

Lemma toLowerCase_idempotent (s : jsstring) :
  toLowerCase (toLowerCase s) = toLowerCase s.
Proof. apply toLowerCase_settled_id, toLowerCase_settled. Qed.

(** Lower-casing empties no string. *)
Lemma toLowerCase_truthy (s : jsstring) : truthy (toLowerCase s) = truthy s.
Proof.
  assert (Hout : forall b c rest tail,
             truthy (CodePointsToString (lowered b c rest) ++ tail) = true).
  { intros b c rest tail.
    destruct (lowered_cases b c rest) as [[-> _]|(_ & _ & Hne & _)].
    - destruct c; reflexivity.
    - cbv zeta in Hne.
      destruct (CodePointsToString (lowered b c rest)); [contradiction Hne|]; reflexivity. }
  unfold toLowerCase. destruct s as [|h [|l t]]; [reflexivity| |].
  - cbn [StringToCodePoints]. rewrite toLowercase_cons, CodePointsToString_app. apply Hout.
  - rewrite StringToCodePoints_step.
    destruct (isLead h && isTrail l);
      rewrite toLowercase_cons, CodePointsToString_app; apply Hout.
Qed.


Lemma lower_fixes_normalized (s : jsstring) :
  toLowerCase (normalizeName s) = normalizeName s.
Proof.
  apply toLowerCase_settled_id. unfold normalizeName, trim.
  destruct (trimEnd_prefix (trimStart (collapseWhiteSpace (toLowerCase s)))) as [q Hq].
  destruct (trimStart_suffix (collapseWhiteSpace (toLowerCase s))) as [p Hp].
  apply settled_prefix with (x := q). rewrite <- Hq.
  apply settled_suffix with (p := 0%N) (a := p). rewrite <- Hp.
  exact (@settled_collapseFrom (toLowerCase s) 0%N false (toLowerCase_settled s)).
Qed.

Lemma wellSpaced_collapseFrom (b : bool) (s : jsstring) :
  wellSpaced b (collapseFrom b s) = true.
Proof.
  revert b; induction s as [|x t IH]; intro b; simpl.
  - reflexivity.
  - destruct (isWhiteSpace x) eqn:Hx.
    + destruct b.
      * apply IH.
      * simpl. rewrite (IH true). reflexivity.
    + simpl. rewrite Hx. apply IH.
Qed.

Lemma wellSpaced_weaken (l : jsstring) :
  wellSpaced true l = true -> wellSpaced false l = true.
Proof.
  destruct l as [|c t]; simpl; [reflexivity|].
  destruct (isWhiteSpace c); [discriminate|auto].
Qed.

Lemma wellSpaced_any (b : bool) (l : jsstring) :
  wellSpaced b l = true -> wellSpaced false l = true.
Proof. destruct b; [apply wellSpaced_weaken|auto]. Qed.

Lemma wellSpaced_suffix (p l : jsstring) (b : bool) :
  wellSpaced b (p ++ l) = true -> wellSpaced false l = true.
Proof.
  revert b; induction p as [|c p IH]; intros b H; simpl in *.
  - eapply wellSpaced_any; eauto.
  - destruct (isWhiteSpace c).
    + apply andb_true_iff in H. destruct H as [_ H]. eapply IH; eauto.
    + eapply IH; eauto.
Qed.

Lemma wellSpaced_prefix (l q : jsstring) (b : bool) :
  wellSpaced b (l ++ q) = true -> wellSpaced b l = true.
Proof.
  revert b; induction l as [|c l IH]; intros b H; simpl in *.
  - reflexivity.
  - destruct (isWhiteSpace c).
    + apply andb_true_iff in H. destruct H as [H1 H2].
      rewrite H1. simpl. eapply IH; eauto.
    + eapply IH; eauto.
Qed.

Lemma collapseFrom_wellSpaced (b : bool) (l : jsstring) :
  wellSpaced b l = true -> collapseFrom b l = l.
Proof.
  revert b; induction l as [|c l IH]; intros b H; simpl in *.
  - reflexivity.
  - destruct (isWhiteSpace c).
    + apply andb_true_iff in H. destruct H as [H1 H2].
      apply andb_true_iff in H1. destruct H1 as [Hb Hc].
      destruct b; [discriminate|].
      apply N.eqb_eq in Hc. subst c. f_equal. apply IH. exact H2.
    + f_equal. apply IH. exact H.
Qed.

Lemma wellSpaced_trim (l : jsstring) :
  wellSpaced false l = true -> wellSpaced false (trim l) = true.
Proof.
  intro H. unfold trim.
  destruct (trimStart_suffix l) as [p Hp].
  destruct (trimEnd_prefix (trimStart l)) as [q Hq].
  rewrite Hp in H. apply wellSpaced_suffix in H.
  rewrite Hq in H. apply wellSpaced_prefix in H. exact H.
Qed.

Lemma cleanHead_dropWhile (s : jsstring) : cleanHead (dropWhile isWhiteSpace s).
Proof.
  induction s as [|c t IH]; simpl; [exact I|].
  destruct (isWhiteSpace c) eqn:Hc; [exact IH|exact Hc].
Qed.

Lemma dropWhile_cleanHead (l : jsstring) :
  cleanHead l -> dropWhile isWhiteSpace l = l.
Proof.
  destruct l as [|c t]; simpl; [reflexivity|]. intros ->. reflexivity.
Qed.

Lemma cleanHead_prefix (l q : jsstring) : cleanHead (l ++ q) -> cleanHead l.
Proof. destruct l; simpl; auto. Qed.

Lemma trimEnd_idempotent (l : jsstring) : trimEnd (trimEnd l) = trimEnd l.
Proof.
  unfold trimEnd. rewrite rev_involutive.
  rewrite dropWhile_cleanHead by apply cleanHead_dropWhile. reflexivity.
Qed.

Lemma trim_idempotent (l : jsstring) : trim (trim l) = trim l.
Proof.
  unfold trim at 1.
  assert (H : trimStart (trim l) = trim l).
  { unfold trimStart. apply dropWhile_cleanHead.
    unfold trim. destruct (trimEnd_prefix (trimStart l)) as [q Hq].
    apply cleanHead_prefix with (q := q). rewrite <- Hq.
    apply cleanHead_dropWhile. }
  rewrite H. unfold trim. apply trimEnd_idempotent.
Qed.

Lemma normalizeName_fixpoint (s : jsstring) :
  normalizeName (normalizeName s) = normalizeName s.
Proof.
  unfold normalizeName at 1.
  rewrite lower_fixes_normalized.
  assert (H : collapseWhiteSpace (normalizeName s) = normalizeName s).
  { apply collapseFrom_wellSpaced. unfold normalizeName.
    apply wellSpaced_trim. apply wellSpaced_collapseFrom. }
  rewrite H. unfold normalizeName. apply trim_idempotent.
Qed.

End StringFacts.

(** C8: the name normalisation of the waits (lower-case, collapse every
    run of white space to one space, trim) is idempotent. *)
Theorem C8_normalize_idempotent :
  forall s : jsstring, normalizeName (normalizeName s) = normalizeName s.
Proof. exact normalizeName_fixpoint. Qed.

(* ================================================================== *)
(** ** The matchers *)
(* ================================================================== *)

Section MatcherFacts.

Lemma isExtensionTail_with_dot (s ext : jsstring) :
  isExtensionTail (s ++ DOT :: ext) = false.
Proof.
  unfold isExtensionTail. rewrite forallb_app. simpl.
  rewrite andb_false_r. apply andb_false_r.
Qed.

Lemma stripExtension_strips (s ext : jsstring) :
  (1 <= List.length ext <= 10)%nat ->
  forallb isAlnum ext = true ->
  stripExtension (s ++ DOT :: ext) = s.
Proof.
  intros [Hlo Hhi] Hal. induction s as [|c s IH]; simpl.
  - unfold isExtensionTail. rewrite Hal.
    apply Nat.leb_le in Hlo. apply Nat.leb_le in Hhi.
    rewrite Hlo, Hhi. reflexivity.
  - rewrite isExtensionTail_with_dot, andb_false_r, IH. reflexivity.
Qed.

(** Nothing is stripped from a name that does not end in a dot and an
    extension tail. *)
Lemma stripExtension_keeps (s : jsstring) :
  (forall p ext, s = p ++ DOT :: ext -> isExtensionTail ext = false) ->
  stripExtension s = s.
Proof.
  induction s as [|c s IH]; intro H; [reflexivity|].
  cbn [stripExtension].
  destruct ((c =? DOT)%N && isExtensionTail s) eqn:E.
  - apply andb_true_iff in E. destruct E as [Hc Ht]. apply N.eqb_eq in Hc. subst c.
    rewrite (H [] s eq_refl) in Ht. discriminate Ht.
  - rewrite IH; [reflexivity|].
    intros p ext Hs. apply (H (c :: p) ext). rewrite Hs. reflexivity.
Qed.

Lemma includes_nil_l (needle : jsstring) :
  includes [] needle = true -> needle = [].
Proof. destruct needle; simpl; [reflexivity|discriminate]. Qed.

Lemma normalizeAll_single (candidate : jsstring) :
  Completion.normalizeAll [candidate]
  = if truthy (normalizeName candidate) then [normalizeName candidate] else [].
Proof. reflexivity. Qed.

Lemma completion_unfold (candidate expected : jsstring) :
  Matchers.completion candidate expected
  = truthy (normalizeName candidate)
    && Completion.candidateMatches
         (normalizeName (baseName (toLowerCase expected)))
         (stripExtension (normalizeName (baseName (toLowerCase expected))))
         (normalizeName candidate).
Proof.
  unfold Matchers.completion, Completion.matchesExpected.
  rewrite normalizeAll_single.
  destruct (truthy (normalizeName candidate)); simpl; [apply orb_false_r|reflexivity].
Qed.

Lemma candidateMatches_plain (name stem raw : jsstring) :
  hasEllipsisMarker raw = false ->
  Completion.candidateMatches name stem raw
  = includes raw name || ((6 <=? List.length stem)%nat && includes raw stem).
Proof.
  unfold hasEllipsisMarker, Completion.candidateMatches. intros ->.
  destruct (includes raw name); [reflexivity|].
  destruct ((6 <=? List.length stem)%nat && includes raw stem); reflexivity.
Qed.

Lemma anchored_plain (normalized stem value : jsstring) :
  hasEllipsisMarker (toLowerCase value) = false ->
  Anchored.matchesExpected normalized stem value
  = truthy (toLowerCase value)
    && (includes (toLowerCase value) normalized
        || ((6 <=? List.length stem)%nat && includes (toLowerCase value) stem)).
Proof.
  unfold hasEllipsisMarker, Anchored.matchesExpected. intros ->.
  destruct (truthy (toLowerCase value)); [|reflexivity]. cbn [negb andb].
  destruct (includes (toLowerCase value) normalized); [reflexivity|]. cbn [orb].
  destruct ((6 <=? List.length stem)%nat && includes (toLowerCase value) stem); reflexivity.
Qed.

Lemma normalized_is_lower (s : jsstring) :
  normalizeName s = s -> toLowerCase s = s.
Proof. intro H. rewrite <- H. apply lower_fixes_normalized. Qed.

End MatcherFacts.

(* ================================================================== *)
(** ** The patterns the two truncation rules build *)
(* ================================================================== *)

Section PatternFacts.

Lemma syntax_is_escaped (c : N) : isSyntaxChar c = isEscaped c.
Proof.
  apply eq_true_iff_eq. unfold isSyntaxChar, isEscaped.
  rewrite !existsb_exists. split; intros [x [Hin Hx]]; exists x; split; try exact Hx;
    vm_compute in Hin; vm_compute; intuition.
Qed.

Lemma escaped_cases (c : N) :
  isEscaped c = false ->
  (c =? BACKSLASH)%N = false /\ (c =? DOT)%N = false /\ (c =? STAR)%N = false.
Proof.
  intro H. repeat split; destruct (N.eqb_spec c BACKSLASH), (N.eqb_spec c DOT), (N.eqb_spec c STAR);
    subst; try reflexivity; try discriminate H.
Qed.

Lemma quantify_atom (a : Atom) (ts : list Token) (re : Regex) :
  quantify ts = Some re -> hd_error ts <> Some TStar ->
  quantify (TAtom a :: ts) = Some ((a, false) :: re).
Proof.
  intros Hq Hhd. destruct ts as [|[b|] ts'].
  - simpl in *. injection Hq as <-. reflexivity.
  - cbn [quantify]. cbn [quantify] in Hq. rewrite Hq. reflexivity.
  - simpl in Hhd. contradiction Hhd; reflexivity.
Qed.

Lemma parses_nil : parses [].
Proof. exists [], []. repeat split. discriminate. Qed.

Lemma parses_plain (c : N) (s : jsstring) :
  isEscaped c = false -> parses s -> parses (c :: s).
Proof.
  intros Hc (ts & re & Ht & Hq & Hhd).
  destruct (escaped_cases c Hc) as (Hb & Hd & Hs).
  exists (TAtom (Lit c) :: ts), ((Lit c, false) :: re). split; [|split].
  - cbn [tokenize]. rewrite Hb, Hd, Hs, syntax_is_escaped, Hc, Ht. reflexivity.
  - apply quantify_atom; assumption.
  - discriminate.
Qed.

Lemma parses_escape (c : N) (s : jsstring) :
  isEscaped c = true -> parses s -> parses (BACKSLASH :: c :: s).
Proof.
  intros Hc (ts & re & Ht & Hq & Hhd).
  exists (TAtom (Lit c) :: ts), ((Lit c, false) :: re). split; [|split].
  - cbn [tokenize]. rewrite N.eqb_refl. rewrite syntax_is_escaped, Hc, Ht. reflexivity.
  - apply quantify_atom; assumption.
  - discriminate.
Qed.

Lemma parses_wildcard (s : jsstring) : parses s -> parses (DOT :: STAR :: s).
Proof.
  intros (ts & re & Ht & Hq & Hhd).
  exists (TAtom AnyChar :: TStar :: ts), ((AnyChar, true) :: re). split; [|split].
  - cbn [tokenize]. change ((DOT =? BACKSLASH)%N) with false.
    change ((DOT =? DOT)%N) with true. change ((STAR =? BACKSLASH)%N) with false.
    change ((STAR =? DOT)%N) with false. change ((STAR =? STAR)%N) with true.
    cbv iota. rewrite Ht. reflexivity.
  - cbn [quantify]. rewrite Hq. reflexivity.
  - discriminate.
Qed.

Lemma parses_dots (s : jsstring) : parses s -> parses (BACKSLASH :: DOT :: STAR :: s).
Proof.
  intros (ts & re & Ht & Hq & Hhd).
  exists (TAtom (Lit DOT) :: TStar :: ts), ((Lit DOT, true) :: re). split; [|split].
  - cbn [tokenize]. change ((BACKSLASH =? BACKSLASH)%N) with true.
    change (isSyntaxChar DOT) with true. change ((STAR =? BACKSLASH)%N) with false.
    change ((STAR =? DOT)%N) with false. change ((STAR =? STAR)%N) with true.
    cbv iota. rewrite Ht. reflexivity.
  - cbn [quantify]. rewrite Hq. reflexivity.
  - discriminate.
Qed.

End PatternFacts.

Section CompletionPattern.

Lemma rewrite_other (a : N) (t : jsstring) :
  (a =? BACKSLASH)%N = false ->
  replaceEscapedEllipsis (a :: t) = a :: replaceEscapedEllipsis t.
Proof.
  intro H. destruct t as [|b [|c [|d [|e [|f t6]]]]];
    cbn [replaceEscapedEllipsis]; rewrite ?H; reflexivity.
Qed.

Lemma rewrite_backslash_other (b : N) (t : jsstring) :
  (b =? ELLIPSIS)%N = false -> (b =? DOT)%N = false ->
  replaceEscapedEllipsis (BACKSLASH :: b :: t)
  = BACKSLASH :: replaceEscapedEllipsis (b :: t).
Proof.
  intros He Hd. destruct t as [|c [|d [|e [|f t6]]]];
    cbn [replaceEscapedEllipsis]; rewrite ?He, ?Hd, ?andb_false_r; reflexivity.
Qed.

Lemma rewrite_backslash_ellipsis (t : jsstring) :
  replaceEscapedEllipsis (BACKSLASH :: ELLIPSIS :: t)
  = DOT :: STAR :: replaceEscapedEllipsis t.
Proof. reflexivity. Qed.

Lemma startsWith_nil (s : jsstring) : startsWith s [] = true.
Proof. destruct s; reflexivity. Qed.

Lemma rewrite_step (a : N) (t : jsstring) :
  replaceEscapedEllipsis (a :: t)
  = match t with
    | b :: t2 =>
        if (a =? BACKSLASH)%N && (b =? ELLIPSIS)%N
        then DOTSTAR ++ replaceEscapedEllipsis t2
        else
          match t2 with
          | c :: d :: e :: f :: t6 =>
              if (a =? BACKSLASH)%N && (b =? DOT)%N && (c =? BACKSLASH)%N
                 && (d =? DOT)%N && (e =? BACKSLASH)%N && (f =? DOT)%N
              then DOTSTAR ++ replaceEscapedEllipsis t6
              else a :: replaceEscapedEllipsis t
          | _ => a :: replaceEscapedEllipsis t
          end
    | [] => [a]
    end.
Proof. destruct t; reflexivity. Qed.

Lemma rewrite_escaped_dot (t : jsstring) :
  replaceEscapedEllipsis (BACKSLASH :: DOT :: t)
  = if startsWith t [BACKSLASH; DOT; BACKSLASH; DOT]
    then DOT :: STAR :: replaceEscapedEllipsis (skipn 4 t)
    else BACKSLASH :: DOT :: replaceEscapedEllipsis t.
Proof.
  rewrite rewrite_step.
  change ((BACKSLASH =? BACKSLASH)%N && (DOT =? ELLIPSIS)%N) with false.
  change ((BACKSLASH =? BACKSLASH)%N && (DOT =? DOT)%N) with true.
  cbv match.
  assert (Hdot : forall u, replaceEscapedEllipsis (DOT :: u) = DOT :: replaceEscapedEllipsis u)
    by (intro u; apply rewrite_other; reflexivity).
  destruct t as [|c [|d [|e [|f t6]]]]; cbv beta match; rewrite Hdot;
    cbn [startsWith skipn]; rewrite ?andb_false_r; try reflexivity.
  rewrite startsWith_nil, andb_true_r.
  rewrite (N.eqb_sym BACKSLASH c), (N.eqb_sym DOT d), (N.eqb_sym BACKSLASH e),
    (N.eqb_sym DOT f).
  cbn [andb].
  destruct ((c =? BACKSLASH)%N); cbn [andb]; [|reflexivity].
  destruct ((d =? DOT)%N); cbn [andb]; [|reflexivity].
  destruct ((e =? BACKSLASH)%N); cbn [andb]; [|reflexivity].
  destruct ((f =? DOT)%N); reflexivity.
Qed.

Lemma escape_cons (c : N) (s : jsstring) :
  escapeRegExp (c :: s)
  = if isEscaped c then BACKSLASH :: c :: escapeRegExp s else c :: escapeRegExp s.
Proof. unfold escapeRegExp. simpl flat_map. destruct (isEscaped c); reflexivity. Qed.

Lemma escape_head (b : N) (s t : jsstring) :
  escapeRegExp s = b :: t -> (b =? DOT)%N = false.
Proof.
  destruct s as [|c s]; [discriminate|]. rewrite escape_cons.
  destruct (isEscaped c) eqn:Hc; intro H; injection H as <- _.
  - reflexivity.
  - apply escaped_cases. exact Hc.
Qed.

Lemma escape_head_ellipsis (b : N) (s t : jsstring) :
  escapeRegExp s = b :: t -> (b =? ELLIPSIS)%N = true ->
  exists s', s = ELLIPSIS :: s' /\ t = escapeRegExp s'.
Proof.
  destruct s as [|c s]; [discriminate|]. rewrite escape_cons.
  destruct (isEscaped c) eqn:Hc; intros H Hb; injection H as <- <-.
  - discriminate Hb.
  - apply N.eqb_eq in Hb. subst c. exists s. split; reflexivity.
Qed.

Lemma escape_two_dots (s : jsstring) :
  startsWith (escapeRegExp s) [BACKSLASH; DOT; BACKSLASH; DOT] = true ->
  exists s', s = DOT :: DOT :: s' /\ skipn 4 (escapeRegExp s) = escapeRegExp s'.
Proof.
  destruct s as [|c [|d s']].
  - discriminate.
  - rewrite escape_cons. destruct (isEscaped c); cbn [escapeRegExp flat_map startsWith];
      rewrite ?andb_false_r; discriminate.
  - rewrite !escape_cons.
    destruct (isEscaped c) eqn:Hc.
    + destruct (isEscaped d) eqn:Hd.
      * cbn [startsWith]. intro H.
        apply andb_true_iff in H. destruct H as [_ H].
        apply andb_true_iff in H. destruct H as [H1 H].
        apply andb_true_iff in H. destruct H as [_ H].
        apply andb_true_iff in H. destruct H as [H2 _].
        apply N.eqb_eq in H1, H2. subst c d. exists s'. split; reflexivity.
      * cbn [startsWith]. intro H.
        apply andb_true_iff in H. destruct H as [_ H].
        apply andb_true_iff in H. destruct H as [_ H].
        apply andb_true_iff in H. destruct H as [H _].
        apply N.eqb_eq in H. subst d. discriminate Hd.
    + cbn [startsWith]. intro H.
      apply andb_true_iff in H. destruct H as [H _].
      apply N.eqb_eq in H. subst c. discriminate Hc.
Qed.

Lemma completion_pattern_parses_upto (n : nat) :
  forall raw : jsstring, (List.length raw <= n)%nat -> parses (Completion.ellipsisPattern raw).
Proof.
  unfold Completion.ellipsisPattern.
  induction n as [|n IH]; intros raw Hlen.
  - destruct raw; [apply parses_nil|simpl in Hlen; lia].
  - destruct raw as [|c raw]; [apply parses_nil|].
    simpl in Hlen. rewrite escape_cons.
    destruct (isEscaped c) eqn:Hc.
    2:{ rewrite rewrite_other by (apply escaped_cases; exact Hc).
        apply parses_plain; [exact Hc|]. apply IH. lia. }
    destruct (N.eqb_spec c DOT) as [->|Hdot].
    { rewrite rewrite_escaped_dot.
      destruct (startsWith (escapeRegExp raw) [BACKSLASH; DOT; BACKSLASH; DOT]) eqn:Hs.
      - destruct (escape_two_dots raw Hs) as (raw' & -> & ->).
        apply parses_wildcard. apply IH. simpl in Hlen. lia.
      - apply parses_escape; [reflexivity|]. apply IH. lia. }
    destruct (N.eqb_spec c BACKSLASH) as [->|Hbs].
    { destruct (escapeRegExp raw) as [|b t] eqn:He.
      - destruct raw as [|c' raw']; [|rewrite escape_cons in He; destruct (isEscaped c'); discriminate He].
        apply parses_escape; [reflexivity|apply parses_nil].
      - destruct ((b =? ELLIPSIS)%N) eqn:Hb.
        + destruct (@escape_head_ellipsis b raw t He Hb) as (raw' & -> & ->).
          apply N.eqb_eq in Hb. subst b.
          rewrite rewrite_backslash_other by reflexivity.
          rewrite rewrite_backslash_ellipsis.
          apply parses_dots. apply IH. simpl in Hlen. lia.
        + rewrite rewrite_backslash_other by reflexivity.
          rewrite rewrite_backslash_other by (try exact Hb; eapply escape_head; exact He).
          rewrite <- He.
          apply parses_escape; [reflexivity|]. apply IH. lia. }
    rewrite rewrite_backslash_other.
    + rewrite rewrite_other by (apply N.eqb_neq; exact Hbs).
      apply parses_escape; [exact Hc|]. apply IH. lia.
    + destruct (N.eqb_spec c ELLIPSIS) as [->|]; [discriminate Hc|reflexivity].
    + apply N.eqb_neq. exact Hdot.
Qed.

Lemma completion_pattern_compiles (raw : jsstring) :
  RegExp_new (Completion.ellipsisPattern raw) <> None.
Proof.
  destruct (@completion_pattern_parses_upto (List.length raw) raw (le_n _))
    as (ts & re & Ht & Hq & _).
  unfold RegExp_new. rewrite Ht, Hq. discriminate.
Qed.

End CompletionPattern.

Section AnchoredPattern.

Lemma replaceAll_unit (x : N) (rep s : jsstring) :
  replaceAll [x] rep s = flat_map (fun c => if (x =? c)%N then rep else [c]) s.
Proof.
  unfold replaceAll. induction s as [|c s IH]; [reflexivity|].
  cbn [replaceAllFrom startsWith flat_map List.length Nat.pred].
  rewrite startsWith_nil, andb_true_r, IH.
  destruct ((x =? c)%N); reflexivity.
Qed.

Lemma anchored_first_pass (text : jsstring) :
  replaceAll [ELLIPSIS] DOTSTAR (escapeRegExp text) = flat_map anchoredUnit text.
Proof.
  rewrite replaceAll_unit. unfold escapeRegExp.
  induction text as [|c text IH]; [reflexivity|].
  cbn [flat_map]. rewrite flat_map_app, IH. f_equal.
  unfold anchoredUnit. rewrite (N.eqb_sym c ELLIPSIS).
  destruct (N.eqb_spec ELLIPSIS c) as [<-|Hc]; [reflexivity|].
  destruct (isEscaped c) eqn:He; cbn [flat_map app].
  - change ((ELLIPSIS =? BACKSLASH)%N) with false. cbv match.
    apply N.eqb_neq in Hc. rewrite Hc. reflexivity.
  - apply N.eqb_neq in Hc. rewrite Hc. reflexivity.
Qed.

Lemma anchoredUnit_cases (c : N) (rest : jsstring) :
  (anchoredUnit c ++ rest = DOT :: STAR :: rest)
  \/ (isEscaped c = true /\ anchoredUnit c ++ rest = BACKSLASH :: c :: rest)
  \/ (isEscaped c = false /\ anchoredUnit c ++ rest = c :: rest).
Proof.
  unfold anchoredUnit. destruct ((c =? ELLIPSIS)%N); [left; reflexivity|].
  destruct (isEscaped c); [right; left|right; right]; split; reflexivity.
Qed.

Lemma no_double_dot (text : jsstring) :
  startsWith (flat_map anchoredUnit text) [DOT; DOT] = false.
Proof.
  destruct text as [|c text]; [reflexivity|]. cbn [flat_map].
  destruct (anchoredUnit_cases c (flat_map anchoredUnit text)) as [->|[[Hc ->]|[Hc ->]]].
  - reflexivity.
  - reflexivity.
  - cbn [startsWith]. destruct (escaped_cases c Hc) as (_ & Hd & _).
    rewrite (N.eqb_sym DOT c), Hd. reflexivity.
Qed.

Lemma noTripleDots_anchored (text : jsstring) :
  noTripleDots (flat_map anchoredUnit text) = true.
Proof.
  induction text as [|c text IH]; [reflexivity|]. cbn [flat_map].
  destruct (anchoredUnit_cases c (flat_map anchoredUnit text)) as [->|[[Hc ->]|[Hc ->]]].
  - cbn [noTripleDots]. rewrite IH. reflexivity.
  - cbn [noTripleDots]. rewrite IH, andb_true_r.
    change (startsWith (BACKSLASH :: c :: flat_map anchoredUnit text) THREE_DOTS) with false.
    cbn [negb andb]. unfold THREE_DOTS. cbn [startsWith].
    rewrite no_double_dot, andb_false_r. reflexivity.
  - cbn [noTripleDots]. rewrite IH, andb_true_r.
    unfold THREE_DOTS. cbn [startsWith].
    destruct (escaped_cases c Hc) as (_ & Hd & _).
    rewrite (N.eqb_sym DOT c), Hd. reflexivity.
Qed.

Lemma replaceAll_without_dots (s : jsstring) :
  noTripleDots s = true -> replaceAll THREE_DOTS DOTSTAR s = s.
Proof.
  unfold replaceAll. induction s as [|c s IH]; [reflexivity|].
  intro H. cbn [noTripleDots] in H. apply andb_true_iff in H. destruct H as [H1 H2].
  apply negb_true_iff in H1.
  cbn [replaceAllFrom]. rewrite H1, IH by exact H2. reflexivity.
Qed.

Lemma anchored_pattern_parses (text : jsstring) :
  parses (flat_map anchoredUnit text).
Proof.
  induction text as [|c text IH]; [apply parses_nil|]. cbn [flat_map].
  destruct (anchoredUnit_cases c (flat_map anchoredUnit text)) as [->|[[Hc ->]|[Hc ->]]].
  - apply parses_wildcard. exact IH.
  - apply parses_escape; assumption.
  - apply parses_plain; assumption.
Qed.

Lemma anchored_pattern_compiles (text : jsstring) :
  RegExp_new (Anchored.ellipsisPattern text) <> None.
Proof.
  unfold Anchored.ellipsisPattern.
  rewrite anchored_first_pass, replaceAll_without_dots by apply noTripleDots_anchored.
  destruct (anchored_pattern_parses text) as (ts & re & Ht & Hq & _).
  unfold RegExp_new. rewrite Ht, Hq. discriminate.
Qed.

(** The second replace of the anchored wait never changes anything. *)
Lemma anchored_second_pass_idle (text : jsstring) :
  Anchored.ellipsisPattern text = replaceAll [ELLIPSIS] DOTSTAR (escapeRegExp text).
Proof.
  unfold Anchored.ellipsisPattern.
  rewrite anchored_first_pass. apply replaceAll_without_dots, noTripleDots_anchored.
Qed.

End AnchoredPattern.

Section PlainLabels.

(** A label without any escaped character is its own pattern in the
    readiness wait: an ellipsis character in it stays a literal. *)
Lemma completion_pattern_of_plain_label (raw : jsstring) :
  forallb (fun c => negb (isEscaped c)) raw = true ->
  Completion.ellipsisPattern raw = raw.
Proof.
  unfold Completion.ellipsisPattern.
  induction raw as [|c raw IH]; [reflexivity|].
  cbn [forallb]. intro H. apply andb_true_iff in H. destruct H as [Hc Hrest].
  apply negb_true_iff in Hc.
  rewrite escape_cons, Hc.
  rewrite rewrite_other by (apply escaped_cases; exact Hc).
  rewrite IH by exact Hrest. reflexivity.
Qed.

End PlainLabels.

(** C6: the extension-stripped rule of the readiness wait and of the
    anchored wait.
    - The stem: a trailing dot with one to ten alphanumerics is removed from
      the expected name, and a name that does not end that way is left as it
      is.
    - On a candidate without ellipsis marker either matcher answers exactly
      by the two substring rules: a non-empty candidate matches when it
      holds the whole name, or when the stem has at least six units and the
      candidate holds the stem; in no other case.
    - Whatever the candidate, a stem of at least six units that occurs in it
      is a match.
    - In full: a non-empty candidate matches by one of the two substring
      rules or else, when it carries an ellipsis marker, by the pattern
      compiled from it, tested on the name and, only with a stem of at least
      six units, on the stem.  A shorter stem is never consulted.
    So "report" matches "report.csv" and "img" does not match "img.png". *)
Theorem C6_extension_stripped_rule :
  (forall s ext : jsstring,
      (1 <= List.length ext <= 10)%nat ->
      forallb isAlnum ext = true ->
      stripExtension (s ++ DOT :: ext) = s)
  /\ (forall s : jsstring,
        (forall p ext : jsstring,
            s = p ++ DOT :: ext ->
            (1 <= List.length ext <= 10)%nat ->
            forallb isAlnum ext = true ->
            False) ->
        stripExtension s = s)
  /\ (forall candidate expected : jsstring,
        let raw := normalizeName candidate in
        let name := normalizeName (baseName (toLowerCase expected)) in
        let stem := stripExtension name in
        (hasEllipsisMarker raw = false ->
         Matchers.completion candidate expected
         = truthy raw
           && (includes raw name
               || ((6 <=? List.length stem)%nat && includes raw stem)))
        /\ ((6 <= List.length stem)%nat ->
            includes raw stem = true ->
            Matchers.completion candidate expected = true)
        /\ ((List.length stem < 6)%nat ->
            hasEllipsisMarker raw = false ->
            Matchers.completion candidate expected = truthy raw && includes raw name)
        /\ Matchers.completion candidate expected
           = truthy raw
             && (includes raw name
                 || ((6 <=? List.length stem)%nat && includes raw stem)
                 || (hasEllipsisMarker raw
                     && match RegExp_new (Completion.ellipsisPattern raw) with
                        | Some re =>
                            RegExp_test re name
                            || ((6 <=? List.length stem)%nat && RegExp_test re stem)
                        | None => false
                        end)))
  /\ (forall candidate expected : jsstring,
        let text := toLowerCase candidate in
        let name := toLowerCase expected in
        let stem := stripExtension name in
        (hasEllipsisMarker text = false ->
         Matchers.anchored candidate expected
         = truthy text
           && (includes text name
               || ((6 <=? List.length stem)%nat && includes text stem)))
        /\ ((6 <= List.length stem)%nat ->
            includes text stem = true ->
            Matchers.anchored candidate expected = true)
        /\ ((List.length stem < 6)%nat ->
            hasEllipsisMarker text = false ->
            Matchers.anchored candidate expected = truthy text && includes text name)
        /\ Matchers.anchored candidate expected
           = truthy text
             && (includes text name
                 || ((6 <=? List.length stem)%nat && includes text stem)
                 || (hasEllipsisMarker text
                     && match RegExp_new (Anchored.ellipsisPattern text) with
                        | Some re =>
                            RegExp_test re name
                            || ((6 <=? List.length stem)%nat && RegExp_test re stem)
                        | None => false
                        end)))
  /\ Matchers.completion (lit "report") (lit "report.csv") = true
  /\ Matchers.anchored (lit "report") (lit "report.csv") = true
  /\ Matchers.completion (lit "img") (lit "img.png") = false
  /\ Matchers.anchored (lit "img") (lit "img.png") = false.
Proof.
  split; [exact stripExtension_strips|].
  split.
  { intros s H. apply stripExtension_keeps. intros p ext Hs.
    destruct (isExtensionTail ext) eqn:E; [|reflexivity].
    unfold isExtensionTail in E.
    apply andb_true_iff in E. destruct E as [E Hal].
    apply andb_true_iff in E. destruct E as [Hlo Hhi].
    apply Nat.leb_le in Hlo. apply Nat.leb_le in Hhi.
    contradiction (H p ext Hs (conj Hlo Hhi) Hal). }
  split.
  { intros candidate expected raw name stem. split; [|split; [|split]].
    4:{ rewrite completion_unfold. fold raw name stem.
        unfold Completion.candidateMatches, hasEllipsisMarker.
        destruct (truthy raw); [|reflexivity]. cbn [andb].
        destruct (includes raw name); [reflexivity|]. cbn [orb].
        destruct ((6 <=? List.length stem)%nat && includes raw stem); [reflexivity|].
        cbn [orb].
        destruct (includes raw [ELLIPSIS] || includes raw THREE_DOTS); reflexivity. }
    - intro Hell. rewrite completion_unfold. fold raw name stem.
      rewrite candidateMatches_plain by exact Hell. reflexivity.
    - intros Hlen Hinc. rewrite completion_unfold. fold raw name stem.
      assert (Ht : truthy raw = true).
      { destruct raw as [|x r]; [|reflexivity].
        apply includes_nil_l in Hinc. rewrite Hinc in Hlen. simpl in Hlen. lia. }
      rewrite Ht. cbn [andb]. unfold Completion.candidateMatches.
      apply Nat.leb_le in Hlen. rewrite Hlen, Hinc. cbn [andb].
      destruct (includes raw name); reflexivity.
    - intros Hlen Hell. rewrite completion_unfold. fold raw name stem.
      rewrite candidateMatches_plain by exact Hell.
      apply Nat.leb_gt in Hlen. rewrite Hlen. cbn [andb].
      rewrite orb_false_r. reflexivity. }
  split.
  { intros candidate expected text name stem. split; [|split; [|split]].
    4:{ unfold Matchers.anchored, Anchored.matchesExpected, hasEllipsisMarker.
        fold text name stem.
        destruct (truthy text); [|reflexivity]. cbn [negb andb].
        destruct (includes text name); [reflexivity|]. cbn [orb].
        destruct ((6 <=? List.length stem)%nat && includes text stem); [reflexivity|].
        cbn [orb].
        destruct (includes text [ELLIPSIS] || includes text THREE_DOTS); reflexivity. }
    - intro Hell. unfold Matchers.anchored.
      rewrite anchored_plain by exact Hell. reflexivity.
    - intros Hlen Hinc. unfold Matchers.anchored, Anchored.matchesExpected.
      fold text name stem.
      assert (Ht : truthy text = true).
      { destruct text as [|x r]; [|reflexivity].
        apply includes_nil_l in Hinc. rewrite Hinc in Hlen. simpl in Hlen. lia. }
      rewrite Ht. cbn [negb andb].
      apply Nat.leb_le in Hlen. rewrite Hlen, Hinc. cbn [andb].
      destruct (includes text name); reflexivity.
    - intros Hlen Hell. unfold Matchers.anchored.
      rewrite anchored_plain by exact Hell. fold text name stem.
      apply Nat.leb_gt in Hlen. rewrite Hlen. cbn [andb].
      rewrite orb_false_r. reflexivity. }
  split; [vm_compute; reflexivity|].
  split; [vm_compute; reflexivity|].
  split; vm_compute; reflexivity.
Qed.

Lemma C6_extension_stripped_rule_witness :
  stripExtension (lit "report" ++ DOT :: lit "csv") = lit "report"
  /\ stripExtension (lit "README") = lit "README"
  /\ Matchers.completion (lit "holiday-photo.png") (lit "quarterly-report.xlsx") = false
  /\ Matchers.completion (lit "My Report") (lit "/tmp/my report.csv") = true
  /\ Matchers.completion (lit "img") (lit "img.png")
     = truthy (lit "img") && includes (lit "img") (lit "img.png")
  /\ Matchers.anchored (lit "holiday-photo.png") (lit "quarterly-report.xlsx") = false
  /\ Matchers.anchored (lit "My Report") (lit "MY REPORT.CSV") = true
  /\ Matchers.anchored (lit "img") (lit "img.png")
     = truthy (lit "img") && includes (lit "img") (lit "img.png").
Proof.
  pose proof C6_extension_stripped_rule as (Hstrip & Hkeep & Hcompletion & Hanchored & _).
  split.
  { apply Hstrip; [simpl; lia|reflexivity]. }
  split.
  { apply Hkeep. intros p ext Hs _ _.
    assert (Hin : In DOT (lit "README"))
      by (rewrite Hs; apply in_or_app; right; left; reflexivity).
    vm_compute in Hin. intuition discriminate. }
  split.
  { rewrite (proj1 (Hcompletion (lit "holiday-photo.png") (lit "quarterly-report.xlsx")));
      vm_compute; reflexivity. }
  split.
  { apply (proj1 (proj2 (Hcompletion (lit "My Report") (lit "/tmp/my report.csv"))));
      [vm_compute; lia|vm_compute; reflexivity]. }
  split.
  { apply (proj1 (proj2 (proj2 (Hcompletion (lit "img") (lit "img.png")))));
      [vm_compute; lia|vm_compute; reflexivity]. }
  split.
  { rewrite (proj1 (Hanchored (lit "holiday-photo.png") (lit "quarterly-report.xlsx")));
      vm_compute; reflexivity. }
  split.
  { apply (proj1 (proj2 (Hanchored (lit "My Report") (lit "MY REPORT.CSV"))));
      [vm_compute; lia|vm_compute; reflexivity]. }
  { apply (proj1 (proj2 (proj2 (Hanchored (lit "img") (lit "img.png")))));
      [vm_compute; lia|vm_compute; reflexivity]. }
Defined.

(** C1: at the candidate "budget-202…xlsx" and the expected name
    "budget-2024-full-report.xlsx" the readiness wait's matcher answers
    false: its second replace looks for a backslash before the ellipsis
    character, which the escaping step never puts there, so the pattern
    keeps the ellipsis as a literal.  The anchored wait expands it and
    matches.  With three dots the roles are swapped: the readiness wait
    expands the escaped dots, while the anchored wait searches the escaped
    text for unescaped dots and, on every text, finds none. *)
Theorem C1_ellipsis_expansion :
  let unicode := lit "budget-202" ++ [ELLIPSIS] ++ lit "xlsx" in
  let dots := lit "budget-202...xlsx" in
  let expected := lit "budget-2024-full-report.xlsx" in
  Matchers.completion unicode expected = false
  /\ Completion.ellipsisPattern unicode = unicode
  /\ Matchers.anchored unicode expected = true
  /\ Anchored.ellipsisPattern unicode = lit "budget-202.*xlsx"
  /\ Matchers.completion dots expected = true
  /\ Completion.ellipsisPattern dots = lit "budget-202.*xlsx"
  /\ Matchers.anchored dots expected = false
  /\ Anchored.ellipsisPattern dots = lit "budget-202\.\.\.xlsx"
  /\ (forall text : jsstring,
        Anchored.ellipsisPattern text
        = replaceAll [ELLIPSIS] DOTSTAR (escapeRegExp text)).
Proof.
  repeat split; try (vm_compute; reflexivity).
  apply anchored_second_pass_idle.
Qed.

(** Where the four copies do agree: when the lower-cased candidate and the
    lower-cased expected name are laid out alike (single spaces, trimmed),
    the name holds no path separator and the candidate is non-empty and
    free of ellipsis markers, each copy answers by the substring rule (the
    name, or its stem of at least six units, occurs in the candidate). *)
Lemma matchers_agree_on_plain :
  forall candidate expected : jsstring,
    let text := toLowerCase candidate in
    let name := toLowerCase expected in
    trim (collapseWhiteSpace text) = text ->
    truthy text = true ->
    hasEllipsisMarker text = false ->
    trim (collapseWhiteSpace name) = name ->
    baseName name = name ->
    Matchers.completion candidate expected = Matchers.substringRule text name
    /\ Matchers.anchored candidate expected = Matchers.substringRule text name
    /\ Matchers.visible candidate expected = Matchers.substringRule text name
    /\ Matchers.userTurn candidate expected = Matchers.substringRule text name.
Proof.
  intros candidate expected text name Hc Ht Hell He Hb.
  assert (Hraw : normalizeName candidate = text) by exact Hc.
  assert (Hname : normalizeName (baseName name) = name).
  { rewrite Hb. unfold normalizeName, name. rewrite toLowerCase_idempotent. exact He. }
  unfold Matchers.substringRule.
  split; [|split; [|split]].
  - rewrite completion_unfold. fold name. rewrite Hname, Hraw, Ht. cbn [andb].
    apply candidateMatches_plain. exact Hell.
  - unfold Matchers.anchored. rewrite anchored_plain by exact Hell.
    fold text name. rewrite Ht. reflexivity.
  - reflexivity.
  - unfold Matchers.userTurn, UserTurnWait.matchesExpected, UserTurnWait.haystackOf.
    cbn [join flat_map]. rewrite app_nil_r. fold text name. rewrite Hname.
    destruct (includes text name); [reflexivity|].
    destruct ((6 <=? List.length (stripExtension name))%nat
              && includes text (stripExtension name)); reflexivity.
Qed.

(** C2: the four waits each inline a matcher of their own, and the copies
    have drifted apart.
    - The spec's own example, the label "Budget 2024.PDF" for the file
      "budget  2024.pdf": the readiness wait and the post-send check
      collapse the white space of the expected name and match; the anchored
      and the visible wait do not, and answer false.
    - A label with a doubled space matches in the readiness wait only, the
      one copy that normalises the label.
    - A label truncated with the ellipsis character matches in the anchored
      wait and not in the visible wait, which has no truncation rule: the
      upload then anchors and fails in the visible wait. *)
Theorem C2_matchers_differ :
  (Matchers.completion (lit "Budget 2024.PDF") (lit "budget  2024.pdf") = true
   /\ Matchers.userTurn (lit "Budget 2024.PDF") (lit "budget  2024.pdf") = true
   /\ Matchers.anchored (lit "Budget 2024.PDF") (lit "budget  2024.pdf") = false
   /\ Matchers.visible (lit "Budget 2024.PDF") (lit "budget  2024.pdf") = false)
  /\ (Matchers.completion (lit "budget  2024.pdf") (lit "budget 2024.pdf") = true
      /\ Matchers.anchored (lit "budget  2024.pdf") (lit "budget 2024.pdf") = false
      /\ Matchers.visible (lit "budget  2024.pdf") (lit "budget 2024.pdf") = false
      /\ Matchers.userTurn (lit "budget  2024.pdf") (lit "budget 2024.pdf") = false)
  /\ (Matchers.anchored (lit "budget-202" ++ [ELLIPSIS] ++ lit "xlsx")
                        (lit "budget-2024-full-report.xlsx") = true
      /\ Matchers.visible (lit "budget-202" ++ [ELLIPSIS] ++ lit "xlsx")
                          (lit "budget-2024-full-report.xlsx") = false)
  /\ ~ (forall candidate expected : jsstring,
          Matchers.completion candidate expected = Matchers.anchored candidate expected
          /\ Matchers.anchored candidate expected = Matchers.visible candidate expected
          /\ Matchers.visible candidate expected = Matchers.userTurn candidate expected).
Proof.
  split; [repeat split; vm_compute; reflexivity|].
  split; [repeat split; vm_compute; reflexivity|].
  split; [repeat split; vm_compute; reflexivity|].
  intro H.
  destruct (H (lit "Budget 2024.PDF") (lit "budget  2024.pdf")) as [H1 _].
  vm_compute in H1. discriminate H1.
Qed.

(* ================================================================== *)
(** ** The loops, one round at a time *)
(* ================================================================== *)

Section LoopFacts.

Lemma clock_elapse (ms : Z) (e : list Event) (bump : nat) (env : Env) (w : World) :
  clock (elapse ms e bump env w) = clock w + ms + Z.of_N (lag env (awaits w)).
Proof. reflexivity. Qed.

Lemma clock_elapse_ge (ms : Z) (e : list Event) (bump : nat) (env : Env) (w : World) :
  0 <= ms -> clock w + ms <= clock (elapse ms e bump env w).
Proof. intro H. rewrite clock_elapse. pose proof (N2Z.is_nonneg (lag env (awaits w))). lia. Qed.

Lemma missing_is_empty {A} (p : A -> bool) (l : list A) :
  (List.length (filter (fun x => negb (p x)) l) =? 0)%nat = forallb p l.
Proof.
  induction l as [|x l IH]; simpl; [reflexivity|].
  destruct (p x); simpl; [exact IH|reflexivity].
Qed.

(** The body of the readiness loop, by cases on what the snapshot shows. *)
Lemma completionTick_cases (expectedNormalized : list jsstring)
    (again : option Z -> M Waits.Exit) (v : Completion.Snapshot)
    (since : option Z) (env : Env) (w : World) :
  Waits.completionTick expectedNormalized again (Some v) since env w
  = if Completion.uploading v then again since env (elapse 250 [Slept 250] 0 env w)
    else if chipsMatch expectedNormalized v && Waits.isReady (Completion.state v)
    then (Done Waits.ChipsReady, w)
    else if chipsMatch expectedNormalized v && Waits.isMissing (Completion.state v)
            && Completion.filesAttached v
    then (Done Waits.ChipsNoControl, w)
    else if chipsMatch expectedNormalized v && Completion.filesAttached v
    then again since env (elapse 500 [Slept 500] 0 env w)
    else if inputCondition expectedNormalized v
    then
      let armed := match since with Some t => t | None => clock w end in
      if clock w - armed >? 1500 then (Done Waits.InputStable, w)
      else again (Some armed) env (elapse 250 [Slept 250] 0 env w)
    else again None env (elapse 250 [Slept 250] 0 env w).
Proof.
  unfold Waits.completionTick, chipsMatch, inputCondition.
  rewrite !missing_is_empty.
  destruct (Completion.uploading v); cbn [negb]; [reflexivity|].
  destruct (forallb (Completion.matchesExpected
                       (Completion.normalizeAll (Completion.attachedNames v)))
                    expectedNormalized);
    destruct (Waits.isReady (Completion.state v)) eqn:Hr;
    destruct (Waits.isMissing (Completion.state v)) eqn:Hm;
    destruct (Completion.filesAttached v);
    destruct (forallb (Completion.inputMatches
                         (Completion.normalizeAll (Completion.inputNames v)))
                      expectedNormalized);
    cbn [andb]; try reflexivity;
    destruct since as [t|]; unfold bind, dateNow, ret, delay; cbn [fst snd];
    try reflexivity;
    match goal with
    | |- context [?a >? ?b] => destruct (a >? b); reflexivity
    end.
Qed.

Lemma completionTick_no_value (expectedNormalized : list jsstring)
    (again : option Z -> M Waits.Exit) (since : option Z) (env : Env) (w : World) :
  Waits.completionTick expectedNormalized again None since env w
  = again since env (elapse 250 [Slept 250] 0 env w).
Proof. reflexivity. Qed.

(** One round of the readiness loop. *)
Lemma completionLoop_round (fuel : nat) (logger : bool)
    (expectedNormalized : list jsstring) (deadline : Z) (since : option Z)
    (env : Env) (w : World) :
  clock w < deadline ->
  Waits.completionLoop (S fuel) logger expectedNormalized deadline since env w
  = let w1 := elapse 0 [Evaluated CompletionProbe] 1 env w in
    let again := fun s => Waits.completionLoop fuel logger expectedNormalized deadline s in
    match observe env (probes w) with
    | Rejected => (Thrown "Runtime.evaluate rejected", w1)
    | NoValue => Waits.completionTick expectedNormalized again None since env w1
    | Shown d =>
        Waits.completionTick expectedNormalized again (Some (Completion.probe d)) since env w1
    end.
Proof.
  intro H. apply Z.ltb_lt in H.
  cbn [Waits.completionLoop]. unfold bind at 1. unfold dateNow at 1. rewrite H.
  unfold bind at 1, evaluateValue, bind at 1, evaluate.
  destruct (observe env (probes w)); reflexivity.
Qed.

Lemma completionLoop_expired (fuel : nat) (logger : bool)
    (expectedNormalized : list jsstring) (deadline : Z) (since : option Z)
    (env : Env) (w : World) :
  deadline <= clock w ->
  fst (Waits.completionLoop (S fuel) logger expectedNormalized deadline since env w)
  = Thrown "Attachments did not finish uploading before timeout.".
Proof.
  intro H. apply Z.ltb_ge in H.
  cbn [Waits.completionLoop]. unfold bind at 1. unfold dateNow at 1. rewrite H.
  destruct logger; reflexivity.
Qed.

End LoopFacts.

(** C9: with no expected names (an empty list, or none passed) the
    post-send wait returns at once: no round trip, no sleep, no log line, no
    error, whatever the timeout. *)
Theorem C9_user_turn_wait_without_names :
  forall (fuel : nat) (timeoutMs : Z) (logger : bool) (env : Env) (w : World),
    Waits.waitForUserTurnAttachments fuel None timeoutMs logger env w = (Done tt, w)
    /\ Waits.waitForUserTurnAttachments fuel (Some []) timeoutMs logger env w = (Done tt, w).
Proof. intros. split; reflexivity. Qed.

(** C10: without the structural DOM channel the upload throws before
    anything else happens: the world is untouched (no round trip, no click,
    no sleep), for every attachment. *)
Theorem C10_upload_without_dom_channel :
  forall (fuel : nat) (attachmentPath : jsstring) (env : Env) (w : World),
    Upload.uploadAttachmentFile fuel None attachmentPath env w
    = (Thrown "DOM domain unavailable while uploading attachments.", w).
Proof. intros. reflexivity. Qed.

(** C5: when the page shown to the presence check (the third round trip,
    after the two best-effort clicks) does not hold the attachment and the
    page shown to the tagging script (the fourth) has no file input,
    the upload throws the locator error right after the diagnostic capture;
    the structural channel is never called and no event is synthesised. *)
Theorem C5_upload_without_file_input :
  forall (fuel : nat) (dom : Upload.DomChannel) (attachmentPath : jsstring)
         (env : Env) (w : World) (seen primed : Document),
    observe env (2 + probes w)%nat = Shown seen ->
    Upload.isAttachmentPresent (Upload.path_basename attachmentPath) seen = false ->
    observe env (3 + probes w)%nat = Shown primed ->
    fileInputs primed = [] ->
    exists w',
      Upload.uploadAttachmentFile fuel (Some dom) attachmentPath env w
      = (Thrown "Unable to locate ChatGPT file attachment input.", w')
      /\ events w'
         = events w
           ++ [Evaluated ClickComposerPlus; Slept 250; Evaluated ClickUploadMenuItem;
               Evaluated IsAttachmentPresent; Evaluated MarkUploadTarget;
               DomFailure "file-input-missing"].
Proof.
  intros fuel dom attachmentPath env w seen primed Hseen Habsent Hprimed Hnone.
  unfold Upload.uploadAttachmentFile.
  unfold bind, catch, evaluateValue, bind, evaluate, delay, logDomFailure, throw, ret.
  cbn [elapse probes awaits clock events Nat.add].
  cbn [Nat.add] in Hseen, Hprimed.
  rewrite Hseen. cbn [Waits.isFound]. rewrite Habsent.
  cbn [elapse probes awaits clock events Nat.add]. rewrite Hprimed.
  unfold Upload.markUploadTarget. rewrite Hnone.
  cbn [filter Upload.isSome Waits.isFound negb].
  eexists. split; [reflexivity|].
  cbn [events elapse]. rewrite <- !app_assoc. reflexivity.
Qed.

Lemma C5_upload_without_file_input_witness :
  exists w',
    Upload.uploadAttachmentFile 4 (Some Samples.channel) (lit "/tmp/quarterly-report.xlsx")
      (Samples.steady Samples.emptyPage) Samples.start
    = (Thrown "Unable to locate ChatGPT file attachment input.", w')
    /\ events w'
       = events Samples.start
         ++ [Evaluated ClickComposerPlus; Slept 250; Evaluated ClickUploadMenuItem;
             Evaluated IsAttachmentPresent; Evaluated MarkUploadTarget;
             DomFailure "file-input-missing"].
Proof.
  apply (@C5_upload_without_file_input 4 Samples.channel (lit "/tmp/quarterly-report.xlsx")
           (Samples.steady Samples.emptyPage) Samples.start
           Samples.emptyPage Samples.emptyPage);
    reflexivity.
Defined.

(** C3: a round of the readiness wait whose snapshot shows no upload in
    progress and every expected name on a chip or card returns at once when
    the send control is ready, returns at once when there is no send control
    but chips are present, and, when chips are present and the control is
    disabled, sleeps 500 ms and polls again with the same state.  A round
    whose snapshot shows an upload in progress decides nothing: it sleeps
    250 ms and polls again with the same state. *)
Theorem C3_readiness_round :
  forall (fuel : nat) (logger : bool) (expectedNormalized : list jsstring)
         (deadline : Z) (since : option Z) (env : Env) (w : World) (d : Document),
    let v := Completion.probe d in
    let w1 := elapse 0 [Evaluated CompletionProbe] 1 env w in
    let loop := fun n => Waits.completionLoop n logger expectedNormalized deadline since env in
    clock w < deadline ->
    observe env (probes w) = Shown d ->
    (Completion.uploading v = false ->
     chipsMatch expectedNormalized v = true ->
     (Completion.state v = Completion.ready ->
      loop (S fuel) w = (Done Waits.ChipsReady, w1))
     /\ (Completion.state v = Completion.missing ->
         Completion.filesAttached v = true ->
         loop (S fuel) w = (Done Waits.ChipsNoControl, w1))
     /\ (Completion.state v = Completion.disabled ->
         Completion.filesAttached v = true ->
         loop (S fuel) w = loop fuel (elapse 500 [Slept 500] 0 env w1)))
    /\ (Completion.uploading v = true ->
        loop (S fuel) w = loop fuel (elapse 250 [Slept 250] 0 env w1)).
Proof.
  intros fuel logger expectedNormalized deadline since env w d v w1 loop Hlt Hobs.
  unfold loop. rewrite completionLoop_round by exact Hlt. rewrite Hobs.
  cbv zeta. fold v w1. rewrite completionTick_cases.
  split.
  - intros Hup Hchips. rewrite Hup, Hchips. cbn [andb].
    split; [|split].
    + intros ->. reflexivity.
    + intros -> ->. reflexivity.
    + intros -> ->. reflexivity.
  - intros ->. reflexivity.
Qed.

Lemma C3_readiness_round_witness :
  (Waits.completionLoop 3 false [Samples.reportName] 5000 None
     (Samples.steady (Samples.chipPage (Some false))) Samples.start
   = (Done Waits.ChipsReady,
      elapse 0 [Evaluated CompletionProbe] 1
        (Samples.steady (Samples.chipPage (Some false))) Samples.start))
  /\ (Waits.completionLoop 3 false [Samples.reportName] 5000 None
        (Samples.steady (Samples.chipPage None)) Samples.start
      = (Done Waits.ChipsNoControl,
         elapse 0 [Evaluated CompletionProbe] 1
           (Samples.steady (Samples.chipPage None)) Samples.start))
  /\ (Waits.completionLoop 3 false [Samples.reportName] 5000 None
        (Samples.steady (Samples.chipPage (Some true))) Samples.start
      = Waits.completionLoop 2 false [Samples.reportName] 5000 None
          (Samples.steady (Samples.chipPage (Some true)))
          (elapse 500 [Slept 500] 0 (Samples.steady (Samples.chipPage (Some true)))
             (elapse 0 [Evaluated CompletionProbe] 1
                (Samples.steady (Samples.chipPage (Some true))) Samples.start)))
  /\ (Waits.completionLoop 3 false [Samples.reportName] 5000 None
        (Samples.steady Samples.busyPage) Samples.start
      = Waits.completionLoop 2 false [Samples.reportName] 5000 None
          (Samples.steady Samples.busyPage)
          (elapse 250 [Slept 250] 0 (Samples.steady Samples.busyPage)
             (elapse 0 [Evaluated CompletionProbe] 1
                (Samples.steady Samples.busyPage) Samples.start))).
Proof.
  split.
  { apply (proj1 (proj1 (@C3_readiness_round 2 false [Samples.reportName] 5000 None
                           (Samples.steady (Samples.chipPage (Some false))) Samples.start
                           (Samples.chipPage (Some false))
                           ltac:(simpl; lia) eq_refl)
                   eq_refl eq_refl)).
    reflexivity. }
  split.
  { apply (proj1 (proj2 (proj1 (@C3_readiness_round 2 false [Samples.reportName] 5000 None
                                  (Samples.steady (Samples.chipPage None)) Samples.start
                                  (Samples.chipPage None)
                                  ltac:(simpl; lia) eq_refl)
                          eq_refl eq_refl)));
      reflexivity. }
  split.
  { apply (proj2 (proj2 (proj1 (@C3_readiness_round 2 false [Samples.reportName] 5000 None
                                  (Samples.steady (Samples.chipPage (Some true))) Samples.start
                                  (Samples.chipPage (Some true))
                                  ltac:(simpl; lia) eq_refl)
                          eq_refl eq_refl)));
      reflexivity. }
  { apply (proj2 (@C3_readiness_round 2 false [Samples.reportName] 5000 None
                    (Samples.steady Samples.busyPage) Samples.start Samples.busyPage
                    ltac:(simpl; lia) eq_refl)).
    reflexivity. }
Defined.

Section DebounceFacts.

Variables (logger : bool) (expectedNormalized : list jsstring) (deadline : Z) (env : Env).

Let loop (n : nat) (since : option Z) (w : World) :=
  Waits.completionLoop n logger expectedNormalized deadline since env w.

(** The timer never holds an instant before [floor]; a return through the
    file-input path then comes more than 1500 ms after [floor]. *)
Lemma completionLoop_window (fuel : nat) :
  forall (since : option Z) (w w' : World) (floor : Z),
    (forall t, since = Some t -> floor <= t) ->
    floor <= clock w ->
    loop fuel since w = (Done Waits.InputStable, w') ->
    floor + 1500 < clock w'.
Proof.
  unfold loop.
  induction fuel as [|fuel IH]; intros since w w' floor Hsince Hfloor Hrun.
  - discriminate Hrun.
  - destruct (Z.ltb_spec (clock w) deadline) as [Hlt|Hge].
    2:{ pose proof (completionLoop_expired fuel logger expectedNormalized since env w Hge) as E.
        rewrite Hrun in E. discriminate E. }
    rewrite completionLoop_round in Hrun by exact Hlt. cbv zeta in Hrun.
    set (w1 := elapse 0 [Evaluated CompletionProbe] 1 env w) in *.
    assert (H1 : floor <= clock w1).
    { pose proof (@clock_elapse_ge 0 [Evaluated CompletionProbe] 1 env w ltac:(lia)).
      fold w1 in H. lia. }
    assert (Hnext : forall ms e, 0 <= ms -> floor <= clock (elapse ms e 0 env w1)).
    { intros ms e Hms. pose proof (@clock_elapse_ge ms e 0 env w1 Hms). lia. }
    destruct (observe env (probes w)) as [| |d].
    + discriminate Hrun.
    + rewrite completionTick_no_value in Hrun.
      eapply IH; [exact Hsince| |exact Hrun]. apply Hnext. lia.
    + rewrite completionTick_cases in Hrun.
      destruct (Completion.uploading (Completion.probe d)).
      { eapply IH; [exact Hsince| |exact Hrun]. apply Hnext. lia. }
      destruct (chipsMatch expectedNormalized (Completion.probe d)
                && Waits.isReady (Completion.state (Completion.probe d))).
      { discriminate Hrun. }
      destruct (chipsMatch expectedNormalized (Completion.probe d)
                && Waits.isMissing (Completion.state (Completion.probe d))
                && Completion.filesAttached (Completion.probe d)).
      { discriminate Hrun. }
      destruct (chipsMatch expectedNormalized (Completion.probe d)
                && Completion.filesAttached (Completion.probe d)).
      { eapply IH; [exact Hsince| |exact Hrun]. apply Hnext. lia. }
      destruct (inputCondition expectedNormalized (Completion.probe d)).
      * cbv zeta in Hrun.
        set (armed := match since with Some t => t | None => clock w1 end) in *.
        assert (Harmed : floor <= armed).
        { unfold armed. destruct since as [t|]; [apply Hsince; reflexivity|exact H1]. }
        destruct (Z.gtb_spec (clock w1 - armed) 1500) as [Hgt|Hle].
        -- injection Hrun as <-. lia.
        -- eapply IH; [| |exact Hrun].
           ++ intros t Ht. injection Ht as <-. exact Harmed.
           ++ apply Hnext. lia.
      * eapply IH; [| |exact Hrun].
        -- intros t Ht. discriminate Ht.
        -- apply Hnext. lia.
Qed.

(** A single round that returns through the file-input path. *)
Lemma completionLoop_single_round (since : option Z) (w w' : World) :
  loop 1 since w = (Done Waits.InputStable, w') ->
  exists d t,
    observe env (probes w) = Shown d
    /\ Completion.uploading (Completion.probe d) = false
    /\ inputCondition expectedNormalized (Completion.probe d) = true
    /\ since = Some t
    /\ t + 1500 < clock w'.
Proof.
  unfold loop. intro Hrun.
  destruct (Z.ltb_spec (clock w) deadline) as [Hlt|Hge].
  2:{ pose proof (completionLoop_expired 0 logger expectedNormalized since env w Hge) as E.
      rewrite Hrun in E. discriminate E. }
  rewrite completionLoop_round in Hrun by exact Hlt. cbv zeta in Hrun.
  destruct (observe env (probes w)) as [| |d].
  - discriminate Hrun.
  - rewrite completionTick_no_value in Hrun. discriminate Hrun.
  - rewrite completionTick_cases in Hrun.
    exists d.
    destruct (Completion.uploading (Completion.probe d)); [discriminate Hrun|].
    destruct (chipsMatch expectedNormalized (Completion.probe d)
              && Waits.isReady (Completion.state (Completion.probe d)));
      [discriminate Hrun|].
    destruct (chipsMatch expectedNormalized (Completion.probe d)
              && Waits.isMissing (Completion.state (Completion.probe d))
              && Completion.filesAttached (Completion.probe d));
      [discriminate Hrun|].
    destruct (chipsMatch expectedNormalized (Completion.probe d)
              && Completion.filesAttached (Completion.probe d));
      [discriminate Hrun|].
    destruct (inputCondition expectedNormalized (Completion.probe d));
      [|discriminate Hrun].
    cbv zeta in Hrun.
    destruct since as [t|].
    + exists t.
      destruct (Z.gtb_spec (clock (elapse 0 [Evaluated CompletionProbe] 1 env w) - t) 1500)
        as [Hgt|Hle]; [|discriminate Hrun].
      injection Hrun as <-. repeat split; try reflexivity. lia.
    + rewrite Z.sub_diag in Hrun. discriminate Hrun.
Qed.

End DebounceFacts.

(** C4: the file-input fallback of the readiness wait, that is, what the
    loop does on a round that sees no upload in progress and no chip match.
    - A return through this path comes only from a round that saw the
      condition hold (every expected name in some file input, send control
      ready) and found the timer set more than 1500 ms ago; from any loop
      state with the timer unset (the entry of the wait, or the state a
      reset leaves) such a return is more than 1500 ms away.
    - A round of the path that sees the condition hold returns if the timer
      was set more than 1500 ms ago, and otherwise keeps the timer (setting
      it to the instant of this round if it was unset) and polls again after
      250 ms.
    - A round of the path that sees the condition not holding unsets the
      timer; a return through this path then comes more than 1500 ms after
      that round.
    - Rounds outside the path leave the timer as it is: a round that sees an
      upload in progress, a round whose result has no value, and a round
      that takes the chip path's extra sleep (every name on a chip, chips
      present, control disabled). *)
Theorem C4_input_fallback_debounce :
  forall (fuel : nat) (logger : bool) (expectedNormalized : list jsstring)
         (deadline : Z) (env : Env),
    let loop := fun n since w =>
      Waits.completionLoop n logger expectedNormalized deadline since env w in
    let polled := fun w => elapse 0 [Evaluated CompletionProbe] 1 env w in
    (forall w w' : World,
        loop fuel None w = (Done Waits.InputStable, w') ->
        clock w + 1500 < clock w')
    /\ (forall (since : option Z) (w w' : World),
           loop 1%nat since w = (Done Waits.InputStable, w') ->
           exists d t,
             observe env (probes w) = Shown d
             /\ Completion.uploading (Completion.probe d) = false
             /\ inputCondition expectedNormalized (Completion.probe d) = true
             /\ since = Some t
             /\ t + 1500 < clock w')
    /\ (forall (since : option Z) (w : World) (d : Document),
           clock w < deadline ->
           observe env (probes w) = Shown d ->
           Completion.uploading (Completion.probe d) = false ->
           chipsMatch expectedNormalized (Completion.probe d) = false ->
           inputCondition expectedNormalized (Completion.probe d) = false ->
           loop (S fuel) since w
           = loop fuel None (elapse 250 [Slept 250] 0 env (polled w)))
    /\ (forall (since : option Z) (w : World) (d : Document),
           clock w < deadline ->
           observe env (probes w) = Shown d ->
           Completion.uploading (Completion.probe d) = true ->
           loop (S fuel) since w
           = loop fuel since (elapse 250 [Slept 250] 0 env (polled w)))
    /\ (forall (since : option Z) (w : World),
           clock w < deadline ->
           observe env (probes w) = NoValue ->
           loop (S fuel) since w
           = loop fuel since (elapse 250 [Slept 250] 0 env (polled w)))
    /\ (forall (since : option Z) (w : World) (d : Document),
           clock w < deadline ->
           observe env (probes w) = Shown d ->
           Completion.uploading (Completion.probe d) = false ->
           chipsMatch expectedNormalized (Completion.probe d) = true ->
           Completion.filesAttached (Completion.probe d) = true ->
           Completion.state (Completion.probe d) = Completion.disabled ->
           loop (S fuel) since w
           = loop fuel since (elapse 500 [Slept 500] 0 env (polled w)))
    /\ (forall (since : option Z) (w : World) (d : Document),
           clock w < deadline ->
           observe env (probes w) = Shown d ->
           Completion.uploading (Completion.probe d) = false ->
           chipsMatch expectedNormalized (Completion.probe d) = false ->
           inputCondition expectedNormalized (Completion.probe d) = true ->
           let armed := match since with Some t => t | None => clock (polled w) end in
           loop (S fuel) since w
           = if clock (polled w) - armed >? 1500
             then (Done Waits.InputStable, polled w)
             else loop fuel (Some armed) (elapse 250 [Slept 250] 0 env (polled w)))
    /\ (forall (since : option Z) (w w' : World) (d : Document),
           clock w < deadline ->
           observe env (probes w) = Shown d ->
           Completion.uploading (Completion.probe d) = false ->
           chipsMatch expectedNormalized (Completion.probe d) = false ->
           inputCondition expectedNormalized (Completion.probe d) = false ->
           loop (S fuel) since w = (Done Waits.InputStable, w') ->
           clock w + 250 + 1500 < clock w').
Proof.
  intros fuel logger expectedNormalized deadline env loop polled.
  assert (Hreset : forall (since : option Z) (w : World) (d : Document),
             clock w < deadline ->
             observe env (probes w) = Shown d ->
             Completion.uploading (Completion.probe d) = false ->
             chipsMatch expectedNormalized (Completion.probe d) = false ->
             inputCondition expectedNormalized (Completion.probe d) = false ->
             loop (S fuel) since w
             = loop fuel None (elapse 250 [Slept 250] 0 env (polled w))).
  { intros since w d Hlt Hobs Hup Hchips Hcond. unfold loop, polled.
    rewrite completionLoop_round by exact Hlt. rewrite Hobs. cbv zeta.
    rewrite completionTick_cases, Hup, Hchips, Hcond. reflexivity. }
  split; [|split; [|split; [|split; [|split; [|split; [|split]]]]]].
  8:{ intros since w w' d Hlt Hobs Hup Hchips Hcond Hrun.
      rewrite (Hreset since w d Hlt Hobs Hup Hchips Hcond) in Hrun.
      pose proof (@completionLoop_window logger expectedNormalized deadline env fuel
                    None (elapse 250 [Slept 250] 0 env (polled w)) w'
                    (clock (elapse 250 [Slept 250] 0 env (polled w)))) as Hwin.
      assert (Hfloor : clock w + 250
                       <= clock (elapse 250 [Slept 250] 0 env (polled w))).
      { unfold polled. rewrite !clock_elapse. lia. }
      specialize (Hwin ltac:(intros t Ht; discriminate Ht) ltac:(lia) Hrun). lia. }
  7:{ intros since w d Hlt Hobs Hup Hchips Hcond armed. unfold loop, polled, armed.
      rewrite completionLoop_round by exact Hlt. rewrite Hobs. cbv zeta.
      rewrite completionTick_cases, Hup, Hchips, Hcond. reflexivity. }
  - intros w w' Hrun.
    eapply completionLoop_window with (since := None); [| |exact Hrun].
    + intros t Ht. discriminate Ht.
    + lia.
  - intros since w w' Hrun.
    eapply completionLoop_single_round. exact Hrun.
  - intros since w d Hlt Hobs Hup Hchips Hcond. unfold loop, polled.
    rewrite completionLoop_round by exact Hlt. rewrite Hobs. cbv zeta.
    rewrite completionTick_cases, Hup, Hchips, Hcond. reflexivity.
  - intros since w d Hlt Hobs Hup. unfold loop, polled.
    rewrite completionLoop_round by exact Hlt. rewrite Hobs. cbv zeta.
    rewrite completionTick_cases, Hup. reflexivity.
  - intros since w Hlt Hobs. unfold loop, polled.
    rewrite completionLoop_round by exact Hlt. rewrite Hobs. reflexivity.
  - intros since w d Hlt Hobs Hup Hchips Hfiles Hstate. unfold loop, polled.
    rewrite completionLoop_round by exact Hlt. rewrite Hobs. cbv zeta.
    rewrite completionTick_cases, Hup, Hchips, Hfiles, Hstate. reflexivity.
Qed.

Lemma C4_input_fallback_debounce_witness :
  clock Samples.start + 1500
  < clock (snd (Waits.completionLoop 9 false [Samples.reportName] 5000 None
                  (Samples.steady Samples.inputOnlyPage) Samples.start))
  /\ Waits.completionLoop 9 false [Samples.reportName] 5000 (Some 0)
       (Samples.steady Samples.emptyPage) Samples.start
     = Waits.completionLoop 8 false [Samples.reportName] 5000 None
         (Samples.steady Samples.emptyPage)
         (elapse 250 [Slept 250] 0 (Samples.steady Samples.emptyPage)
            (elapse 0 [Evaluated CompletionProbe] 1
               (Samples.steady Samples.emptyPage) Samples.start))
  /\ Waits.completionLoop 9 false [Samples.reportName] 5000 (Some 0)
       (Samples.steady Samples.busyPage) Samples.start
     = Waits.completionLoop 8 false [Samples.reportName] 5000 (Some 0)
         (Samples.steady Samples.busyPage)
         (elapse 250 [Slept 250] 0 (Samples.steady Samples.busyPage)
            (elapse 0 [Evaluated CompletionProbe] 1
               (Samples.steady Samples.busyPage) Samples.start))
  /\ (let interrupted := afterPolls CompletionProbe 250 6 Samples.dropout Samples.start in
      clock interrupted + 250 + 1500
      < clock (snd (Waits.completionLoop 12 false [Samples.reportName] 5000 (Some 0)
                      Samples.dropout interrupted))).
Proof.
  split; [|split; [|split]].
  4:{ cbv zeta.
      apply (proj2 (proj2 (proj2 (proj2 (proj2 (proj2 (proj2
               (@C4_input_fallback_debounce 11 false [Samples.reportName] 5000
                  Samples.dropout)))))))
               (Some 0) (afterPolls CompletionProbe 250 6 Samples.dropout Samples.start)
               (snd (Waits.completionLoop 12 false [Samples.reportName] 5000 (Some 0)
                       Samples.dropout
                       (afterPolls CompletionProbe 250 6 Samples.dropout Samples.start)))
               Samples.emptyPage);
        vm_compute; reflexivity. }
  - apply (proj1 (@C4_input_fallback_debounce 9 false [Samples.reportName] 5000
                    (Samples.steady Samples.inputOnlyPage))
             Samples.start).
    vm_compute. reflexivity.
  - apply (proj1 (proj2 (proj2 (@C4_input_fallback_debounce 8 false [Samples.reportName] 5000
                                  (Samples.steady Samples.emptyPage))))
             (Some 0) Samples.start Samples.emptyPage);
      [simpl; lia|reflexivity|reflexivity|reflexivity|reflexivity].
  - apply (proj1 (proj2 (proj2 (proj2 (@C4_input_fallback_debounce 8 false
                                         [Samples.reportName] 5000
                                         (Samples.steady Samples.busyPage)))))
             (Some 0) Samples.start Samples.busyPage);
      [simpl; lia|reflexivity|reflexivity].
Defined.

(** Logging takes no time and makes no round trip. *)
Lemma logIf_keeps_clock (logger : bool) (line : jsstring) (env : Env) (w : World) :
  clock (snd (logIf logger line env w)) = clock w
  /\ probes (snd (logIf logger line env w)) = probes w
  /\ awaits (snd (logIf logger line env w)) = awaits w.
Proof. destruct logger; repeat split; reflexivity. Qed.

Section VisibleFacts.

Variables (logger : bool) (expectedName : jsstring) (deadline : Z) (env : Env).

Let loop (n : nat) (w : World) :=
  Waits.visibleLoop n logger expectedName deadline env w.

Let giveUp : jsstring := lit "Attachment not visible in composer; giving up.".

Lemma visibleLoop_round (fuel : nat) (w : World) :
  clock w < deadline ->
  loop (S fuel) w
  = let w1 := elapse 0 [Evaluated VisibleProbe] 1 env w in
    match observe env (probes w) with
    | Rejected => (Thrown "Runtime.evaluate rejected", w1)
    | NoValue => loop fuel (elapse 200 [Slept 200] 0 env w1)
    | Shown d =>
        if Visible.probe expectedName d then (Done tt, w1)
        else loop fuel (elapse 200 [Slept 200] 0 env w1)
    end.
Proof.
  intro H. apply Z.ltb_lt in H. unfold loop.
  cbn [Waits.visibleLoop]. unfold bind at 1. unfold dateNow at 1. rewrite H.
  unfold bind at 1, evaluateValue, bind at 1, evaluate.
  destruct (observe env (probes w)) as [| |d]; try reflexivity.
  cbn [ret Waits.isFound]. destruct (Visible.probe expectedName d); reflexivity.
Qed.

Lemma visibleLoop_expired (fuel : nat) (w : World) :
  deadline <= clock w ->
  loop (S fuel) w
  = (Thrown "Attachment did not appear in ChatGPT composer.",
     elapse 0 [DomFailure "attachment-visible"] 0 env (snd (logIf logger giveUp env w))).
Proof.
  intro H. apply Z.ltb_ge in H. unfold loop.
  cbn [Waits.visibleLoop]. unfold bind at 1. unfold dateNow at 1. rewrite H.
  destruct logger; reflexivity.
Qed.

Lemma clock_logIf (line : jsstring) (w : World) :
  clock (snd (logIf logger line env w)) = clock w.
Proof. destruct logger; reflexivity. Qed.

(** With [fuel] rounds in hand for what is left of the budget, a wait that
    never finds the name throws, not before the deadline and less than a
    poll interval and three overruns after it. *)
Lemma visibleLoop_gives_up (overrun : Z) :
  (forall n, Z.of_N (lag env n) <= overrun) ->
  (forall n, fruitless (Visible.probe expectedName) (observe env n)) ->
  forall (fuel : nat) (w : World),
    deadline - clock w <= 200 * Z.of_nat fuel ->
    clock w < deadline + 200 + 2 * overrun ->
    exists w',
      loop (S fuel) w = (Thrown "Attachment did not appear in ChatGPT composer.", w')
      /\ deadline <= clock w'
      /\ clock w' < deadline + 200 + 3 * overrun
      /\ exists earlier, events w' = earlier ++ [DomFailure "attachment-visible"].
Proof.
  intros Hlag Hnone.
  assert (Hover : 0 <= overrun).
  { pose proof (Hlag O). pose proof (N2Z.is_nonneg (lag env O)). lia. }
  induction fuel as [|fuel IH]; intros w Hbudget Hhead.
  - assert (Hge : deadline <= clock w) by lia.
    rewrite visibleLoop_expired by exact Hge.
    eexists. split; [reflexivity|].
    rewrite clock_elapse, clock_logIf.
    pose proof (Hlag (awaits (snd (logIf logger giveUp env w)))).
    pose proof (N2Z.is_nonneg (lag env (awaits (snd (logIf logger giveUp env w))))).
    repeat split; try lia.
    eexists. reflexivity.
  - destruct (Z.ltb_spec (clock w) deadline) as [Hlt|Hge].
    + rewrite visibleLoop_round by exact Hlt. cbv zeta.
      set (w1 := elapse 0 [Evaluated VisibleProbe] 1 env w).
      set (w2 := elapse 200 [Slept 200] 0 env w1).
      assert (Hw2 : clock w2 = clock w + Z.of_N (lag env (awaits w)) + 200
                                + Z.of_N (lag env (awaits w1))).
      { unfold w2, w1. rewrite !clock_elapse. lia. }
      pose proof (Hlag (awaits w)). pose proof (N2Z.is_nonneg (lag env (awaits w))).
      pose proof (Hlag (awaits w1)). pose proof (N2Z.is_nonneg (lag env (awaits w1))).
      assert (Hnext : exists w',
                 loop (S fuel) w2
                 = (Thrown "Attachment did not appear in ChatGPT composer.", w')
                 /\ deadline <= clock w'
                 /\ clock w' < deadline + 200 + 3 * overrun
                 /\ exists earlier, events w' = earlier ++ [DomFailure "attachment-visible"]).
      { apply IH; lia. }
      pose proof (Hnone (probes w)) as Hp.
      destruct (observe env (probes w)) as [| |d]; simpl in Hp.
      * contradiction.
      * exact Hnext.
      * rewrite Hp. exact Hnext.
    + rewrite visibleLoop_expired by exact Hge.
      eexists. split; [reflexivity|].
      rewrite clock_elapse, clock_logIf.
      pose proof (Hlag (awaits (snd (logIf logger giveUp env w)))).
      pose proof (N2Z.is_nonneg (lag env (awaits (snd (logIf logger giveUp env w))))).
      repeat split; try lia.
      eexists. reflexivity.
Qed.

Lemma clock_afterPolls_ge (s : Script) (ms : Z) (k : nat) (w : World) :
  0 <= ms -> clock w <= clock (afterPolls s ms k env w).
Proof.
  intro Hms. revert w. induction k as [|k IH]; intro w; simpl; [lia|].
  specialize (IH (elapse ms [Slept ms] 0 env (elapse 0 [Evaluated s] 1 env w))).
  rewrite !clock_elapse in IH.
  pose proof (N2Z.is_nonneg (lag env (awaits w))).
  pose proof (N2Z.is_nonneg (lag env (awaits (elapse 0 [Evaluated s] 1 env w)))).
  lia.
Qed.

(** A match shown at the [k]-th round trip from here, polled before the
    deadline, ends the wait without error. *)
Lemma visibleLoop_finds (k : nat) :
  forall (fuel : nat) (w : World) (d : Document),
    (forall i, (i < k)%nat -> observe env (probes w + i) <> Rejected) ->
    observe env (probes w + k) = Shown d ->
    Visible.probe expectedName d = true ->
    clock (afterPolls VisibleProbe 200 k env w) < deadline ->
    (k < fuel)%nat ->
    exists w', loop fuel w = (Done tt, w').
Proof.
  induction k as [|k IH]; intros fuel w d Hok Hshown Hfound Hlt Hfuel.
  - destruct fuel as [|fuel]; [lia|].
    simpl in Hlt. rewrite visibleLoop_round by exact Hlt. cbv zeta.
    rewrite Nat.add_0_r in Hshown. rewrite Hshown, Hfound.
    eexists. reflexivity.
  - destruct fuel as [|fuel]; [lia|].
    assert (Hhead : clock w < deadline).
    { pose proof (@clock_afterPolls_ge VisibleProbe 200 (S k) w ltac:(lia)). lia. }
    rewrite visibleLoop_round by exact Hhead. cbv zeta.
    set (w2 := elapse 200 [Slept 200] 0 env (elapse 0 [Evaluated VisibleProbe] 1 env w)).
    assert (Hnext : exists w', loop fuel w2 = (Done tt, w')).
    { apply (IH fuel w2 d).
      - intros i Hi. replace (probes w2 + i)%nat with (probes w + S i)%nat
          by (unfold w2; simpl; lia).
        apply Hok. lia.
      - replace (probes w2 + k)%nat with (probes w + S k)%nat
          by (unfold w2; simpl; lia).
        exact Hshown.
      - exact Hfound.
      - exact Hlt.
      - lia. }
    pose proof (Hok O ltac:(lia)) as H0. rewrite Nat.add_0_r in H0.
    destruct (observe env (probes w)) as [| |d0].
    + contradiction H0; reflexivity.
    + exact Hnext.
    + destruct (Visible.probe expectedName d0); [eexists; reflexivity|exact Hnext].
Qed.

(** A rejection at the [k]-th round trip from here, after round trips that
    found nothing and polled before the deadline, ends the wait with that
    rejection. *)
Lemma visibleLoop_rejects (k : nat) :
  forall (fuel : nat) (w : World),
    (forall i, (i < k)%nat ->
               fruitless (Visible.probe expectedName) (observe env (probes w + i))) ->
    observe env (probes w + k) = Rejected ->
    clock (afterPolls VisibleProbe 200 k env w) < deadline ->
    (k < fuel)%nat ->
    loop fuel w
    = (Thrown "Runtime.evaluate rejected",
       elapse 0 [Evaluated VisibleProbe] 1 env (afterPolls VisibleProbe 200 k env w)).
Proof.
  induction k as [|k IH]; intros fuel w Hnone Hrej Hlt Hfuel.
  - destruct fuel as [|fuel]; [lia|].
    cbn [afterPolls] in *. rewrite visibleLoop_round by exact Hlt. cbv zeta.
    rewrite Nat.add_0_r in Hrej. rewrite Hrej. reflexivity.
  - destruct fuel as [|fuel]; [lia|].
    assert (Hhead : clock w < deadline).
    { pose proof (@clock_afterPolls_ge VisibleProbe 200 (S k) w ltac:(lia)). lia. }
    rewrite visibleLoop_round by exact Hhead. cbv zeta.
    set (w2 := elapse 200 [Slept 200] 0 env (elapse 0 [Evaluated VisibleProbe] 1 env w)).
    assert (Hnext : loop fuel w2
                    = (Thrown "Runtime.evaluate rejected",
                       elapse 0 [Evaluated VisibleProbe] 1 env
                         (afterPolls VisibleProbe 200 (S k) env w))).
    { change (afterPolls VisibleProbe 200 (S k) env w)
        with (afterPolls VisibleProbe 200 k env w2).
      apply (IH fuel w2).
      - intros i Hi. replace (probes w2 + i)%nat with (probes w + S i)%nat
          by (unfold w2; simpl; lia).
        apply Hnone. lia.
      - replace (probes w2 + k)%nat with (probes w + S k)%nat
          by (unfold w2; simpl; lia).
        exact Hrej.
      - exact Hlt.
      - lia. }
    pose proof (Hnone O ltac:(lia)) as H0. rewrite Nat.add_0_r in H0.
    destruct (observe env (probes w)) as [| |d0]; cbn [fruitless] in H0.
    + contradiction.
    + exact Hnext.
    + rewrite H0. exact Hnext.
Qed.

End VisibleFacts.

(** C7 (as it holds): the visible wait and its deadline.
    - When every round trip resolves and none reports the name, the wait,
      given enough rounds, throws its terminal error right after the
      diagnostic capture, not before the deadline, and less than one poll
      interval plus three await overruns after the deadline, or after entry
      when the timeout is negative (so within the timeout plus 200 ms when
      no await overruns).
    - A match shown at a round trip that is polled before the deadline ends
      the wait without error.
    - A round trip that is rejected while the wait is still polling ends it
      at once with that rejection: the terminal error is not thrown and
      nothing is captured. *)
Theorem C7_visible_wait_deadline :
  forall (fuel : nat) (expectedName : jsstring) (timeoutMs : Z) (logger : bool)
         (env : Env) (w : World),
    (forall overrun : Z,
        (forall n, Z.of_N (lag env n) <= overrun) ->
        (forall n, fruitless (Visible.probe expectedName) (observe env n)) ->
        (Z.to_nat (timeoutMs / 200) + 2 <= fuel)%nat ->
        exists w',
          Waits.waitForAttachmentVisible fuel expectedName timeoutMs logger env w
          = (Thrown "Attachment did not appear in ChatGPT composer.", w')
          /\ clock w + timeoutMs <= clock w'
          /\ clock w' < clock w + Z.max 0 timeoutMs + 200 + 3 * overrun
          /\ exists earlier, events w' = earlier ++ [DomFailure "attachment-visible"])
    /\ (forall (k : nat) (d : Document),
           (forall i, (i < k)%nat -> observe env (probes w + i) <> Rejected) ->
           observe env (probes w + k) = Shown d ->
           Visible.probe expectedName d = true ->
           clock (afterPolls VisibleProbe 200 k env w) < clock w + timeoutMs ->
           (k < fuel)%nat ->
           exists w',
             Waits.waitForAttachmentVisible fuel expectedName timeoutMs logger env w
             = (Done tt, w'))
    /\ (forall k : nat,
           (forall i, (i < k)%nat ->
                      fruitless (Visible.probe expectedName)
                                (observe env (probes w + i))) ->
           observe env (probes w + k) = Rejected ->
           clock (afterPolls VisibleProbe 200 k env w) < clock w + timeoutMs ->
           (k < fuel)%nat ->
           Waits.waitForAttachmentVisible fuel expectedName timeoutMs logger env w
           = (Thrown "Runtime.evaluate rejected",
              elapse 0 [Evaluated VisibleProbe] 1 env
                (afterPolls VisibleProbe 200 k env w))).
Proof.
  intros fuel expectedName timeoutMs logger env w.
  assert (Hentry :
    Waits.waitForAttachmentVisible fuel expectedName timeoutMs logger env w
    = Waits.visibleLoop fuel logger expectedName (clock w + timeoutMs) env w)
    by reflexivity.
  rewrite Hentry. split; [|split].
  - intros overrun Hlag Hnone Hfuel.
    assert (Hover : 0 <= overrun).
    { pose proof (Hlag O). pose proof (N2Z.is_nonneg (lag env O)). lia. }
    destruct fuel as [|fuel]; [lia|].
    destruct (Z.leb_spec 0 timeoutMs) as [Htime|Htime].
    + rewrite Z.max_r by exact Htime.
      apply visibleLoop_gives_up with (overrun := overrun); try assumption; try lia.
      assert (Hq : 0 <= timeoutMs / 200) by (apply Z.div_pos; lia).
      pose proof (Z.div_mod timeoutMs 200 ltac:(lia)) as Hdm.
      pose proof (Z.mod_pos_bound timeoutMs 200 ltac:(lia)) as Hmod.
      assert (Hf : timeoutMs / 200 + 1 <= Z.of_nat fuel).
      { rewrite <- (Z2Nat.id (timeoutMs / 200)) by exact Hq. lia. }
      lia.
    + rewrite Z.max_l by lia.
      pose proof (@visibleLoop_expired logger expectedName (clock w + timeoutMs) env
                    fuel w ltac:(lia)) as Hrun.
      cbv zeta in Hrun. rewrite Hrun.
      eexists. split; [reflexivity|].
      destruct (logIf_keeps_clock logger
                  (lit "Attachment not visible in composer; giving up.") env w)
        as (Hc & _ & _).
      rewrite clock_elapse, Hc.
      pose proof (Hlag (awaits (snd (logIf logger
                    (lit "Attachment not visible in composer; giving up.") env w)))).
      split; [lia|]. split; [lia|]. eexists. reflexivity.
  - intros k d Hok Hshown Hfound Hlt Hfuel.
    eapply visibleLoop_finds; eauto.
  - intros k Hnone Hrej Hlt Hfuel.
    apply visibleLoop_rejects; assumption.
Qed.

Lemma C7_visible_wait_deadline_witness :
  (exists w',
      Waits.waitForAttachmentVisible 5 Samples.reportName 100 false
        Samples.sluggish Samples.start
      = (Thrown "Attachment did not appear in ChatGPT composer.", w')
      /\ clock Samples.start + 100 <= clock w'
      /\ clock w' < clock Samples.start + Z.max 0 100 + 200 + 3 * 60
      /\ exists earlier, events w' = earlier ++ [DomFailure "attachment-visible"])
  /\ (exists w',
         Waits.waitForAttachmentVisible 5 Samples.reportName 100 false
           (Samples.steady (Samples.chipPage None)) Samples.start
         = (Done tt, w'))
  /\ Waits.waitForAttachmentVisible 5 Samples.reportName 100 false
       Scenes.broken Samples.start
     = (Thrown "Runtime.evaluate rejected",
        elapse 0 [Evaluated VisibleProbe] 1 Scenes.broken
          (afterPolls VisibleProbe 200 0 Scenes.broken Samples.start)).
Proof.
  split; [|split].
  - apply (proj1 (@C7_visible_wait_deadline 5 Samples.reportName 100 false
                    Samples.sluggish Samples.start) 60).
    + intro n. simpl. lia.
    + intro n. vm_compute. reflexivity.
    + simpl. lia.
  - apply (proj1 (proj2 (@C7_visible_wait_deadline 5 Samples.reportName 100 false
                           (Samples.steady (Samples.chipPage None)) Samples.start))
             O (Samples.chipPage None)).
    + intros i Hi. lia.
    + reflexivity.
    + vm_compute. reflexivity.
    + simpl. lia.
    + lia.
  - apply (proj2 (proj2 (@C7_visible_wait_deadline 5 Samples.reportName 100 false
                           Scenes.broken Samples.start)) O).
    + intros i Hi. lia.
    + reflexivity.
    + simpl. lia.
    + lia.
Defined.

(** C7 (as stated) fails.  With a timeout of 100 ms and every await
    overrunning by 60 ms, the only round trip ends at 60 ms, the sleep at
    320 ms, and the error is thrown at 380 ms: more than the timeout plus one
    poll interval after entry, although no round trip ever found the name.
    And when the first round trip is rejected, no round trip finds the name
    either, yet the wait ends at once, before the deadline, with that
    rejection and without capture. *)
Lemma C7_slow_round_trip_overshoots :
  let run := Waits.waitForAttachmentVisible 5 Samples.reportName 100 false
               Samples.sluggish Samples.start in
  let cut := Waits.waitForAttachmentVisible 5 Samples.reportName 100 false
               Scenes.broken Samples.start in
  fst cut = Thrown "Runtime.evaluate rejected"
  /\ clock (snd cut) = 0
  /\ events (snd cut) = [Evaluated VisibleProbe]
  /\ fst run = Thrown "Attachment did not appear in ChatGPT composer."
  /\ clock (snd run) = 380
  /\ events (snd run)
     = [Evaluated VisibleProbe; Slept 200; DomFailure "attachment-visible"]
  /\ (forall n, fruitless (Visible.probe Samples.reportName) (observe Samples.sluggish n))
  /\ ~ (forall (fuel : nat) (expectedName : jsstring) (timeoutMs : Z) (logger : bool)
               (env : Env) (w w' : World),
          (forall n, fruitless (Visible.probe expectedName) (observe env n)) ->
          Waits.waitForAttachmentVisible fuel expectedName timeoutMs logger env w
          = (Thrown "Attachment did not appear in ChatGPT composer.", w') ->
          clock w' <= clock w + timeoutMs + 200).
Proof.
  split; [vm_compute; reflexivity|].
  split; [vm_compute; reflexivity|].
  split; [vm_compute; reflexivity|].
  split; [vm_compute; reflexivity|].
  split; [vm_compute; reflexivity|].
  split; [vm_compute; reflexivity|].
  split; [intro n; vm_compute; reflexivity|].
  intro H.
  specialize (H 5%nat Samples.reportName 100 false Samples.sluggish Samples.start
                (snd (Waits.waitForAttachmentVisible 5 Samples.reportName 100 false
                        Samples.sluggish Samples.start))
                (fun n => eq_refl) eq_refl).
  vm_compute in H. apply H. reflexivity.
Qed.

(* ================================================================== *)
(** ** Substrings, names and stems *)
(* ================================================================== *)

Section SubstringFacts.

Lemma startsWith_prefix (s needle : jsstring) :
  startsWith s needle = true <-> exists q, s = needle ++ q.
Proof.
  revert s; induction needle as [|a needle IH]; intro s.
  - rewrite startsWith_nil. split; [exists s; reflexivity|reflexivity].
  - destruct s as [|b s]; cbn [startsWith].
    + split; [discriminate|]. intros [q Hq]. discriminate Hq.
    + rewrite andb_true_iff, N.eqb_eq, IH. split.
      * intros [-> [q ->]]. exists q. reflexivity.
      * intros [q Hq]. injection Hq as -> ->. split; [reflexivity|exists q; reflexivity].
Qed.

(** [includes] is the infix relation. *)
Lemma includes_infix (s needle : jsstring) :
  includes s needle = true <-> exists p q, s = p ++ needle ++ q.
Proof.
  induction s as [|c s IH]; cbn [includes].
  - rewrite orb_false_r, startsWith_prefix. split.
    + intros [q Hq]. exists [], q. exact Hq.
    + intros [p [q Hq]]. destruct p; [exists q; exact Hq|discriminate Hq].
  - rewrite orb_true_iff, startsWith_prefix, IH. split.
    + intros [[q Hq]|[p [q Hq]]].
      * exists [], q. exact Hq.
      * exists (c :: p), q. rewrite Hq. reflexivity.
    + intros [p [q Hq]]. destruct p as [|x p].
      * left. exists q. exact Hq.
      * right. injection Hq as -> ->. exists p, q. reflexivity.
Qed.

Lemma includes_self (s : jsstring) : includes s s = true.
Proof. apply includes_infix. exists [], []. rewrite app_nil_r. reflexivity. Qed.

Lemma includes_trans (a b c : jsstring) :
  includes a b = true -> includes b c = true -> includes a c = true.
Proof.
  rewrite !includes_infix. intros [p [q ->]] [p' [q' ->]].
  exists (p ++ p'), (q' ++ q). rewrite <- !app_assoc. reflexivity.
Qed.

End SubstringFacts.

Section SegmentFacts.

(** What follows the last separator does not depend on what precedes it. *)
Lemma lastSegment_after (sep : N) (dir name : jsstring) :
  lastSegment sep (dir ++ sep :: name) = lastSegment sep name.
Proof.
  unfold lastSegment. rewrite fold_left_app. cbn [fold_left].
  rewrite N.eqb_refl. reflexivity.
Qed.

Lemma lastSegment_without (sep : N) (name acc : jsstring) :
  forallb (fun c => negb (c =? sep)%N) name = true ->
  fold_left (fun acc c => if (c =? sep)%N then [] else acc ++ [c]) name acc = acc ++ name.
Proof.
  revert acc; induction name as [|c name IH]; intros acc H.
  - rewrite app_nil_r. reflexivity.
  - cbn [forallb] in H. apply andb_true_iff in H. destruct H as [Hc H].
    apply negb_true_iff in Hc. cbn [fold_left]. rewrite Hc, IH by exact H.
    rewrite <- app_assoc. reflexivity.
Qed.

End SegmentFacts.

(** Lower-casing and the path separators. *)
Section SeparatorFacts.

(** A path separator: no surrogate, no letter, nothing the case mapping
    looks at. *)
Variable sep : N.
Hypothesis Hsep : sep = SLASH \/ sep = BACKSLASH.

Lemma separator_plain :
  isLead sep = false /\ isTrail sep = false
  /\ isCased (Unit sep) = false /\ isCaseIgnorable (Unit sep) = false
  /\ forall b rest, lowered b (Unit sep) rest = [Unit sep].
Proof.
  destruct Hsep as [-> | ->]; repeat split; try (vm_compute; reflexivity);
    intros b rest; unfold lowered; vm_compute; reflexivity.
Qed.

Lemma StringToCodePoints_separator (a b : jsstring) :
  StringToCodePoints (a ++ sep :: b)
  = StringToCodePoints a ++ Unit sep :: StringToCodePoints b.
Proof.
  destruct separator_plain as (Hl & Ht & _).
  assert (Hhead : forall x, StringToCodePoints (sep :: x) = Unit sep :: StringToCodePoints x).
  { intros [|l t]; [reflexivity|]. rewrite StringToCodePoints_step, Hl. reflexivity. }
  induction a as [|h|h l t IHc IHt] using jsstring_pair_ind.
  - apply Hhead.
  - cbn [app]. rewrite StringToCodePoints_step, Ht, andb_false_r, Hhead. reflexivity.
  - cbn [app] in *. rewrite !StringToCodePoints_step.
    destruct (isLead h && isTrail l).
    + rewrite IHt. reflexivity.
    + rewrite IHc. reflexivity.
Qed.

Lemma followedByCased_separator (r m : list CodePoint) :
  followedByCased (r ++ Unit sep :: m) = followedByCased r.
Proof.
  destruct separator_plain as (_ & _ & Hc & Hi & _).
  induction r as [|c r IH]; cbn [app followedByCased].
  - rewrite Hi, Hc. reflexivity.
  - rewrite IH. reflexivity.
Qed.

Lemma toLowercase_separator (m1 m2 : list CodePoint) :
  forall b,
    toLowercase b (m1 ++ Unit sep :: m2)
    = toLowercase b m1 ++ Unit sep :: toLowercase false m2.
Proof.
  destruct separator_plain as (_ & _ & Hc & Hi & Hsame).
  induction m1 as [|c m1 IH]; intro b.
  - cbn [app]. rewrite toLowercase_cons, Hsame, Hi, Hc. reflexivity.
  - cbn [app]. rewrite !toLowercase_cons, IH. unfold lowered.
    rewrite followedByCased_separator, <- app_assoc. reflexivity.
Qed.

Lemma toLowerCase_separator (a b : jsstring) :
  toLowerCase (a ++ sep :: b) = toLowerCase a ++ sep :: toLowerCase b.
Proof.
  unfold toLowerCase.
  rewrite StringToCodePoints_separator, toLowercase_separator, CodePointsToString_app.
  reflexivity.
Qed.

(** Lower-casing brings in no separator. *)
Lemma toLowercase_no_separator (s : jsstring) :
  forallb (fun u => negb (u =? sep)%N) s = true ->
  forall b,
    forallb (fun u => negb (u =? sep)%N)
            (CodePointsToString (toLowercase b (StringToCodePoints s))) = true.
Proof.
  assert (Hout : forall b c rest,
             forallb (fun u => negb (u =? sep)%N) (CodePointsToString [c]) = true ->
             forallb (fun u => negb (u =? sep)%N)
                     (CodePointsToString (lowered b c rest)) = true).
  { intros b c rest Hc.
    destruct (lowered_cases b c rest) as [[-> _]|(_ & _ & _ & Hfree)]; [exact Hc|].
    cbv zeta in Hfree. rewrite forallb_forall in Hfree. apply forallb_forall.
    intros u Hu. specialize (Hfree u Hu).
    apply andb_true_iff in Hfree. destruct Hfree as [H1 H2].
    destruct Hsep as [-> | ->]; assumption. }
  induction s as [|h|h l t IHc IHt] using jsstring_pair_ind; intros Hs b.
  - reflexivity.
  - cbn [StringToCodePoints]. rewrite toLowercase_cons. cbn [toLowercase].
    rewrite app_nil_r. apply Hout. exact Hs.
  - rewrite StringToCodePoints_step.
    cbn [forallb] in Hs. apply andb_true_iff in Hs. destruct Hs as [Hh Hs].
    pose proof Hs as Hlt. cbn [forallb] in Hs.
    apply andb_true_iff in Hs. destruct Hs as [Hl Ht].
    destruct (isLead h && isTrail l).
    + rewrite toLowercase_cons, CodePointsToString_app, forallb_app.
      rewrite Hout, IHt; [reflexivity|exact Ht|].
      cbn. rewrite Hh, Hl. reflexivity.
    + rewrite toLowercase_cons, CodePointsToString_app, forallb_app.
      rewrite Hout, IHc; [reflexivity|exact Hlt|].
      cbn. rewrite Hh. reflexivity.
Qed.

Lemma last_separator (s : jsstring) :
  forallb (fun u => negb (u =? sep)%N) s = true
  \/ exists a b, s = a ++ sep :: b /\ forallb (fun u => negb (u =? sep)%N) b = true.
Proof.
  induction s as [|c t [IH|(a & b & -> & Hb)]].
  - left. reflexivity.
  - destruct (N.eqb_spec c sep) as [->|Hc].
    + right. exists [], t. split; [reflexivity|exact IH].
    + left. cbn [forallb]. apply N.eqb_neq in Hc. rewrite Hc, IH. reflexivity.
  - right. exists (c :: a), b. split; [reflexivity|exact Hb].
Qed.

Lemma lastSegment_lower (s : jsstring) :
  lastSegment sep (toLowerCase s) = toLowerCase (lastSegment sep s).
Proof.
  assert (Hfree : forall x,
             forallb (fun u => negb (u =? sep)%N) x = true ->
             lastSegment sep x = x).
  { intros x Hx. unfold lastSegment. apply (@lastSegment_without sep x [] Hx). }
  assert (Hlow : forall x,
             forallb (fun u => negb (u =? sep)%N) x = true ->
             lastSegment sep (toLowerCase x) = toLowerCase x).
  { intros x Hx. apply Hfree. apply toLowercase_no_separator. exact Hx. }
  destruct (last_separator s) as [Hs|(a & b & -> & Hb)].
  - rewrite Hlow, Hfree by exact Hs. reflexivity.
  - rewrite toLowerCase_separator, !lastSegment_after, Hlow, Hfree by exact Hb.
    reflexivity.
Qed.

End SeparatorFacts.

Section NameFacts.

Lemma baseName_lower (s : jsstring) :
  baseName (toLowerCase s) = toLowerCase (baseName s).
Proof.
  unfold baseName. rewrite !lastSegment_lower; auto.
Qed.

Lemma normalizeName_lower (s : jsstring) :
  normalizeName (toLowerCase s) = normalizeName s.
Proof. unfold normalizeName. rewrite toLowerCase_idempotent. reflexivity. Qed.

Lemma expected_as_matched (expected : jsstring) :
  normalizeName (baseName (toLowerCase expected)) = normalizeName (baseName expected).
Proof. rewrite baseName_lower. apply normalizeName_lower. Qed.

Lemma baseName_after_slash (dir name : jsstring) :
  baseName (dir ++ SLASH :: name) = baseName name.
Proof. unfold baseName. rewrite lastSegment_after. reflexivity. Qed.

Lemma baseName_after_backslash (dir name : jsstring) :
  forallb (fun c => negb (c =? SLASH)%N) name = true ->
  baseName (dir ++ BACKSLASH :: name) = baseName name.
Proof.
  intro H. unfold baseName.
  assert (H1 : lastSegment SLASH (dir ++ BACKSLASH :: name)
               = lastSegment SLASH dir ++ BACKSLASH :: name).
  { unfold lastSegment. rewrite fold_left_app.
    apply (@lastSegment_without SLASH (BACKSLASH :: name)). exact H. }
  assert (H2 : lastSegment SLASH name = name).
  { unfold lastSegment. apply (@lastSegment_without SLASH name []). exact H. }
  rewrite H1, H2. apply lastSegment_after.
Qed.

End NameFacts.

(** X1: a label that is the expected name up to case always matches; in the
    readiness wait also up to white-space layout and a directory part of the
    expected name. *)
Theorem X1_own_name_matches :
  forall candidate expected : jsstring,
    (normalizeName candidate = normalizeName (baseName expected) ->
     truthy (normalizeName candidate) = true ->
     Matchers.completion candidate expected = true)
    /\ (toLowerCase candidate = toLowerCase expected ->
        truthy candidate = true ->
        Matchers.anchored candidate expected = true)
    /\ (toLowerCase candidate = toLowerCase expected ->
        Matchers.visible candidate expected = true).
Proof.
  intros candidate expected. split; [|split].
  - intros Heq Ht. rewrite completion_unfold, Ht, expected_as_matched, <- Heq.
    cbn [andb]. unfold Completion.candidateMatches. rewrite includes_self. reflexivity.
  - intros Heq Ht. unfold Matchers.anchored, Anchored.matchesExpected.
    rewrite <- Heq, includes_self, toLowerCase_truthy, Ht. reflexivity.
  - intros Heq. unfold Matchers.visible, Visible.valueMatches.
    rewrite <- Heq, includes_self. reflexivity.
Qed.

Lemma X1_own_name_matches_witness :
  let REPORT_RU : jsstring := [1054; 1058; 1063; 1025; 1058; 46; 80; 68; 70]%N in
  let report_ru : jsstring := [1086; 1090; 1095; 1105; 1090; 46; 112; 100; 102]%N in
  Matchers.completion (lit "  Quarterly   REPORT.xlsx ") (lit "C:\Docs\quarterly report.XLSX") = true
  /\ Matchers.completion REPORT_RU report_ru = true
  /\ Matchers.anchored (lit "Quarterly-Report.XLSX") (lit "quarterly-report.xlsx") = true
  /\ Matchers.anchored REPORT_RU report_ru = true
  /\ Matchers.visible REPORT_RU report_ru = true.
Proof.
  intros REPORT_RU report_ru.
  split; [|split; [|split; [|split]]].
  - apply (proj1 (X1_own_name_matches (lit "  Quarterly   REPORT.xlsx ")
                    (lit "C:\Docs\quarterly report.XLSX"))); vm_compute; reflexivity.
  - apply (proj1 (X1_own_name_matches REPORT_RU report_ru)); vm_compute; reflexivity.
  - apply (proj1 (proj2 (X1_own_name_matches (lit "Quarterly-Report.XLSX")
                           (lit "quarterly-report.xlsx")))); vm_compute; reflexivity.
  - apply (proj1 (proj2 (X1_own_name_matches REPORT_RU report_ru)));
      vm_compute; reflexivity.
  - apply (proj2 (proj2 (X1_own_name_matches REPORT_RU report_ru)));
      vm_compute; reflexivity.
Defined.

(** X2: the directory part of an expected name is ignored by the readiness
    wait (chips and file inputs) and by the post-send check. *)
Theorem X2_directory_ignored :
  forall (names : list jsstring) (haystack dir name : jsstring),
    (Completion.matchesExpected names (dir ++ SLASH :: name)
     = Completion.matchesExpected names name
     /\ Completion.inputMatches names (dir ++ SLASH :: name)
        = Completion.inputMatches names name
     /\ UserTurnWait.matchesExpected haystack (dir ++ SLASH :: name)
        = UserTurnWait.matchesExpected haystack name)
    /\ (forallb (fun c => negb (c =? SLASH)%N) name = true ->
        Completion.matchesExpected names (dir ++ BACKSLASH :: name)
        = Completion.matchesExpected names name
        /\ Completion.inputMatches names (dir ++ BACKSLASH :: name)
           = Completion.inputMatches names name
        /\ UserTurnWait.matchesExpected haystack (dir ++ BACKSLASH :: name)
           = UserTurnWait.matchesExpected haystack name).
Proof.
  intros names haystack dir name.
  unfold Completion.matchesExpected, Completion.inputMatches, UserTurnWait.matchesExpected.
  split.
  - rewrite baseName_after_slash. repeat split; reflexivity.
  - intro H. rewrite baseName_after_backslash by exact H. repeat split; reflexivity.
Qed.

Lemma X2_directory_ignored_witness :
  Completion.matchesExpected [lit "report.csv"] (lit "c:\users\me\report.csv")
  = Completion.matchesExpected [lit "report.csv"] (lit "report.csv").
Proof.
  apply (proj1 (proj2 (X2_directory_ignored [lit "report.csv"] [] (lit "c:\users\me")
                         (lit "report.csv")) eq_refl)).
Defined.

Section StemFacts.

Lemma stripExtension_split (s : jsstring) :
  exists ext,
    s = stripExtension s ++ ext
    /\ (ext = [] \/ exists tail, ext = DOT :: tail /\ isExtensionTail tail = true).
Proof.
  induction s as [|c s (ext & Heq & Hext)]; cbn [stripExtension].
  - exists []. split; [reflexivity|left; reflexivity].
  - destruct ((c =? DOT)%N && isExtensionTail s) eqn:H.
    + apply andb_true_iff in H. destruct H as [Hc Ht]. apply N.eqb_eq in Hc. subst c.
      exists (DOT :: s). split; [reflexivity|]. right. exists s. split; [reflexivity|exact Ht].
    + exists ext. split; [cbn [app]; f_equal; exact Heq|exact Hext].
Qed.

Lemma stripExtension_without_dot (s : jsstring) :
  forallb (fun c => negb (c =? DOT)%N) s = true -> stripExtension s = s.
Proof.
  induction s as [|c s IH]; [reflexivity|].
  cbn [forallb stripExtension]. intro H. apply andb_true_iff in H. destruct H as [Hc H].
  apply negb_true_iff in Hc. rewrite Hc. cbn [andb]. rewrite IH by exact H. reflexivity.
Qed.

End StemFacts.

(** X3: the stem is always a prefix of the name, and what is cut off is
    either nothing or a dot followed by one to ten alphanumerics that end
    the name; a name without a dot is its own stem. *)
Theorem X3_stem_is_prefix :
  forall s : jsstring,
    (exists ext,
        s = stripExtension s ++ ext
        /\ (ext = []
            \/ exists tail,
                ext = DOT :: tail
                /\ (1 <= List.length tail <= 10)%nat
                /\ forallb isAlnum tail = true))
    /\ (List.length (stripExtension s) <= List.length s)%nat
    /\ (forallb (fun c => negb (c =? DOT)%N) s = true -> stripExtension s = s).
Proof.
  intro s. destruct (stripExtension_split s) as (ext & Heq & Hext).
  split; [|split].
  - exists ext. split; [exact Heq|]. destruct Hext as [->|(tail & -> & Ht)]; [left; reflexivity|].
    right. exists tail. split; [reflexivity|].
    unfold isExtensionTail in Ht. apply andb_true_iff in Ht. destruct Ht as [Ht Hal].
    apply andb_true_iff in Ht. destruct Ht as [Hlo Hhi].
    apply Nat.leb_le in Hlo. apply Nat.leb_le in Hhi. repeat split; assumption.
  - rewrite Heq at 2. rewrite length_app. lia.
  - apply stripExtension_without_dot.
Qed.

Lemma X3_stem_is_prefix_witness : stripExtension (lit "README") = lit "README".
Proof. apply (proj2 (proj2 (X3_stem_is_prefix (lit "README")))). reflexivity. Defined.

Section HaystackFacts.

Lemma wellSpaced_only_spaces (l : jsstring) (b : bool) (c : N) :
  wellSpaced b l = true -> In c l -> isWhiteSpace c = true -> c = SPACE.
Proof.
  revert b; induction l as [|x l IH]; intros b Hw Hin Hc; [contradiction|].
  cbn [wellSpaced] in Hw. destruct Hin as [->|Hin].
  - rewrite Hc in Hw. apply andb_true_iff in Hw. destruct Hw as [Hw _].
    apply andb_true_iff in Hw. destruct Hw as [_ Hw]. apply N.eqb_eq. exact Hw.
  - destruct (isWhiteSpace x).
    + apply andb_true_iff in Hw. destruct Hw as [_ Hw]. eapply IH; eauto.
    + eapply IH; eauto.
Qed.

Lemma normalized_spaces (s : jsstring) (c : N) :
  In c (normalizeName s) -> isWhiteSpace c = true -> c = SPACE.
Proof.
  apply wellSpaced_only_spaces with (b := false).
  unfold normalizeName. apply wellSpaced_trim. apply wellSpaced_collapseFrom.
Qed.

Lemma normalized_no_newline (s : jsstring) : ~ In NEWLINE (normalizeName s).
Proof. intro H. apply normalized_spaces in H; [discriminate H|reflexivity]. Qed.

Lemma stem_no_newline (s : jsstring) : ~ In NEWLINE (stripExtension (normalizeName s)).
Proof.
  intro H. apply (@normalized_no_newline s).
  destruct (stripExtension_split (normalizeName s)) as (ext & Heq & _).
  rewrite Heq. apply in_or_app. left. exact H.
Qed.

Lemma includes_across_newline (a b needle : jsstring) :
  ~ In NEWLINE needle ->
  includes (a ++ NEWLINE :: b) needle = includes a needle || includes b needle.
Proof.
  intro Hn. apply eq_true_iff_eq. rewrite orb_true_iff, !includes_infix. split.
  - intros (p & q & H).
    apply app_eq_app in H. destruct H as [l [[Ha Hq]|[Hp Hb]]].
    + symmetry in Hq. apply app_eq_app in Hq. destruct Hq as [l' [[Hl Hq]|[Hn' Hb]]].
      * left. exists p, l'. rewrite Ha, Hl. reflexivity.
      * destruct l' as [|x l'].
        -- left. exists p, []. rewrite Ha, Hn', !app_nil_r. reflexivity.
        -- injection Hb as <- _. exfalso. apply Hn. rewrite Hn'.
           apply in_or_app. right. left. reflexivity.
    + destruct l as [|x l].
      * destruct needle as [|y needle].
        -- left. exists a, []. rewrite app_nil_r. reflexivity.
        -- injection Hb as <- _. exfalso. apply Hn. left. reflexivity.
      * injection Hb as _ ->. right. exists l, q. reflexivity.
  - intros [(p & q & ->)|(p & q & ->)].
    + exists p, (q ++ NEWLINE :: b). rewrite <- !app_assoc. reflexivity.
    + exists (a ++ NEWLINE :: p), q. rewrite <- !app_assoc. reflexivity.
Qed.

(** A needle without a newline is found in the joined haystack exactly
    when it is found in one of the parts. *)
Lemma includes_join (parts : list jsstring) (first needle : jsstring) :
  ~ In NEWLINE needle ->
  includes (join [NEWLINE] (first :: parts)) needle
  = existsb (fun part => includes part needle) (first :: parts).
Proof.
  intro Hn. revert first. induction parts as [|p parts IH]; intro first.
  - cbn [join flat_map existsb]. rewrite app_nil_r, orb_false_r. reflexivity.
  - change (join [NEWLINE] (first :: p :: parts))
      with (first ++ NEWLINE :: join [NEWLINE] (p :: parts)).
    rewrite includes_across_newline by exact Hn. rewrite IH. reflexivity.
Qed.

End HaystackFacts.

(** X4: the post-send check finds a name in the joined haystack exactly when
    the turn's text or one of its attribute labels matches the name on its
    own: a match never straddles two parts. *)
Theorem X4_user_turn_match_by_part :
  forall (text : jsstring) (attrs : list jsstring) (expected : jsstring),
    UserTurnWait.matchesExpected (UserTurnWait.haystackOf text attrs) expected
    = existsb (fun part => UserTurnWait.matchesExpected part expected) (text :: attrs).
Proof.
  intros text attrs expected.
  unfold UserTurnWait.matchesExpected, UserTurnWait.haystackOf.
  set (name := normalizeName (baseName expected)).
  set (stem := stripExtension name).
  rewrite !includes_join by (apply normalized_no_newline || apply stem_no_newline).
  generalize (text :: attrs) as parts.
  induction parts as [|p parts IH]; [cbn [existsb]; rewrite andb_false_r; reflexivity|].
  cbn [existsb]. rewrite <- IH.
  destruct (includes p name); cbn [orb]; [reflexivity|].
  destruct (existsb (fun part => includes part name) parts); cbn [orb].
  - destruct ((6 <=? List.length stem)%nat && includes p stem); reflexivity.
  - destruct ((6 <=? List.length stem)%nat); cbn [andb]; [|reflexivity].
    destruct (includes p stem); reflexivity.
Qed.

Section TargetFacts.

Lemma last_of_filter {A} (p : A -> bool) (l : list A) (default : A) :
  filter p l <> [] ->
  exists before after,
    l = before ++ last (filter p l) default :: after
    /\ p (last (filter p l) default) = true
    /\ forallb (fun x => negb (p x)) after = true.
Proof.
  induction l as [|x l IH] using rev_ind; intro Hne.
  - contradiction Hne; reflexivity.
  - rewrite filter_app in *. cbn [filter] in *. destruct (p x) eqn:Hx.
    + rewrite last_last. exists l, []. repeat split. exact Hx.
    + rewrite app_nil_r in *. destruct (IH Hne) as (before & after & Hl & Hp & Hafter).
      exists before, (after ++ [x]). split; [|split].
      * rewrite Hl at 1. rewrite <- app_assoc. reflexivity.
      * exact Hp.
      * rewrite forallb_app, Hafter. cbn [forallb]. rewrite Hx. reflexivity.
Qed.

Lemma filter_nil_forallb {A} (p : A -> bool) (l : list A) :
  filter p l = [] -> forallb (fun x => negb (p x)) l = true.
Proof.
  induction l as [|x l IH]; [reflexivity|]. cbn [filter forallb].
  destruct (p x); [discriminate|]. exact IH.
Qed.

Lemma forallb_pointwise {A} (f g : A -> bool) (l : list A) :
  (forall x, f x = g x) -> forallb f l = forallb g l.
Proof.
  intro H. induction l as [|x l IH]; [reflexivity|].
  cbn [forallb]. rewrite H, IH. reflexivity.
Qed.

End TargetFacts.

(** X5: the tagging script finds no target exactly when the page has no file
    input; otherwise it tags the last input that is not restricted to
    images, or, when every input is, the last input. *)
Theorem X5_upload_target_choice :
  forall d : Document,
    (Upload.markUploadTarget d = None <-> fileInputs d = [])
    /\ (forall target,
           Upload.markUploadTarget d = Some target ->
           exists before after,
             fileInputs d = before ++ target :: after
             /\ forallb (fun el => Upload.acceptIsImageOnly (accept el)) after = true
             /\ (Upload.acceptIsImageOnly (accept target) = true ->
                 after = []
                 /\ forallb (fun el => Upload.acceptIsImageOnly (accept el)) before = true)).
Proof.
  intro d. unfold Upload.markUploadTarget.
  set (generic := fun el : FileInput => negb (Upload.acceptIsImageOnly (accept el))).
  set (none := Build_FileInput None []).
  destruct (filter generic (fileInputs d)) as [|g gs] eqn:Hf.
  - pose proof (filter_nil_forallb generic (fileInputs d) Hf) as Hall.
    assert (Himg : forallb (fun el => Upload.acceptIsImageOnly (accept el)) (fileInputs d) = true).
    { rewrite <- Hall. apply forallb_pointwise. intro el. unfold generic.
      rewrite negb_involutive. reflexivity. }
    destruct (fileInputs d) as [|x l] eqn:Hin.
    + split; [split; reflexivity|]. intros target H. discriminate H.
    + split; [split; discriminate|]. intros target H.
      assert (Ht : target = last (x :: l) none) by (injection H as <-; reflexivity).
      clear H. subst target.
      destruct (@exists_last _ (x :: l) ltac:(discriminate)) as (before & t & Hl).
      rewrite Hl, last_last. exists before, []. split; [reflexivity|].
      split; [reflexivity|]. intros _. split; [reflexivity|].
      rewrite Hl, forallb_app in Himg. apply andb_true_iff in Himg. apply Himg.
  - assert (Hne : filter generic (fileInputs d) <> []) by (rewrite Hf; discriminate).
    destruct (last_of_filter generic (fileInputs d) none Hne)
      as (before & after & Hl & Hp & Hafter).
    rewrite Hf in Hl, Hp.
    split.
    + split; [discriminate|]. intro H. rewrite H in Hf. discriminate Hf.
    + intros target H.
      assert (Ht : target = last (g :: gs) none) by (injection H as <-; reflexivity).
      clear H. subst target.
      exists before, after. split; [exact Hl|]. split.
      * rewrite <- Hafter. apply forallb_pointwise. intro el. unfold generic.
        rewrite negb_involutive. reflexivity.
      * intro Himg. unfold generic in Hp. rewrite Himg in Hp. discriminate Hp.
Qed.

Lemma X5_upload_target_choice_witness :
  exists before after,
    [ {| accept := None; files := [] |};
      {| accept := Some (lit "image/*"); files := [] |} ]
    = before ++ {| accept := None; files := [] |} :: after
    /\ forallb (fun el => Upload.acceptIsImageOnly (accept el)) after = true
    /\ (Upload.acceptIsImageOnly (accept {| accept := None; files := [] |}) = true ->
        after = []
        /\ forallb (fun el => Upload.acceptIsImageOnly (accept el)) before = true).
Proof.
  apply (proj2 (X5_upload_target_choice
                  {| nodes := [];
                     fileInputs := [ {| accept := None; files := [] |};
                                     {| accept := Some (lit "image/*"); files := [] |} ];
                     sendButton := None; uploadBusy := false; lastUserTurn := None |})
           {| accept := None; files := [] |}).
  reflexivity.
Defined.

(* ================================================================== *)
(** ** The wildcard of the anchored wait *)
(* ================================================================== *)

Section WildcardFacts.

Lemma anchored_pattern_tokens (text : jsstring) :
  exists ts,
    tokenize false (flat_map anchoredUnit text) = Some ts
    /\ quantify ts = Some (map anchoredAtom text)
    /\ hd_error ts <> Some TStar.
Proof.
  induction text as [|c text (ts & Ht & Hq & Hhd)].
  - exists []. repeat split. discriminate.
  - cbn [flat_map map]. unfold anchoredUnit at 1, anchoredAtom at 1.
    destruct ((c =? ELLIPSIS)%N).
    + exists (TAtom AnyChar :: TStar :: ts). split; [|split].
      * cbn [DOTSTAR app tokenize].
        change ((DOT =? BACKSLASH)%N) with false.
        change ((DOT =? DOT)%N) with true. change ((STAR =? BACKSLASH)%N) with false.
        change ((STAR =? DOT)%N) with false. change ((STAR =? STAR)%N) with true.
        cbv iota. rewrite Ht. reflexivity.
      * cbn [quantify]. rewrite Hq. reflexivity.
      * discriminate.
    + destruct (isEscaped c) eqn:Hc.
      * exists (TAtom (Lit c) :: ts). split; [|split].
        -- cbn [app tokenize]. rewrite N.eqb_refl, syntax_is_escaped, Hc, Ht. reflexivity.
        -- apply quantify_atom; assumption.
        -- discriminate.
      * destruct (escaped_cases c Hc) as (Hb & Hd & Hs).
        exists (TAtom (Lit c) :: ts). split; [|split].
        -- cbn [app tokenize]. rewrite Hb, Hd, Hs, syntax_is_escaped, Hc, Ht. reflexivity.
        -- apply quantify_atom; assumption.
        -- discriminate.
Qed.

(** The pattern of the anchored wait compiles, unit by unit. *)
Lemma anchored_pattern_regex (text : jsstring) :
  RegExp_new (Anchored.ellipsisPattern text) = Some (map anchoredAtom text).
Proof.
  rewrite anchored_second_pass_idle, anchored_first_pass.
  destruct (anchored_pattern_tokens text) as (ts & Ht & Hq & _).
  unfold RegExp_new. rewrite Ht. exact Hq.
Qed.

Lemma anchoredAtom_literal (p : jsstring) :
  ~ In ELLIPSIS p -> map anchoredAtom p = map (fun c => (Lit c, false)) p.
Proof.
  intro H. apply map_ext_in. intros c Hc. unfold anchoredAtom.
  destruct (N.eqb_spec c ELLIPSIS) as [->|_]; [contradiction|reflexivity].
Qed.

Lemma matchHere_literals (p : jsstring) (re : Regex) (s : jsstring) :
  matchHere (map (fun c => (Lit c, false)) p ++ re) s = true
  <-> exists rest, s = p ++ rest /\ matchHere re rest = true.
Proof.
  revert s. induction p as [|c p IH]; intro s.
  - cbn [map app]. split.
    + intro H. exists s. split; [reflexivity|exact H].
    + intros (rest & -> & H). exact H.
  - cbn [map app matchHere]. destruct s as [|x s].
    + split; [discriminate|]. intros (rest & Hs & _). discriminate Hs.
    + cbn [atomMatches]. rewrite andb_true_iff, IH. split.
      * intros (Hx & rest & -> & H). apply N.eqb_eq in Hx. subst x.
        exists rest. split; [reflexivity|exact H].
      * intros (rest & Hs & H). injection Hs as -> ->.
        split; [apply N.eqb_refl|]. exists rest. split; [reflexivity|exact H].
Qed.

Lemma matchHere_star_step (a : Atom) (re : Regex) (s : jsstring) :
  matchHere ((a, true) :: re) s
  = matchHere re s
    || match s with
       | c :: s' => atomMatches a c && matchHere ((a, true) :: re) s'
       | [] => false
       end.
Proof. destruct s; reflexivity. Qed.

(** A starred atom matches any run of units it accepts. *)
Lemma matchHere_star (a : Atom) (re : Regex) (s : jsstring) :
  matchHere ((a, true) :: re) s = true
  <-> exists mid rest,
        s = mid ++ rest /\ forallb (atomMatches a) mid = true /\ matchHere re rest = true.
Proof.
  induction s as [|c s IH]; rewrite matchHere_star_step.
  - rewrite orb_false_r. split.
    + intro H. exists [], []. repeat split. exact H.
    + intros (mid & rest & Hs & _ & H).
      symmetry in Hs. apply app_eq_nil in Hs. destruct Hs as [_ ->]. exact H.
  - rewrite orb_true_iff, andb_true_iff, IH. split.
    + intros [H|(Hc & mid & rest & -> & Hmid & H)].
      * exists [], (c :: s). repeat split. exact H.
      * exists (c :: mid), rest. split; [reflexivity|]. split; [|exact H].
        cbn [forallb]. rewrite Hc, Hmid. reflexivity.
    + intros (mid & rest & Hs & Hmid & H). destruct mid as [|x mid].
      * left. cbn [app] in Hs. subst rest. exact H.
      * right. cbn [app] in Hs. injection Hs as -> ->.
        cbn [forallb] in Hmid. apply andb_true_iff in Hmid. destruct Hmid as [Hx Hmid].
        split; [exact Hx|]. exists mid, rest. repeat split; assumption.
Qed.

(** [test] looks for a match at any start position. *)
Lemma RegExp_test_somewhere (re : Regex) (s : jsstring) :
  RegExp_test re s = true
  <-> exists before rest, s = before ++ rest /\ matchHere re rest = true.
Proof.
  induction s as [|c s IH]; cbn [RegExp_test].
  - rewrite orb_false_r. split.
    + intro H. exists [], []. split; [reflexivity|exact H].
    + intros (before & rest & Hs & H).
      symmetry in Hs. apply app_eq_nil in Hs. destruct Hs as [_ ->]. exact H.
  - rewrite orb_true_iff, IH. split.
    + intros [H|(before & rest & -> & H)].
      * exists [], (c :: s). split; [reflexivity|exact H].
      * exists (c :: before), rest. split; [reflexivity|exact H].
    + intros (before & rest & Hs & H). destruct before as [|x before].
      * left. cbn [app] in Hs. subst rest. exact H.
      * right. cbn [app] in Hs. injection Hs as -> ->.
        exists before, rest. split; [reflexivity|exact H].
Qed.

Lemma truncated_label_regex (prefix suffix name : jsstring) :
  ~ In ELLIPSIS prefix -> ~ In ELLIPSIS suffix ->
  RegExp_test (map anchoredAtom (prefix ++ ELLIPSIS :: suffix)) name = true
  <-> exists before mid after,
        name = before ++ prefix ++ mid ++ suffix ++ after /\ sameLine mid = true.
Proof.
  intros Hp Hs.
  rewrite map_app. cbn [map]. rewrite !anchoredAtom_literal by assumption.
  change (anchoredAtom ELLIPSIS) with (AnyChar, true).
  rewrite RegExp_test_somewhere. split.
  - intros (before & rest & -> & H).
    apply matchHere_literals in H. destruct H as (rest1 & -> & H).
    apply matchHere_star in H. destruct H as (mid & rest2 & -> & Hmid & H).
    rewrite <- (app_nil_r (map _ suffix)) in H.
    apply matchHere_literals in H. destruct H as (after & -> & _).
    exists before, mid, after. split; [reflexivity|exact Hmid].
  - intros (before & mid & after & -> & Hmid).
    exists before, (prefix ++ mid ++ suffix ++ after). split; [reflexivity|].
    apply matchHere_literals. exists (mid ++ suffix ++ after). split; [reflexivity|].
    apply matchHere_star. exists mid, (suffix ++ after). split; [reflexivity|].
    split; [exact Hmid|].
    rewrite <- (app_nil_r (map _ suffix)).
    apply matchHere_literals. exists after. split; reflexivity.
Qed.

End WildcardFacts.

(** X6: the pattern the anchored wait compiles from a label reads the
    ellipsis character as a wildcard and every other unit, syntax characters
    included, as itself.  For a label "prefix…suffix" with no further
    ellipsis character the pattern always compiles, and it accepts a name
    exactly when the name holds the prefix, then any run free of line
    terminators, then the suffix; the match is not anchored, so anything may
    come before and after. *)
Theorem X6_anchored_wildcard :
  forall prefix suffix : jsstring,
    ~ In ELLIPSIS prefix ->
    ~ In ELLIPSIS suffix ->
    exists re,
      RegExp_new (Anchored.ellipsisPattern (prefix ++ ELLIPSIS :: suffix)) = Some re
      /\ forall name,
           RegExp_test re name = true
           <-> exists before mid after,
                 name = before ++ prefix ++ mid ++ suffix ++ after
                 /\ sameLine mid = true.
Proof.
  intros prefix suffix Hp Hs.
  exists (map anchoredAtom (prefix ++ ELLIPSIS :: suffix)).
  split; [apply anchored_pattern_regex|].
  intro name. apply truncated_label_regex; assumption.
Qed.

Lemma X6_anchored_wildcard_witness :
  exists re,
    RegExp_new (Anchored.ellipsisPattern (lit "budget-202" ++ ELLIPSIS :: lit "xlsx"))
    = Some re
    /\ forall name,
         RegExp_test re name = true
         <-> exists before mid after,
               name = before ++ lit "budget-202" ++ mid ++ lit "xlsx" ++ after
               /\ sameLine mid = true.
Proof.
  apply (@X6_anchored_wildcard (lit "budget-202") (lit "xlsx")).
  - vm_compute. intuition discriminate.
  - vm_compute. intuition discriminate.
Defined.

(** X7: a truncated label anchors.  When the lower-cased text of a chip is
    "prefix…suffix" and the lower-cased expected name holds the prefix, a
    run free of line terminators and the suffix in that order, the anchored
    wait's matcher accepts the text. *)
Theorem X7_truncated_label_anchors :
  forall value prefix suffix expected before mid after : jsstring,
    toLowerCase value = prefix ++ ELLIPSIS :: suffix ->
    ~ In ELLIPSIS prefix ->
    ~ In ELLIPSIS suffix ->
    sameLine mid = true ->
    toLowerCase expected = before ++ prefix ++ mid ++ suffix ++ after ->
    Matchers.anchored value expected = true.
Proof.
  intros value prefix suffix expected before mid after Hv Hp Hs Hmid He.
  unfold Matchers.anchored. cbv zeta. unfold Anchored.matchesExpected. cbv zeta.
  rewrite Hv.
  assert (Htruthy : truthy (prefix ++ ELLIPSIS :: suffix) = true)
    by (destruct prefix; reflexivity).
  rewrite Htruthy. cbn [negb].
  destruct (includes _ (toLowerCase expected)); [reflexivity|].
  destruct (_ && _); [reflexivity|].
  assert (Hmark : includes (prefix ++ ELLIPSIS :: suffix) [ELLIPSIS] = true).
  { apply includes_infix. exists prefix, suffix. reflexivity. }
  rewrite Hmark. cbn [orb].
  rewrite anchored_pattern_regex.
  assert (Hre : RegExp_test (map anchoredAtom (prefix ++ ELLIPSIS :: suffix))
                  (toLowerCase expected) = true).
  { apply truncated_label_regex; [assumption|assumption|].
    exists before, mid, after. split; assumption. }
  rewrite Hre. reflexivity.
Qed.

Lemma X7_truncated_label_anchors_witness :
  Matchers.anchored (lit "Quarterly-Rep" ++ ELLIPSIS :: lit "xlsx")
    (lit "Quarterly-Report.xlsx") = true.
Proof.
  apply (@X7_truncated_label_anchors
           (lit "Quarterly-Rep" ++ ELLIPSIS :: lit "xlsx")
           (lit "quarterly-rep") (lit "xlsx") (lit "Quarterly-Report.xlsx")
           [] (lit "ort.") []).
  - reflexivity.
  - vm_compute. intuition discriminate.
  - vm_compute. intuition discriminate.
  - reflexivity.
  - reflexivity.
Defined.

(* ================================================================== *)
(** ** The waits on arbitrary probe sequences *)
(* ================================================================== *)

Section PollFacts.

Variables (env : Env) (s : Script) (ms : Z).

Lemma probes_afterPolls (k : nat) :
  forall w, probes (afterPolls s ms k env w) = (probes w + k)%nat.
Proof.
  induction k as [|k IH]; intro w; cbn [afterPolls]; [lia|].
  rewrite IH. cbn [probes elapse]. lia.
Qed.

Lemma events_afterPolls (k : nat) :
  forall w, events (afterPolls s ms k env w) = events w ++ pollTrace s ms k.
Proof.
  induction k as [|k IH]; intro w; cbn [afterPolls pollTrace].
  - rewrite app_nil_r. reflexivity.
  - rewrite IH. cbn [events elapse]. rewrite <- !app_assoc. reflexivity.
Qed.

Lemma lagSum_nonneg (count : nat) : forall from, 0 <= lagSum env from count.
Proof.
  induction count as [|count IH]; intro from; cbn [lagSum]; [lia|].
  specialize (IH (S from)). pose proof (N2Z.is_nonneg (lag env from)). lia.
Qed.

Lemma awaits_afterPolls (k : nat) :
  forall w, awaits (afterPolls s ms k env w) = (awaits w + 2 * k)%nat.
Proof.
  induction k as [|k IH]; intro w; cbn [afterPolls]; [lia|].
  rewrite IH. cbn [awaits elapse]. lia.
Qed.

(** [k] polls take [k] times the interval and the overruns of their awaits. *)
Lemma clock_afterPolls (k : nat) :
  forall w, clock (afterPolls s ms k env w)
            = clock w + Z.of_nat k * ms + lagSum env (awaits w) (2 * k).
Proof.
  induction k as [|k IH]; intro w; cbn [afterPolls].
  - change (2 * 0)%nat with 0%nat. cbn [lagSum]. rewrite Z.mul_0_l. lia.
  - rewrite IH. rewrite !clock_elapse. cbn [awaits elapse].
    replace (2 * S k)%nat with (S (S (2 * k))) by lia.
    cbn [lagSum]. rewrite Nat2Z.inj_succ, Z.mul_succ_l. lia.
Qed.

(** [k] polls take no longer than [k] times the interval and two overruns. *)
Lemma clock_afterPolls_le (overrun : Z) (k : nat) :
  (forall n, Z.of_N (lag env n) <= overrun) ->
  forall w, clock (afterPolls s ms k env w) <= clock w + Z.of_nat k * (ms + 2 * overrun).
Proof.
  intro Hlag. induction k as [|k IH]; intro w; cbn [afterPolls]; [lia|].
  specialize (IH (elapse ms [Slept ms] 0 env (elapse 0 [Evaluated s] 1 env w))).
  rewrite !clock_elapse in IH.
  pose proof (Hlag (awaits w)).
  pose proof (Hlag (awaits (elapse 0 [Evaluated s] 1 env w))).
  lia.
Qed.

End PollFacts.

Section AnchoredFacts.

Variables (expectedName : jsstring) (deadline : Z) (env : Env).

Let loop (n : nat) (w : World) := Waits.anchoredLoop n expectedName deadline env w.

Lemma anchoredLoop_round (fuel : nat) (w : World) :
  clock w < deadline ->
  loop (S fuel) w
  = let w1 := elapse 0 [Evaluated AnchoredProbe] 1 env w in
    match observe env (probes w) with
    | Rejected => (Thrown "Runtime.evaluate rejected", w1)
    | NoValue => loop fuel (elapse 200 [Slept 200] 0 env w1)
    | Shown d =>
        if Anchored.probe expectedName d then (Done true, w1)
        else loop fuel (elapse 200 [Slept 200] 0 env w1)
    end.
Proof.
  intro H. apply Z.ltb_lt in H. unfold loop.
  cbn [Waits.anchoredLoop]. unfold bind at 1. unfold dateNow at 1. rewrite H.
  unfold bind at 1, evaluateValue, bind at 1, evaluate.
  destruct (observe env (probes w)) as [| |d]; try reflexivity.
  cbn [ret Waits.isFound]. destruct (Anchored.probe expectedName d); reflexivity.
Qed.

Lemma anchoredLoop_expired (fuel : nat) (w : World) :
  deadline <= clock w -> loop (S fuel) w = (Done false, w).
Proof.
  intro H. apply Z.ltb_ge in H. unfold loop.
  cbn [Waits.anchoredLoop]. unfold bind at 1. unfold dateNow at 1. rewrite H.
  reflexivity.
Qed.

(** Without a rejected round trip the anchored loop answers after some
    [k <= rounds] fruitless polls, once the remaining time fits into
    [rounds] polls: true at the first round trip that finds the name, false
    at the first loop head past the deadline. *)
Lemma anchoredLoop_total (base rounds : nat) :
  (forall n, (base <= n)%nat -> observe env n <> Rejected) ->
  forall (fuel : nat) (w : World),
    (base <= probes w)%nat ->
    (rounds < fuel)%nat ->
    deadline - clock w <= 200 * Z.of_nat rounds ->
    exists (k : nat) (found : bool),
      (k <= rounds)%nat
      /\ loop fuel w
         = (Done found,
            if found
            then elapse 0 [Evaluated AnchoredProbe] 1 env
                   (afterPolls AnchoredProbe 200 k env w)
            else afterPolls AnchoredProbe 200 k env w)
      /\ (forall i, (i < k)%nat ->
                    fruitless (Anchored.probe expectedName) (observe env (probes w + i)))
      /\ (found = false -> deadline <= clock (afterPolls AnchoredProbe 200 k env w))
      /\ (found = true ->
          exists d, observe env (probes w + k) = Shown d
                    /\ Anchored.probe expectedName d = true
                    /\ clock (afterPolls AnchoredProbe 200 k env w) < deadline).
Proof.
  intro Hok.
  assert (Hstop : forall fuel w r,
             deadline <= clock w ->
             exists (k : nat) (found : bool),
               (k <= r)%nat
               /\ loop (S fuel) w
                  = (Done found,
                     if found
                     then elapse 0 [Evaluated AnchoredProbe] 1 env
                            (afterPolls AnchoredProbe 200 k env w)
                     else afterPolls AnchoredProbe 200 k env w)
               /\ (forall i, (i < k)%nat ->
                             fruitless (Anchored.probe expectedName)
                                       (observe env (probes w + i)))
               /\ (found = false ->
                   deadline <= clock (afterPolls AnchoredProbe 200 k env w))
               /\ (found = true ->
                   exists d, observe env (probes w + k) = Shown d
                             /\ Anchored.probe expectedName d = true
                             /\ clock (afterPolls AnchoredProbe 200 k env w) < deadline)).
  { intros fuel w r Hge. exists O, false. cbn [afterPolls].
    split; [lia|]. split; [apply anchoredLoop_expired; exact Hge|].
    split; [intros i Hi; lia|]. split; [intros _; exact Hge|intro H; discriminate H]. }
  induction rounds as [|rounds IH]; intros fuel w Hbase Hfuel Hbudget.
  - destruct fuel as [|fuel]; [lia|]. apply Hstop. lia.
  - destruct fuel as [|fuel]; [lia|].
    destruct (Z.ltb_spec (clock w) deadline) as [Hlt|Hge]; [|apply Hstop; exact Hge].
    rewrite anchoredLoop_round by exact Hlt. cbv zeta.
    set (w1 := elapse 0 [Evaluated AnchoredProbe] 1 env w).
    set (w2 := elapse 200 [Slept 200] 0 env w1).
    assert (Hnext :
      fruitless (Anchored.probe expectedName) (observe env (probes w)) ->
      exists (k : nat) (found : bool),
        (k <= S rounds)%nat
        /\ loop fuel w2
           = (Done found,
              if found
              then elapse 0 [Evaluated AnchoredProbe] 1 env
                     (afterPolls AnchoredProbe 200 k env w)
              else afterPolls AnchoredProbe 200 k env w)
        /\ (forall i, (i < k)%nat ->
                      fruitless (Anchored.probe expectedName)
                                (observe env (probes w + i)))
        /\ (found = false -> deadline <= clock (afterPolls AnchoredProbe 200 k env w))
        /\ (found = true ->
            exists d, observe env (probes w + k) = Shown d
                      /\ Anchored.probe expectedName d = true
                      /\ clock (afterPolls AnchoredProbe 200 k env w) < deadline)).
    { intro Hhere.
      destruct (IH fuel w2) as (k & found & Hk & Hrun & Hnone & Hf & Ht).
      - unfold w2, w1. cbn [probes elapse]. lia.
      - lia.
      - unfold w2, w1. rewrite !clock_elapse. lia.
      - change (probes w2) with (S (probes w)) in Hnone, Ht.
        exists (S k), found.
        change (afterPolls AnchoredProbe 200 (S k) env w)
          with (afterPolls AnchoredProbe 200 k env w2).
        split; [lia|]. split; [exact Hrun|].
        split.
        { intros [|i] Hi.
          - rewrite Nat.add_0_r. exact Hhere.
          - replace (probes w + S i)%nat with (S (probes w) + i)%nat by lia.
            apply Hnone. lia. }
        split; [exact Hf|].
        intro Hfound. destruct (Ht Hfound) as (d & Hd).
        exists d. replace (probes w + S k)%nat with (S (probes w) + k)%nat by lia.
        exact Hd. }
    pose proof (Hok (probes w) Hbase) as Hp.
    destruct (observe env (probes w)) as [| |d] eqn:Hobs.
    + contradiction Hp; reflexivity.
    + apply Hnext. exact I.
    + destruct (Anchored.probe expectedName d) eqn:Hfound; [|apply Hnext; exact Hfound].
      exists O, true. cbn [afterPolls]. rewrite Nat.add_0_r.
      split; [lia|]. split; [reflexivity|].
      split; [intros i Hi; lia|]. split; [intro H; discriminate H|].
      intros _. exists d. split; [exact Hobs|]. split; [exact Hfound|exact Hlt].
Qed.

(** A match shown at the [k]-th round trip from here, after round trips
    that found nothing and polled before the deadline, ends the wait with
    the answer true. *)
Lemma anchoredLoop_finds (k : nat) :
  forall (fuel : nat) (w : World) (d : Document),
    (forall i, (i < k)%nat ->
               fruitless (Anchored.probe expectedName) (observe env (probes w + i))) ->
    observe env (probes w + k) = Shown d ->
    Anchored.probe expectedName d = true ->
    clock (afterPolls AnchoredProbe 200 k env w) < deadline ->
    (k < fuel)%nat ->
    loop fuel w
    = (Done true,
       elapse 0 [Evaluated AnchoredProbe] 1 env (afterPolls AnchoredProbe 200 k env w)).
Proof.
  induction k as [|k IH]; intros fuel w d Hnone Hshown Hfound Hlt Hfuel.
  - destruct fuel as [|fuel]; [lia|].
    cbn [afterPolls] in *. rewrite anchoredLoop_round by exact Hlt. cbv zeta.
    rewrite Nat.add_0_r in Hshown. rewrite Hshown, Hfound. reflexivity.
  - destruct fuel as [|fuel]; [lia|].
    assert (Hhead : clock w < deadline).
    { pose proof (@clock_afterPolls_ge env AnchoredProbe 200 (S k) w ltac:(lia)). lia. }
    rewrite anchoredLoop_round by exact Hhead. cbv zeta.
    set (w2 := elapse 200 [Slept 200] 0 env (elapse 0 [Evaluated AnchoredProbe] 1 env w)).
    assert (Hnext : loop fuel w2
                    = (Done true,
                       elapse 0 [Evaluated AnchoredProbe] 1 env
                         (afterPolls AnchoredProbe 200 (S k) env w))).
    { change (afterPolls AnchoredProbe 200 (S k) env w)
        with (afterPolls AnchoredProbe 200 k env w2).
      apply (IH fuel w2 d).
      - intros i Hi. replace (probes w2 + i)%nat with (probes w + S i)%nat
          by (unfold w2; simpl; lia).
        apply Hnone. lia.
      - replace (probes w2 + k)%nat with (probes w + S k)%nat
          by (unfold w2; simpl; lia).
        exact Hshown.
      - exact Hfound.
      - exact Hlt.
      - lia. }
    pose proof (Hnone O ltac:(lia)) as H0. rewrite Nat.add_0_r in H0.
    destruct (observe env (probes w)) as [| |d0]; cbn [fruitless] in H0.
    + contradiction.
    + exact Hnext.
    + rewrite H0. exact Hnext.
Qed.

End AnchoredFacts.

(** [timeoutMs / step + 1] polls of [step] milliseconds cover the timeout. *)
Lemma budget_rounds (timeoutMs step : Z) :
  0 < step ->
  timeoutMs <= step * Z.of_nat (Z.to_nat (timeoutMs / step) + 1).
Proof.
  intro Hstep. destruct (Z.leb_spec 0 timeoutMs) as [Hpos|Hneg].
  - assert (Hq : 0 <= timeoutMs / step) by (apply Z.div_pos; lia).
    pose proof (Z.div_mod timeoutMs step ltac:(lia)) as Hdm.
    pose proof (Z.mod_pos_bound timeoutMs step ltac:(lia)) as Hmod.
    rewrite Nat2Z.inj_add, Z2Nat.id by exact Hq. nia.
  - nia.
Qed.

(** X8: absent a rejected round trip, the anchored wait never throws: given
    enough rounds it makes some [k] fruitless polls, at most
    timeoutMs / 200 + 1, each a round trip followed by a sleep of 200 ms,
    and nothing else: no log line, no diagnostic capture.  It then answers
    true, right after one more round trip, the first to find the name and
    one made before the deadline; or it answers false, at a loop head at
    or past the deadline. *)
Theorem X8_anchored_wait_answers :
  forall (fuel : nat) (expectedName : jsstring) (timeoutMs : Z) (env : Env) (w : World),
    (forall n, (probes w <= n)%nat -> observe env n <> Rejected) ->
    (Z.to_nat (timeoutMs / 200) + 2 <= fuel)%nat ->
    exists (k : nat) (found : bool),
      let polled := afterPolls AnchoredProbe 200 k env w in
      (k <= Z.to_nat (timeoutMs / 200) + 1)%nat
      /\ Waits.waitForAttachmentAnchored fuel expectedName timeoutMs env w
         = (Done found,
            if found then elapse 0 [Evaluated AnchoredProbe] 1 env polled else polled)
      /\ events polled = events w ++ pollTrace AnchoredProbe 200 k
      /\ probes polled = (probes w + k)%nat
      /\ (forall i, (i < k)%nat ->
                    fruitless (Anchored.probe expectedName) (observe env (probes w + i)))
      /\ (found = false -> clock w + timeoutMs <= clock polled)
      /\ (found = true ->
          exists d, observe env (probes w + k) = Shown d
                    /\ Anchored.probe expectedName d = true
                    /\ clock polled < clock w + timeoutMs).
Proof.
  intros fuel expectedName timeoutMs env w Hok Hfuel.
  assert (Hentry :
    Waits.waitForAttachmentAnchored fuel expectedName timeoutMs env w
    = Waits.anchoredLoop fuel expectedName (clock w + timeoutMs) env w)
    by reflexivity.
  rewrite Hentry.
  destruct (@anchoredLoop_total expectedName (clock w + timeoutMs) env (probes w)
              (Z.to_nat (timeoutMs / 200) + 1) Hok fuel w)
    as (k & found & Hk & Hrun & Hnone & Hf & Ht).
  - lia.
  - lia.
  - pose proof (@budget_rounds timeoutMs 200 ltac:(lia)). lia.
  - exists k, found. cbv zeta.
    split; [exact Hk|]. split; [exact Hrun|].
    split; [apply events_afterPolls|]. split; [apply probes_afterPolls|].
    split; [exact Hnone|]. split; assumption.
Qed.

Lemma X8_anchored_wait_answers_witness :
  exists (k : nat) (found : bool),
    let env := Samples.steady (Samples.chipPage None) in
    let polled := afterPolls AnchoredProbe 200 k env Samples.start in
    (k <= Z.to_nat (100 / 200) + 1)%nat
    /\ Waits.waitForAttachmentAnchored 3 Samples.reportName 100 env Samples.start
       = (Done found,
          if found then elapse 0 [Evaluated AnchoredProbe] 1 env polled else polled)
    /\ events polled = events Samples.start ++ pollTrace AnchoredProbe 200 k
    /\ probes polled = (probes Samples.start + k)%nat
    /\ (forall i, (i < k)%nat ->
                  fruitless (Anchored.probe Samples.reportName)
                            (observe env (probes Samples.start + i)))
    /\ (found = false -> clock Samples.start + 100 <= clock polled)
    /\ (found = true ->
        exists d, observe env (probes Samples.start + k) = Shown d
                  /\ Anchored.probe Samples.reportName d = true
                  /\ clock polled < clock Samples.start + 100).
Proof.
  apply (@X8_anchored_wait_answers 3 Samples.reportName 100
           (Samples.steady (Samples.chipPage None)) Samples.start).
  - intros n _. discriminate.
  - vm_compute. lia.
Defined.

Section ReadinessFacts.

Variables (logger : bool) (expectedNormalized : list jsstring) (deadline : Z) (env : Env).

Let loop (n : nat) (since : option Z) (w : World) :=
  Waits.completionLoop n logger expectedNormalized deadline since env w.

Let timedOut : jsstring :=
  lit "Attachment upload timed out while waiting for ChatGPT composer to become ready.".

Lemma completionLoop_gives_up (fuel : nat) (since : option Z) (w : World) :
  deadline <= clock w ->
  loop (S fuel) since w
  = (Thrown "Attachments did not finish uploading before timeout.",
     elapse 0 [DomFailure "file-upload-timeout"] 0 env (snd (logIf logger timedOut env w))).
Proof.
  intro H. apply Z.ltb_ge in H. unfold loop.
  cbn [Waits.completionLoop]. unfold bind at 1. unfold dateNow at 1. rewrite H.
  destruct logger; reflexivity.
Qed.

Let ends := readinessEnds expectedNormalized deadline env.

(** Without a rejected round trip the readiness loop ends within
    [rounds] round trips, once the remaining time fits into that many polls. *)
Lemma completionLoop_total (base rounds : nat) :
  (forall n, (base <= n)%nat -> observe env n <> Rejected) ->
  forall (fuel : nat) (since : option Z) (w : World),
    (base <= probes w)%nat ->
    (rounds < fuel)%nat ->
    deadline - clock w <= 250 * Z.of_nat rounds ->
    ends w rounds (loop fuel since w).
Proof.
  intro Hok.
  assert (Hstop : forall fuel since w r,
             deadline <= clock w -> ends w r (loop (S fuel) since w)).
  { intros fuel since w r Hge. rewrite completionLoop_gives_up by exact Hge.
    unfold ends, readinessEnds. cbn [fst snd]. split.
    - right. split; [reflexivity|]. split.
      + rewrite clock_elapse.
        destruct (logIf_keeps_clock logger timedOut env w) as (-> & _ & _).
        pose proof (N2Z.is_nonneg (lag env (awaits (snd (logIf logger timedOut env w))))).
        lia.
      + eexists. reflexivity.
    - cbn [probes elapse].
      destruct (logIf_keeps_clock logger timedOut env w) as (_ & -> & _). lia. }
  induction rounds as [|rounds IH]; intros fuel since w Hbase Hfuel Hbudget.
  - destruct fuel as [|fuel]; [lia|]. apply Hstop. lia.
  - destruct fuel as [|fuel]; [lia|].
    destruct (Z.ltb_spec (clock w) deadline) as [Hlt|Hge]; [|apply Hstop; exact Hge].
    unfold loop at 1. rewrite completionLoop_round by exact Hlt. cbv zeta.
    set (w1 := elapse 0 [Evaluated CompletionProbe] 1 env w).
    assert (Hcont : forall since' ms e,
               250 <= ms ->
               ends w (S rounds) (loop fuel since' (elapse ms e 0 env w1))).
    { intros since' ms e Hms.
      destruct (IH fuel since' (elapse ms e 0 env w1)) as [Hend Hpr].
      - unfold w1. cbn [probes elapse]. lia.
      - lia.
      - unfold w1. rewrite !clock_elapse.
        pose proof (N2Z.is_nonneg (lag env (awaits w))).
        pose proof (N2Z.is_nonneg
                      (lag env (awaits (elapse 0 [Evaluated CompletionProbe] 1 env w)))).
        lia.
      - change (probes (elapse ms e 0 env w1)) with (S (probes w)) in Hpr, Hend.
        split; [|cbv zeta; lia].
        destruct Hend as [(exit & d & Hres & Hlt' & Hrest)|Hthrown]; [left|right; exact Hthrown].
        exists exit, d. split; [exact Hres|]. split; [lia|exact Hrest]. }
    assert (Hdone : forall exit d,
               observe env (probes w) = Shown d ->
               Completion.uploading (Completion.probe d) = false ->
               justifies expectedNormalized exit (Completion.probe d) ->
               ends w (S rounds) (Done exit, w1)).
    { intros exit d Hobs Hup Hj. unfold ends, readinessEnds. cbn [fst snd]. split.
      - left. exists exit, d. unfold w1. cbn [probes elapse Nat.add Nat.pred].
        split; [reflexivity|]. split; [lia|]. repeat split; assumption.
      - unfold w1. cbn [probes elapse]. lia. }
    pose proof (Hok (probes w) Hbase) as Hp.
    destruct (observe env (probes w)) as [| |d] eqn:Hobs.
    + contradiction Hp; reflexivity.
    + rewrite completionTick_no_value. apply Hcont. lia.
    + rewrite completionTick_cases.
      destruct (Completion.uploading (Completion.probe d)) eqn:Hup; [apply Hcont; lia|].
      destruct (chipsMatch expectedNormalized (Completion.probe d)) eqn:Hchips;
        cbn [andb].
      * destruct (Completion.state (Completion.probe d)) eqn:Hstate;
          cbn [Waits.isReady Waits.isMissing andb].
        -- apply (Hdone Waits.ChipsReady d); try reflexivity; try assumption.
           split; assumption.
        -- destruct (Completion.filesAttached (Completion.probe d)) eqn:Hfa.
           ++ apply Hcont. lia.
           ++ unfold inputCondition. rewrite Hstate. cbn [Waits.isReady].
              rewrite andb_false_r. apply Hcont. lia.
        -- destruct (Completion.filesAttached (Completion.probe d)) eqn:Hfa.
           ++ apply (Hdone Waits.ChipsNoControl d); try reflexivity; try assumption.
              repeat split; assumption.
           ++ unfold inputCondition. rewrite Hstate. cbn [Waits.isReady].
              rewrite andb_false_r. apply Hcont. lia.
      * destruct (inputCondition expectedNormalized (Completion.probe d)) eqn:Hcond.
        -- cbv zeta.
           destruct (clock w1 - match since with Some t => t | None => clock w1 end >? 1500).
           ++ apply (Hdone Waits.InputStable d); try reflexivity; assumption.
           ++ apply Hcont. lia.
        -- apply Hcont. lia.
Qed.

End ReadinessFacts.

(** X9: absent a rejected round trip, the readiness wait ends, after at most
    timeoutMs / 250 + 1 round trips, in one of two ways.  Either it returns,
    and then the snapshot of its last round trip shows no upload in progress
    and justifies the return (every name on a chip with the send control
    ready; every name on a chip, no send control and chips present; or every
    name in a file input with the send control ready).  Or it throws the
    timeout error, not before the deadline and right after the diagnostic
    capture. *)
Theorem X9_readiness_wait_outcome :
  forall (fuel : nat) (timeoutMs : Z) (expectedNames : list jsstring) (logger : bool)
         (env : Env) (w : World),
    (forall n, (probes w <= n)%nat -> observe env n <> Rejected) ->
    (Z.to_nat (timeoutMs / 250) + 2 <= fuel)%nat ->
    let result := Waits.waitForAttachmentCompletion fuel timeoutMs expectedNames logger env w in
    let w' := snd result in
    ((exists exit d,
         fst result = Done exit
         /\ (probes w < probes w')%nat
         /\ observe env (Nat.pred (probes w')) = Shown d
         /\ Completion.uploading (Completion.probe d) = false
         /\ justifies (map toLowerCase expectedNames) exit (Completion.probe d))
     \/ (fst result = Thrown "Attachments did not finish uploading before timeout."
         /\ clock w + timeoutMs <= clock w'
         /\ exists earlier, events w' = earlier ++ [DomFailure "file-upload-timeout"]))
    /\ (probes w <= probes w' <= probes w + Z.to_nat (timeoutMs / 250) + 1)%nat.
Proof.
  intros fuel timeoutMs expectedNames logger env w Hok Hfuel.
  pose proof (@completionLoop_total logger (map toLowerCase expectedNames)
                (clock w + timeoutMs) env (probes w) (Z.to_nat (timeoutMs / 250) + 1) Hok
                fuel None w (le_n _)) as H.
  unfold readinessEnds in H. cbv zeta in *.
  change (Waits.waitForAttachmentCompletion fuel timeoutMs expectedNames logger env w)
    with (Waits.completionLoop fuel logger (map toLowerCase expectedNames)
            (clock w + timeoutMs) None env w).
  destruct H as [Hend Hpr].
  - lia.
  - pose proof (@budget_rounds timeoutMs 250 ltac:(lia)). lia.
  - split; [exact Hend|]. lia.
Qed.

Lemma X9_readiness_wait_outcome_witness :
  let env := Samples.steady (Samples.chipPage (Some false)) in
  let result :=
    Waits.waitForAttachmentCompletion 6 1000 [Samples.reportName] false env Samples.start in
  let w' := snd result in
  ((exists exit d,
       fst result = Done exit
       /\ (probes Samples.start < probes w')%nat
       /\ observe env (Nat.pred (probes w')) = Shown d
       /\ Completion.uploading (Completion.probe d) = false
       /\ justifies (map toLowerCase [Samples.reportName]) exit (Completion.probe d))
   \/ (fst result = Thrown "Attachments did not finish uploading before timeout."
       /\ clock Samples.start + 1000 <= clock w'
       /\ exists earlier, events w' = earlier ++ [DomFailure "file-upload-timeout"]))
  /\ (probes Samples.start <= probes w'
      <= probes Samples.start + Z.to_nat (1000 / 250) + 1)%nat.
Proof.
  apply (@X9_readiness_wait_outcome 6 1000 [Samples.reportName] false
           (Samples.steady (Samples.chipPage (Some false))) Samples.start).
  - intros n _. discriminate.
  - vm_compute. lia.
Defined.

(** X10: while every round trip shows an upload in progress (or comes back
    without a value), the readiness wait cannot return: it throws the timeout
    error. *)
Theorem X10_readiness_wait_stalled :
  forall (fuel : nat) (timeoutMs : Z) (expectedNames : list jsstring) (logger : bool)
         (env : Env) (w : World),
    (forall n, (probes w <= n)%nat ->
               match observe env n with
               | Rejected => False
               | NoValue => True
               | Shown d => Completion.uploading (Completion.probe d) = true
               end) ->
    (Z.to_nat (timeoutMs / 250) + 2 <= fuel)%nat ->
    fst (Waits.waitForAttachmentCompletion fuel timeoutMs expectedNames logger env w)
    = Thrown "Attachments did not finish uploading before timeout.".
Proof.
  intros fuel timeoutMs expectedNames logger env w Hbusy Hfuel.
  change (Waits.waitForAttachmentCompletion fuel timeoutMs expectedNames logger env w)
    with (Waits.completionLoop fuel logger (map toLowerCase expectedNames)
            (clock w + timeoutMs) None env w).
  destruct (@completionLoop_total logger (map toLowerCase expectedNames)
              (clock w + timeoutMs) env (probes w) (Z.to_nat (timeoutMs / 250) + 1))
    with (fuel := fuel) (since := @None Z) (w := w)
    as [[(exit & d & _ & Hlt & Hobs & Hup & _)|(Hthrown & _)] _].
  - intros n Hle Hn. specialize (Hbusy n Hle). rewrite Hn in Hbusy. exact Hbusy.
  - lia.
  - lia.
  - pose proof (@budget_rounds timeoutMs 250 ltac:(lia)). lia.
  - specialize (Hbusy (Nat.pred (probes (snd (Waits.completionLoop fuel logger
                                                (map toLowerCase expectedNames)
                                                (clock w + timeoutMs) None env w))))
                      ltac:(lia)).
    rewrite Hobs, Hup in Hbusy. discriminate Hbusy.
  - exact Hthrown.
Qed.

Lemma X10_readiness_wait_stalled_witness :
  fst (Waits.waitForAttachmentCompletion 6 1000 [Samples.reportName] false
         (Samples.steady Samples.busyPage) Samples.start)
  = Thrown "Attachments did not finish uploading before timeout.".
Proof.
  apply (@X10_readiness_wait_stalled 6 1000 [Samples.reportName] false
           (Samples.steady Samples.busyPage) Samples.start).
  - intros n _. reflexivity.
  - vm_compute. lia.
Defined.

Section UserTurnFacts.

Variables (logger : bool) (expectedNormalized : list jsstring) (deadline : Z) (env : Env).

Let loop (n : nat) (w : World) :=
  Waits.userTurnLoop n logger expectedNormalized deadline env w.

Let notShown : jsstring :=
  lit "Sent user message did not show expected attachment names in time.".

Lemma userTurnLoop_round (fuel : nat) (w : World) :
  clock w < deadline ->
  loop (S fuel) w
  = let w1 := elapse 0 [Evaluated UserTurnProbe] 1 env w in
    match observe env (probes w) with
    | Rejected => (Thrown "Runtime.evaluate rejected", w1)
    | NoValue => loop fuel (elapse 200 [Slept 200] 0 env w1)
    | Shown d =>
        match UserTurnWait.probe d with
        | None => loop fuel (elapse 200 [Slept 200] 0 env w1)
        | Some (text, attrs) =>
            if forallb (UserTurnWait.matchesExpected (UserTurnWait.haystackOf text attrs))
                       expectedNormalized
            then (Done tt, w1)
            else loop fuel (elapse 250 [Slept 250] 0 env w1)
        end
    end.
Proof.
  intro H. apply Z.ltb_lt in H. unfold loop.
  cbn [Waits.userTurnLoop]. unfold bind at 1. unfold dateNow at 1. rewrite H.
  unfold bind at 1, evaluateValue, bind at 1, evaluate.
  destruct (observe env (probes w)) as [| |d]; try reflexivity.
  cbn [ret]. destruct (UserTurnWait.probe d) as [[text attrs]|]; [|reflexivity].
  rewrite missing_is_empty.
  destruct (forallb (UserTurnWait.matchesExpected (UserTurnWait.haystackOf text attrs))
                    expectedNormalized); reflexivity.
Qed.

Lemma userTurnLoop_gives_up (fuel : nat) (w : World) :
  deadline <= clock w ->
  loop (S fuel) w
  = (Thrown "Attachment was not present on the sent user message.",
     elapse 0 [DomFailure "attachment-missing-user-turn"] 0 env
       (snd (logIf logger notShown env w))).
Proof.
  intro H. apply Z.ltb_ge in H. unfold loop.
  cbn [Waits.userTurnLoop]. unfold bind at 1. unfold dateNow at 1. rewrite H.
  destruct logger; reflexivity.
Qed.

Let ends := userTurnEnds expectedNormalized deadline env.

(** Without a rejected round trip the post-send loop ends within
    [rounds] round trips, once the remaining time fits into that many polls. *)
Lemma userTurnLoop_total (base rounds : nat) :
  (forall n, (base <= n)%nat -> observe env n <> Rejected) ->
  forall (fuel : nat) (w : World),
    (base <= probes w)%nat ->
    (rounds < fuel)%nat ->
    deadline - clock w <= 200 * Z.of_nat rounds ->
    ends w rounds (loop fuel w).
Proof.
  intro Hok.
  assert (Hstop : forall fuel w r, deadline <= clock w -> ends w r (loop (S fuel) w)).
  { intros fuel w r Hge. rewrite userTurnLoop_gives_up by exact Hge.
    unfold ends, userTurnEnds. cbn [fst snd]. split.
    - right. split; [reflexivity|]. split.
      + rewrite clock_elapse.
        destruct (logIf_keeps_clock logger notShown env w) as (-> & _ & _).
        pose proof (N2Z.is_nonneg (lag env (awaits (snd (logIf logger notShown env w))))).
        lia.
      + eexists. reflexivity.
    - cbn [probes elapse].
      destruct (logIf_keeps_clock logger notShown env w) as (_ & -> & _). lia. }
  induction rounds as [|rounds IH]; intros fuel w Hbase Hfuel Hbudget.
  - destruct fuel as [|fuel]; [lia|]. apply Hstop. lia.
  - destruct fuel as [|fuel]; [lia|].
    destruct (Z.ltb_spec (clock w) deadline) as [Hlt|Hge]; [|apply Hstop; exact Hge].
    rewrite userTurnLoop_round by exact Hlt. cbv zeta.
    set (w1 := elapse 0 [Evaluated UserTurnProbe] 1 env w).
    assert (Hcont : forall ms e,
               200 <= ms -> ends w (S rounds) (loop fuel (elapse ms e 0 env w1))).
    { intros ms e Hms.
      destruct (IH fuel (elapse ms e 0 env w1)) as [Hend Hpr].
      - unfold w1. cbn [probes elapse]. lia.
      - lia.
      - unfold w1. rewrite !clock_elapse.
        pose proof (N2Z.is_nonneg (lag env (awaits w))).
        pose proof (N2Z.is_nonneg
                      (lag env (awaits (elapse 0 [Evaluated UserTurnProbe] 1 env w)))).
        lia.
      - change (probes (elapse ms e 0 env w1)) with (S (probes w)) in Hpr, Hend.
        split; [|cbv zeta; lia].
        destruct Hend as [(d & Hres & Hlt' & Hrest)|Hthrown]; [left|right; exact Hthrown].
        exists d. split; [exact Hres|]. split; [lia|exact Hrest]. }
    pose proof (Hok (probes w) Hbase) as Hp.
    destruct (observe env (probes w)) as [| |d] eqn:Hobs.
    + contradiction Hp; reflexivity.
    + apply Hcont. lia.
    + destruct (UserTurnWait.probe d) as [[text attrs]|] eqn:Hturn; [|apply Hcont; lia].
      destruct (forallb (UserTurnWait.matchesExpected (UserTurnWait.haystackOf text attrs))
                        expectedNormalized) eqn:Hall; [|apply Hcont; lia].
      unfold ends, userTurnEnds. cbn [fst snd]. split.
      * left. exists d. unfold w1. cbn [probes elapse Nat.add Nat.pred].
        split; [reflexivity|]. split; [lia|]. split; [exact Hobs|].
        exists text, attrs. split; assumption.
      * unfold w1. cbn [probes elapse]. lia.
Qed.

End UserTurnFacts.

(** X11: absent a rejected round trip, the post-send check with at least one
    expected name ends after at most timeoutMs / 200 + 1 round trips: it
    returns only right after a round trip that showed a user turn holding
    every expected name, and otherwise throws its error, not before the
    deadline and right after the diagnostic capture. *)
Theorem X11_user_turn_wait_outcome :
  forall (fuel : nat) (name : jsstring) (names : list jsstring) (timeoutMs : Z)
         (logger : bool) (env : Env) (w : World),
    (forall n, (probes w <= n)%nat -> observe env n <> Rejected) ->
    (Z.to_nat (timeoutMs / 200) + 2 <= fuel)%nat ->
    let result :=
      Waits.waitForUserTurnAttachments fuel (Some (name :: names)) timeoutMs logger env w in
    let w' := snd result in
    ((exists d,
         fst result = Done tt
         /\ (probes w < probes w')%nat
         /\ observe env (Nat.pred (probes w')) = Shown d
         /\ turnShows (map toLowerCase (name :: names)) d)
     \/ (fst result = Thrown "Attachment was not present on the sent user message."
         /\ clock w + timeoutMs <= clock w'
         /\ exists earlier,
              events w' = earlier ++ [DomFailure "attachment-missing-user-turn"]))
    /\ (probes w <= probes w' <= probes w + Z.to_nat (timeoutMs / 200) + 1)%nat.
Proof.
  intros fuel name names timeoutMs logger env w Hok Hfuel.
  pose proof (@userTurnLoop_total logger (map toLowerCase (name :: names))
                (clock w + timeoutMs) env (probes w) (Z.to_nat (timeoutMs / 200) + 1) Hok
                fuel w (le_n _)) as H.
  unfold userTurnEnds in H. cbv zeta in *.
  change (Waits.waitForUserTurnAttachments fuel (Some (name :: names)) timeoutMs logger env w)
    with (Waits.userTurnLoop fuel logger (map toLowerCase (name :: names))
            (clock w + timeoutMs) env w).
  destruct H as [Hend Hpr].
  - lia.
  - pose proof (@budget_rounds timeoutMs 200 ltac:(lia)). lia.
  - split; [exact Hend|]. lia.
Qed.

Lemma X11_user_turn_wait_outcome_witness :
  let env := Samples.steady Samples.emptyPage in
  let result :=
    Waits.waitForUserTurnAttachments 3 (Some [Samples.reportName]) 100 false env
      Samples.start in
  let w' := snd result in
  ((exists d,
       fst result = Done tt
       /\ (probes Samples.start < probes w')%nat
       /\ observe env (Nat.pred (probes w')) = Shown d
       /\ turnShows (map toLowerCase [Samples.reportName]) d)
   \/ (fst result = Thrown "Attachment was not present on the sent user message."
       /\ clock Samples.start + 100 <= clock w'
       /\ exists earlier,
            events w' = earlier ++ [DomFailure "attachment-missing-user-turn"]))
  /\ (probes Samples.start <= probes w'
      <= probes Samples.start + Z.to_nat (100 / 200) + 1)%nat.
Proof.
  apply (@X11_user_turn_wait_outcome 3 Samples.reportName [] 100 false
           (Samples.steady Samples.emptyPage) Samples.start).
  - intros n _. discriminate.
  - vm_compute. lia.
Defined.

(** X12: none of the four waits catches a rejected round trip.  When the
    first round trip of a wait with a positive timeout is rejected, the wait
    ends with that rejection at once: no sleep, no log line, no diagnostic
    capture. *)
Theorem X12_waits_pass_on_rejection :
  forall (fuel : nat) (name : jsstring) (names : list jsstring) (timeoutMs : Z)
         (logger : bool) (env : Env) (w : World),
    0 < timeoutMs ->
    observe env (probes w) = Rejected ->
    Waits.waitForAttachmentCompletion (S fuel) timeoutMs names logger env w
    = (Thrown "Runtime.evaluate rejected", elapse 0 [Evaluated CompletionProbe] 1 env w)
    /\ Waits.waitForUserTurnAttachments (S fuel) (Some (name :: names)) timeoutMs logger
         env w
       = (Thrown "Runtime.evaluate rejected", elapse 0 [Evaluated UserTurnProbe] 1 env w)
    /\ Waits.waitForAttachmentVisible (S fuel) name timeoutMs logger env w
       = (Thrown "Runtime.evaluate rejected", elapse 0 [Evaluated VisibleProbe] 1 env w)
    /\ Waits.waitForAttachmentAnchored (S fuel) name timeoutMs env w
       = (Thrown "Runtime.evaluate rejected", elapse 0 [Evaluated AnchoredProbe] 1 env w).
Proof.
  intros fuel name names timeoutMs logger env w Ht Hrej.
  assert (Hlt : clock w < clock w + timeoutMs) by lia.
  split; [|split; [|split]].
  - change (Waits.waitForAttachmentCompletion (S fuel) timeoutMs names logger env w)
      with (Waits.completionLoop (S fuel) logger (map toLowerCase names)
              (clock w + timeoutMs) None env w).
    rewrite completionLoop_round by exact Hlt. rewrite Hrej. reflexivity.
  - change (Waits.waitForUserTurnAttachments (S fuel) (Some (name :: names)) timeoutMs
              logger env w)
      with (Waits.userTurnLoop (S fuel) logger (map toLowerCase (name :: names))
              (clock w + timeoutMs) env w).
    rewrite userTurnLoop_round by exact Hlt. rewrite Hrej. reflexivity.
  - change (Waits.waitForAttachmentVisible (S fuel) name timeoutMs logger env w)
      with (Waits.visibleLoop (S fuel) logger name (clock w + timeoutMs) env w).
    rewrite visibleLoop_round by exact Hlt. rewrite Hrej. reflexivity.
  - change (Waits.waitForAttachmentAnchored (S fuel) name timeoutMs env w)
      with (Waits.anchoredLoop (S fuel) name (clock w + timeoutMs) env w).
    rewrite anchoredLoop_round by exact Hlt. rewrite Hrej. reflexivity.
Qed.

Lemma X12_waits_pass_on_rejection_witness :
  Waits.waitForAttachmentCompletion 1 1000 [] false Scenes.broken Samples.start
  = (Thrown "Runtime.evaluate rejected",
     elapse 0 [Evaluated CompletionProbe] 1 Scenes.broken Samples.start)
  /\ Waits.waitForUserTurnAttachments 1 (Some [Samples.reportName]) 1000 false
       Scenes.broken Samples.start
     = (Thrown "Runtime.evaluate rejected",
        elapse 0 [Evaluated UserTurnProbe] 1 Scenes.broken Samples.start)
  /\ Waits.waitForAttachmentVisible 1 Samples.reportName 1000 false Scenes.broken
       Samples.start
     = (Thrown "Runtime.evaluate rejected",
        elapse 0 [Evaluated VisibleProbe] 1 Scenes.broken Samples.start)
  /\ Waits.waitForAttachmentAnchored 1 Samples.reportName 1000 Scenes.broken Samples.start
     = (Thrown "Runtime.evaluate rejected",
        elapse 0 [Evaluated AnchoredProbe] 1 Scenes.broken Samples.start).
Proof.
  apply (@X12_waits_pass_on_rejection 0 Samples.reportName [] 1000 false Scenes.broken
           Samples.start).
  - lia.
  - reflexivity.
Defined.

(* ================================================================== *)
(** ** The upload, path by path *)
(* ================================================================== *)

Lemma markUploadTarget_some (d : Document) :
  fileInputs d <> [] -> Upload.isSome (Upload.markUploadTarget d) = true.
Proof.
  intro H. unfold Upload.markUploadTarget.
  destruct (filter _ (fileInputs d)); [|reflexivity].
  destruct (fileInputs d); [contradiction H; reflexivity|reflexivity].
Qed.

Lemma anchored_wait_fruitless (fuel : nat) (expectedName : jsstring) (timeoutMs : Z)
    (env : Env) (w : World) :
  (forall n, (probes w <= n)%nat ->
             fruitless (Anchored.probe expectedName) (observe env n)) ->
  (Z.to_nat (timeoutMs / 200) + 2 <= fuel)%nat ->
  exists w' polled,
    Waits.waitForAttachmentAnchored fuel expectedName timeoutMs env w = (Done false, w')
    /\ events w' = events w ++ polled
    /\ clock w + timeoutMs <= clock w'.
Proof.
  intros Hnone Hfuel.
  assert (Hentry :
    Waits.waitForAttachmentAnchored fuel expectedName timeoutMs env w
    = Waits.anchoredLoop fuel expectedName (clock w + timeoutMs) env w)
    by reflexivity.
  rewrite Hentry.
  destruct (@anchoredLoop_total expectedName (clock w + timeoutMs) env (probes w)
              (Z.to_nat (timeoutMs / 200) + 1)) with (fuel := fuel) (w := w)
    as (k & found & Hk & Hrun & _ & Hf & Ht).
  - intros n Hn Hrej. specialize (Hnone n Hn). rewrite Hrej in Hnone. exact Hnone.
  - lia.
  - lia.
  - pose proof (@budget_rounds timeoutMs 200 ltac:(lia)). lia.
  - destruct found.
    + destruct (Ht eq_refl) as (d & Hobs & Hfound & _).
      specialize (Hnone (probes w + k)%nat ltac:(lia)).
      rewrite Hobs in Hnone. simpl in Hnone. rewrite Hfound in Hnone. discriminate Hnone.
    + exists (afterPolls AnchoredProbe 200 k env w), (pollTrace AnchoredProbe 200 k).
      split; [exact Hrun|]. split; [apply events_afterPolls|]. apply Hf. reflexivity.
Qed.

(** Unfolds the upload down to the events it records. *)
Ltac run_upload_prefix :=
  unfold Upload.uploadAttachmentFile;
  unfold bind, catch, evaluateValue, bind, evaluate, delay, logDomFailure, throw, ret,
    log, record, Upload.domGetDocument, Upload.domQuerySelector,
    Upload.domSetFileInputFiles;
  cbn [elapse probes awaits clock events Nat.add].

(** X13: when the presence check finds the attachment (on a chip, a card or in
    a file input), the upload returns after logging so: the structural
    channel is never called, nothing is tagged, no wait is started. *)
Theorem X13_upload_already_present :
  forall (fuel : nat) (dom : Upload.DomChannel) (attachmentPath : jsstring)
         (env : Env) (w : World) (seen : Document),
    observe env (2 + probes w)%nat = Shown seen ->
    Upload.isAttachmentPresent (Upload.path_basename attachmentPath) seen = true ->
    exists w',
      Upload.uploadAttachmentFile fuel (Some dom) attachmentPath env w = (Done tt, w')
      /\ events w'
         = events w
           ++ [Evaluated ClickComposerPlus; Slept 250; Evaluated ClickUploadMenuItem;
               Evaluated IsAttachmentPresent;
               Logged (lit "Attachment already present: "
                       ++ Upload.path_basename attachmentPath)].
Proof.
  intros fuel dom attachmentPath env w seen Hseen Hpresent.
  run_upload_prefix. cbn [Nat.add] in Hseen.
  rewrite Hseen. cbn [Waits.isFound]. rewrite Hpresent.
  eexists. split; [reflexivity|].
  cbn [events elapse]. rewrite <- !app_assoc. reflexivity.
Qed.

Lemma X13_upload_already_present_witness :
  exists w',
    Upload.uploadAttachmentFile 1 (Some Samples.channel)
      (lit "/home/me/quarterly-report.xlsx")
      (Samples.steady (Samples.chipPage None)) Samples.start
    = (Done tt, w')
    /\ events w'
       = events Samples.start
         ++ [Evaluated ClickComposerPlus; Slept 250; Evaluated ClickUploadMenuItem;
             Evaluated IsAttachmentPresent;
             Logged (lit "Attachment already present: "
                     ++ Upload.path_basename (lit "/home/me/quarterly-report.xlsx"))].
Proof.
  apply (@X13_upload_already_present 1 Samples.channel
           (lit "/home/me/quarterly-report.xlsx")
           (Samples.steady (Samples.chipPage None)) Samples.start
           (Samples.chipPage None)).
  - reflexivity.
  - vm_compute. reflexivity.
Defined.

(** X14: when an input was tagged but the structural query does not resolve it
    (node id 0), the upload throws the locator error right after the
    diagnostic capture, and no file is ever assigned. *)
Theorem X14_upload_unresolved_target :
  forall (fuel : nat) (dom : Upload.DomChannel) (attachmentPath : jsstring)
         (env : Env) (w : World) (seen primed : Document) (root : N),
    observe env (2 + probes w)%nat = Shown seen ->
    Upload.isAttachmentPresent (Upload.path_basename attachmentPath) seen = false ->
    observe env (3 + probes w)%nat = Shown primed ->
    fileInputs primed <> [] ->
    Upload.getDocument dom = Some root ->
    Upload.querySelector dom root = Some 0%N ->
    exists w',
      Upload.uploadAttachmentFile fuel (Some dom) attachmentPath env w
      = (Thrown "Unable to locate ChatGPT file attachment input.", w')
      /\ events w'
         = events w
           ++ [Evaluated ClickComposerPlus; Slept 250; Evaluated ClickUploadMenuItem;
               Evaluated IsAttachmentPresent; Evaluated MarkUploadTarget;
               GotDocument; QueriedSelector; DomFailure "file-input-missing"].
Proof.
  intros fuel dom attachmentPath env w seen primed root
    Hseen Habsent Hprimed Hinputs Hroot Hquery.
  pose proof (@markUploadTarget_some primed Hinputs) as Hmark.
  run_upload_prefix. cbn [Nat.add] in Hseen, Hprimed.
  rewrite Hseen. cbn [Waits.isFound]. rewrite Habsent.
  cbn [elapse probes awaits clock events Nat.add]. rewrite Hprimed, Hmark.
  cbn [Waits.isFound negb]. rewrite Hroot, Hquery.
  cbn [N.eqb].
  eexists. split; [reflexivity|].
  cbn [events elapse]. rewrite <- !app_assoc. reflexivity.
Qed.

Lemma X14_upload_unresolved_target_witness :
  exists w',
    Upload.uploadAttachmentFile 1 (Some Scenes.deafChannel) Samples.reportName
      (Samples.steady Scenes.blankComposer) Samples.start
    = (Thrown "Unable to locate ChatGPT file attachment input.", w')
    /\ events w'
       = events Samples.start
         ++ [Evaluated ClickComposerPlus; Slept 250; Evaluated ClickUploadMenuItem;
             Evaluated IsAttachmentPresent; Evaluated MarkUploadTarget;
             GotDocument; QueriedSelector; DomFailure "file-input-missing"].
Proof.
  apply (@X14_upload_unresolved_target 1 Scenes.deafChannel Samples.reportName
           (Samples.steady Scenes.blankComposer) Samples.start
           Scenes.blankComposer Scenes.blankComposer 1%N).
  - reflexivity.
  - vm_compute. reflexivity.
  - reflexivity.
  - discriminate.
  - reflexivity.
  - reflexivity.
Defined.

Section UploadSteps.

(** Sequencing after a step that returned. *)
Lemma bind_done {A B} (m : M A) (k : A -> M B) (env : Env) (w w' : World) (a : A) :
  m env w = (Done a, w') -> bind m k env w = k a env w'.
Proof. intro H. unfold bind. rewrite H. reflexivity. Qed.

Lemma evaluateValue_shown {A} (s : Script) (f : Document -> A) (env : Env) (w : World)
    (d : Document) :
  observe env (probes w) = Shown d ->
  evaluateValue s f env w = (Done (Some (f d)), elapse 0 [Evaluated s] 1 env w).
Proof. intro H. unfold evaluateValue, bind, evaluate. rewrite H. reflexivity. Qed.

Lemma evaluateValue_answers {A} (s : Script) (f : Document -> A) (env : Env) (w : World) :
  observe env (probes w) <> Rejected ->
  exists v, evaluateValue s f env w = (Done v, elapse 0 [Evaluated s] 1 env w).
Proof.
  intro H. unfold evaluateValue, bind, evaluate.
  destruct (observe env (probes w)) as [| |d].
  - contradiction H; reflexivity.
  - exists None. reflexivity.
  - exists (Some (f d)). reflexivity.
Qed.

Lemma catch_evaluateValue {A} (s : Script) (f : Document -> A) (env : Env) (w : World) :
  catch (evaluateValue s f) env w
  = (Done (caughtValue f (observe env (probes w))), elapse 0 [Evaluated s] 1 env w).
Proof.
  unfold catch, evaluateValue, bind, evaluate, caughtValue.
  destruct (observe env (probes w)); reflexivity.
Qed.

Lemma optional_log {A} (o : option A) (line : jsstring) (env : Env) (w : World) :
  exists w',
    (match o with Some _ => log line | None => ret tt end) env w = (Done tt, w')
    /\ clock w' = clock w
    /\ probes w' = probes w
    /\ awaits w' = awaits w
    /\ exists ev, events w' = events w ++ ev.
Proof.
  destruct o.
  - eexists. split; [reflexivity|]. repeat split. eexists. reflexivity.
  - exists w. split; [reflexivity|]. repeat split. exists []. rewrite app_nil_r. reflexivity.
Qed.

Lemma has_file_of_snapshot (expectedName : jsstring) (p : Probe) :
  match
    match caughtValue Upload.snapshotAfterSet p with
    | Some (Some s) => Some s
    | _ => None
    end
  with
  | Some (_, inputs) =>
      existsb (fun entry =>
                 existsb (fun name =>
                            includes (toLowerCase name) (toLowerCase expectedName))
                         entry)
              inputs
  | None => false
  end
  = inputHasFile expectedName p.
Proof. destruct p; reflexivity. Qed.

Lemma domGetDocument_some (dom : Upload.DomChannel) (env : Env) (w : World) (root : N) :
  Upload.getDocument dom = Some root ->
  Upload.domGetDocument dom env w = (Done root, elapse 0 [GotDocument] 0 env w).
Proof. intro H. unfold Upload.domGetDocument. rewrite H. reflexivity. Qed.

Lemma domQuerySelector_some (dom : Upload.DomChannel) (env : Env) (w : World) (root node : N) :
  Upload.querySelector dom root = Some node ->
  Upload.domQuerySelector dom root env w = (Done node, elapse 0 [QueriedSelector] 0 env w).
Proof. intro H. unfold Upload.domQuerySelector. rewrite H. reflexivity. Qed.

Lemma domSetFileInputFiles_ok (dom : Upload.DomChannel) (env : Env) (w : World)
    (node : N) (path : jsstring) :
  Upload.setFileInputFiles dom node path = true ->
  Upload.domSetFileInputFiles dom node path env w
  = (Done tt, elapse 0 [SetFileInputFiles node path] 0 env w).
Proof. intro H. unfold Upload.domSetFileInputFiles. rewrite H. reflexivity. Qed.

End UploadSteps.

(** Runs the first step of a sequence, given a proof of what it returns. *)
Ltac run_step tac :=
  erewrite bind_done by tac; cbv beta zeta.

(** Up to the confirmation stage: the presence check negative, an input
    tagged and resolved, the file assigned, the change events dispatched and
    the snapshot taken, after six round trips and the 250 ms pause. *)
Lemma upload_reaches_confirmation :
  forall (fuel : nat) (dom : Upload.DomChannel) (attachmentPath : jsstring)
         (env : Env) (w : World) (seen primed : Document) (root node : N),
    observe env (2 + probes w)%nat = Shown seen ->
    Upload.isAttachmentPresent (Upload.path_basename attachmentPath) seen = false ->
    observe env (3 + probes w)%nat = Shown primed ->
    fileInputs primed <> [] ->
    Upload.getDocument dom = Some root ->
    Upload.querySelector dom root = Some node ->
    node <> 0%N ->
    Upload.setFileInputFiles dom node attachmentPath = true ->
    observe env (4 + probes w)%nat <> Rejected ->
    exists w0 earlier,
      Upload.uploadAttachmentFile fuel (Some dom) attachmentPath env w
      = confirmUpload fuel (Upload.path_basename attachmentPath)
          (inputHasFile (Upload.path_basename attachmentPath)
                        (observe env (5 + probes w)%nat))
          env w0
      /\ probes w0 = (6 + probes w)%nat
      /\ clock w + 250 <= clock w0
      /\ events w0 = events w ++ earlier
      /\ In (SetFileInputFiles node attachmentPath) earlier
      /\ awaits w0 = (10 + awaits w)%nat.
Proof.
  intros fuel dom attachmentPath env w seen primed root node
    Hseen Habsent Hprimed Hinputs Hroot Hquery Hnode Hset Hdispatch.
  pose proof (@markUploadTarget_some primed Hinputs) as Hmark.
  apply N.eqb_neq in Hnode.
  unfold Upload.uploadAttachmentFile.
  run_step ltac:(reflexivity).
  run_step ltac:(reflexivity).
  run_step ltac:(reflexivity).
  run_step ltac:(apply evaluateValue_shown; exact Hseen).
  cbn [Waits.isFound]. rewrite Habsent. cbv beta iota.
  run_step ltac:(apply evaluateValue_shown; exact Hprimed).
  rewrite Hmark. cbn [Waits.isFound negb]. cbv beta iota.
  run_step ltac:(apply domGetDocument_some; exact Hroot).
  run_step ltac:(apply domQuerySelector_some; exact Hquery).
  rewrite Hnode. cbv beta iota.
  run_step ltac:(apply domSetFileInputFiles_ok; exact Hset).
  match goal with
  | |- context [bind (evaluateValue DispatchEvents ?f) _ env ?W] =>
      destruct (@evaluateValue_answers _ DispatchEvents f env W Hdispatch) as [v Hv]
  end.
  run_step ltac:(exact Hv).
  run_step ltac:(apply catch_evaluateValue).
  match goal with
  | |- context [bind (match ?o with Some _ => log ?L | None => ret tt end) _ env ?W] =>
      destruct (@optional_log _ o L env W) as (W' & HW & Hc & Hp & Ha & ev & He)
  end.
  run_step ltac:(exact HW).
  rewrite has_file_of_snapshot.
  match goal with
  | |- context [inputHasFile ?n ?p] =>
      change (inputHasFile n p)
        with (inputHasFile n (observe env (5 + probes w)%nat))
  end.
  exists W'. eexists. split; [reflexivity|].
  split; [rewrite Hp; cbn [probes elapse Nat.add]; lia|].
  split; [rewrite Hc, !clock_elapse; lia|].
  rewrite He. cbn [events elapse]. rewrite <- !app_assoc.
  split; [reflexivity|].
  split; [|rewrite Ha; reflexivity].
  apply in_or_app. right. cbn [app].
  repeat first [left; reflexivity | right].
Qed.

(** X15: when the file was assigned but no chip, card or remove button ever
    shows the name during the 12 s of the anchored wait, the snapshot taken
    right after the assignment decides: if a file input held the name the
    upload returns (logging the file-input-only case), otherwise it throws
    "did not register" right after the diagnostic capture.  Either way the
    file was assigned exactly to the resolved node, with the path as given. *)
Theorem X15_upload_without_chip :
  forall (fuel : nat) (dom : Upload.DomChannel) (attachmentPath : jsstring)
         (env : Env) (w : World) (seen primed : Document) (root node : N),
    observe env (2 + probes w)%nat = Shown seen ->
    Upload.isAttachmentPresent (Upload.path_basename attachmentPath) seen = false ->
    observe env (3 + probes w)%nat = Shown primed ->
    fileInputs primed <> [] ->
    Upload.getDocument dom = Some root ->
    Upload.querySelector dom root = Some node ->
    node <> 0%N ->
    Upload.setFileInputFiles dom node attachmentPath = true ->
    observe env (4 + probes w)%nat <> Rejected ->
    (forall n, (6 + probes w <= n)%nat ->
               fruitless (Anchored.probe (Upload.path_basename attachmentPath))
                         (observe env n)) ->
    (62 <= fuel)%nat ->
    let held := inputHasFile (Upload.path_basename attachmentPath)
                             (observe env (5 + probes w)%nat) in
    exists w' earlier,
      Upload.uploadAttachmentFile fuel (Some dom) attachmentPath env w
      = (if held then Done tt
         else Thrown "Attachment did not register with the ChatGPT composer in time.",
         w')
      /\ events w'
         = events w ++ earlier
           ++ [if held then Logged (lit "Attachment queued (file input only; no UI chip yet)")
               else DomFailure "file-upload-missing"]
      /\ In (SetFileInputFiles node attachmentPath) earlier
      /\ clock w + 12250 <= clock w'.
Proof.
  intros fuel dom attachmentPath env w seen primed root node
    Hseen Habsent Hprimed Hinputs Hroot Hquery Hnode Hset Hdispatch Hnone Hfuel held.
  destruct (@upload_reaches_confirmation fuel dom attachmentPath env w seen primed root node
              Hseen Habsent Hprimed Hinputs Hroot Hquery Hnode Hset Hdispatch)
    as (w0 & earlier & Hrun & Hp & Hc & He & Hin & Ha).
  fold held in Hrun. rewrite Hrun. unfold confirmUpload.
  destruct (@anchored_wait_fruitless fuel (Upload.path_basename attachmentPath)
              Upload.attachmentUiTimeoutMs env w0)
    as (w' & polled & Hwait & Hev & Hclock).
  { intros k Hk. apply Hnone. lia. }
  { change (Z.to_nat (Upload.attachmentUiTimeoutMs / 200)) with 60%nat. lia. }
  run_step ltac:(exact Hwait).
  unfold Upload.attachmentUiTimeoutMs in Hclock.
  rewrite He in Hev.
  destruct held.
  - exists (snd (log (lit "Attachment queued (file input only; no UI chip yet)") env w')).
    exists (earlier ++ polled).
    split; [reflexivity|]. cbn [snd log record events clock].
    rewrite Hev. split; [rewrite <- !app_assoc; reflexivity|].
    split; [apply in_or_app; left; exact Hin|lia].
  - exists (elapse 0 [DomFailure "file-upload-missing"] 0 env w').
    exists (earlier ++ polled).
    split; [reflexivity|]. cbn [events elapse].
    rewrite Hev. split; [rewrite <- !app_assoc; reflexivity|].
    split; [apply in_or_app; left; exact Hin|rewrite clock_elapse; lia].
Qed.

Lemma X15_upload_without_chip_witness :
  exists w' earlier,
    Upload.uploadAttachmentFile 62 (Some Samples.channel) Samples.reportName
      (Scenes.afterAssignment Samples.inputOnlyPage) Samples.start
    = (Done tt, w')
    /\ events w'
       = events Samples.start ++ earlier
         ++ [Logged (lit "Attachment queued (file input only; no UI chip yet)")]
    /\ In (SetFileInputFiles 7 Samples.reportName) earlier
    /\ clock Samples.start + 12250 <= clock w'.
Proof.
  apply (@X15_upload_without_chip 62 Samples.channel Samples.reportName
           (Scenes.afterAssignment Samples.inputOnlyPage) Samples.start
           Scenes.blankComposer Scenes.blankComposer 1%N 7%N).
  - reflexivity.
  - vm_compute. reflexivity.
  - reflexivity.
  - discriminate.
  - reflexivity.
  - reflexivity.
  - discriminate.
  - reflexivity.
  - discriminate.
  - intros n Hn. unfold Scenes.afterAssignment, observe.
    destruct (Nat.ltb_spec n 5); [simpl in Hn; lia|vm_compute; reflexivity].
  - lia.
Defined.

Section VisibleTotal.

Variables (logger : bool) (expectedName : jsstring) (deadline : Z) (env : Env).

Let ends := visibleEnds expectedName deadline env.

(** Without a rejected round trip the visible loop ends within
    [rounds] round trips, once the remaining time fits into that many polls. *)
Lemma visibleLoop_total (base rounds : nat) :
  (forall n, (base <= n)%nat -> observe env n <> Rejected) ->
  forall (fuel : nat) (w : World),
    (base <= probes w)%nat ->
    (rounds < fuel)%nat ->
    deadline - clock w <= 200 * Z.of_nat rounds ->
    ends w rounds (Waits.visibleLoop fuel logger expectedName deadline env w).
Proof.
  intro Hok.
  assert (Hstop : forall fuel w r,
             deadline <= clock w ->
             ends w r (Waits.visibleLoop (S fuel) logger expectedName deadline env w)).
  { intros fuel w r Hge.
    pose proof (@visibleLoop_expired logger expectedName deadline env fuel w Hge) as Hrun.
    cbv zeta in Hrun. rewrite Hrun.
    destruct (logIf_keeps_clock logger
                (lit "Attachment not visible in composer; giving up.") env w)
      as (Hc & Hp & _).
    unfold ends, visibleEnds. cbn [fst snd]. split.
    - right. split; [reflexivity|]. split.
      + rewrite clock_elapse, Hc. lia.
      + cbn [events elapse]. destruct logger; cbn [logIf log record snd events ret].
        * exists [Logged (lit "Attachment not visible in composer; giving up.")].
          rewrite <- !app_assoc. reflexivity.
        * exists []. reflexivity.
    - cbn [probes elapse]. rewrite Hp. lia. }
  induction rounds as [|rounds IH]; intros fuel w Hbase Hfuel Hbudget.
  - destruct fuel as [|fuel]; [lia|]. apply Hstop. lia.
  - destruct fuel as [|fuel]; [lia|].
    destruct (Z.ltb_spec (clock w) deadline) as [Hlt|Hge]; [|apply Hstop; exact Hge].
    pose proof (@visibleLoop_round logger expectedName deadline env fuel w Hlt) as Hround.
    cbv zeta in Hround. rewrite Hround.
    set (w1 := elapse 0 [Evaluated VisibleProbe] 1 env w).
    set (w2 := elapse 200 [Slept 200] 0 env w1).
    assert (Hnext : ends w (S rounds)
                      (Waits.visibleLoop fuel logger expectedName deadline env w2)).
    { assert (Hrec : ends w2 rounds
                       (Waits.visibleLoop fuel logger expectedName deadline env w2)).
      { apply IH.
        - unfold w2, w1. cbn [probes elapse]. lia.
        - lia.
        - unfold w2, w1. rewrite !clock_elapse. lia. }
      destruct Hrec as (Hend & Hpr).
      change (probes w2) with (S (probes w)) in Hpr, Hend.
      change (events w2) with ((events w ++ [Evaluated VisibleProbe]) ++ [Slept 200])
        in Hend.
      split; [|lia].
      destruct Hend as [(Hrun & (d & Hlt' & Hd) & later & Hev)
                       |(Hrun & Hclock & later & Hev)]; [left|right].
      - split; [exact Hrun|]. split; [exists d; split; [lia|exact Hd]|].
        exists ([Evaluated VisibleProbe; Slept 200] ++ later).
        rewrite Hev, <- !app_assoc. reflexivity.
      - split; [exact Hrun|]. split; [exact Hclock|].
        exists ([Evaluated VisibleProbe; Slept 200] ++ later).
        rewrite Hev, <- !app_assoc. reflexivity. }
    pose proof (Hok (probes w) Hbase) as Hp.
    destruct (observe env (probes w)) as [| |d] eqn:Hobs.
    + contradiction Hp; reflexivity.
    + exact Hnext.
    + destruct (Visible.probe expectedName d) eqn:Hfound; [|exact Hnext].
      unfold ends, visibleEnds. cbn [fst snd]. split.
      * left. split; [reflexivity|]. split.
        -- exists d. unfold w1. cbn [probes elapse Nat.add Nat.pred].
           split; [lia|]. split; assumption.
        -- eexists. reflexivity.
      * unfold w1; cbn [probes elapse]; lia.
Qed.

End VisibleTotal.

(** Sequencing after a step that threw. *)
Lemma bind_thrown {A B} (m : M A) (k : A -> M B) (env : Env) (w w' : World) (e : string) :
  m env w = (Thrown e, w') -> bind m k env w = (Thrown e, w').
Proof. intro H. unfold bind. rewrite H. reflexivity. Qed.

Lemma anchored_first_round (fuel : nat) (expectedName : jsstring) (timeoutMs : Z)
    (env : Env) (w : World) (d : Document) :
  0 < timeoutMs ->
  observe env (probes w) = Shown d ->
  Anchored.probe expectedName d = true ->
  Waits.waitForAttachmentAnchored (S fuel) expectedName timeoutMs env w
  = (Done true, elapse 0 [Evaluated AnchoredProbe] 1 env w).
Proof.
  intros Ht Hobs Hfound.
  change (Waits.waitForAttachmentAnchored (S fuel) expectedName timeoutMs env w)
    with (Waits.anchoredLoop (S fuel) expectedName (clock w + timeoutMs) env w).
  rewrite anchoredLoop_round by lia. rewrite Hobs, Hfound. reflexivity.
Qed.

Lemma visible_wait_fruitless (fuel : nat) (expectedName : jsstring) (timeoutMs : Z)
    (logger : bool) (env : Env) (w : World) :
  (forall n, (probes w <= n)%nat ->
             fruitless (Visible.probe expectedName) (observe env n)) ->
  (Z.to_nat (timeoutMs / 200) + 2 <= fuel)%nat ->
  exists w' later,
    Waits.waitForAttachmentVisible fuel expectedName timeoutMs logger env w
    = (Thrown "Attachment did not appear in ChatGPT composer.", w')
    /\ events w' = events w ++ later ++ [DomFailure "attachment-visible"]
    /\ clock w + timeoutMs <= clock w'.
Proof.
  intros Hnone Hfuel.
  change (Waits.waitForAttachmentVisible fuel expectedName timeoutMs logger env w)
    with (Waits.visibleLoop fuel logger expectedName (clock w + timeoutMs) env w).
  destruct (@visibleLoop_total logger expectedName (clock w + timeoutMs) env (probes w)
              (Z.to_nat (timeoutMs / 200) + 1)) with (fuel := fuel) (w := w)
    as (Hend & Hpr).
  - intros n Hn Hrej. specialize (Hnone n Hn). rewrite Hrej in Hnone. exact Hnone.
  - lia.
  - lia.
  - pose proof (@budget_rounds timeoutMs 200 ltac:(lia)). lia.
  - destruct (Waits.visibleLoop fuel logger expectedName (clock w + timeoutMs) env w)
      as [out w'].
    cbn [fst snd] in Hend, Hpr.
    destruct Hend as [(_ & (d & Hlt & Hobs & Hfound) & _)|(Hrun & Hclock & later & Hev)].
    + specialize (Hnone (Nat.pred (probes w')) ltac:(lia)).
      rewrite Hobs in Hnone. simpl in Hnone. rewrite Hfound in Hnone. discriminate Hnone.
    + exists w', later. subst out. repeat split; assumption.
Qed.

(** X16: once a chip, card or remove button carried the name, the file input
    no longer counts.  Let the anchored wait find the name at its round trip
    number [k] (counting from 0): the [k] round trips before it found
    nothing, and those [k] polls, 200 ms each and the overruns of their
    [2 k] awaits, ended before the 12 s deadline.  If the name then never
    becomes visible to the second wait during its 12 s, the upload throws
    "did not appear", right after that wait's diagnostic capture, whatever
    the snapshot said about the file input. *)
Theorem X16_upload_anchored_not_visible :
  forall (fuel : nat) (dom : Upload.DomChannel) (attachmentPath : jsstring)
         (env : Env) (w : World) (seen primed anchor : Document) (root node : N)
         (k : nat),
    observe env (2 + probes w)%nat = Shown seen ->
    Upload.isAttachmentPresent (Upload.path_basename attachmentPath) seen = false ->
    observe env (3 + probes w)%nat = Shown primed ->
    fileInputs primed <> [] ->
    Upload.getDocument dom = Some root ->
    Upload.querySelector dom root = Some node ->
    node <> 0%N ->
    Upload.setFileInputFiles dom node attachmentPath = true ->
    observe env (4 + probes w)%nat <> Rejected ->
    (forall i, (i < k)%nat ->
               fruitless (Anchored.probe (Upload.path_basename attachmentPath))
                         (observe env (6 + probes w + i)%nat)) ->
    200 * Z.of_nat k + lagSum env (10 + awaits w) (2 * k) < 12000 ->
    observe env (6 + probes w + k)%nat = Shown anchor ->
    Anchored.probe (Upload.path_basename attachmentPath) anchor = true ->
    (forall n, (7 + probes w + k <= n)%nat ->
               fruitless (Visible.probe (Upload.path_basename attachmentPath))
                         (observe env n)) ->
    (62 <= fuel)%nat ->
    exists w' earlier,
      Upload.uploadAttachmentFile fuel (Some dom) attachmentPath env w
      = (Thrown "Attachment did not appear in ChatGPT composer.", w')
      /\ events w' = events w ++ earlier ++ [DomFailure "attachment-visible"]
      /\ In (SetFileInputFiles node attachmentPath) earlier
      /\ clock w + 250 + 200 * Z.of_nat k + 12000 <= clock w'.
Proof.
  intros fuel dom attachmentPath env w seen primed anchor root node k
    Hseen Habsent Hprimed Hinputs Hroot Hquery Hnode Hset Hdispatch
    Hbefore Htime Hanchor Hfound Hnone Hfuel.
  destruct (@upload_reaches_confirmation fuel dom attachmentPath env w seen primed root node
              Hseen Habsent Hprimed Hinputs Hroot Hquery Hnode Hset Hdispatch)
    as (w0 & earlier & Hrun & Hp & Hc & He & Hin & Ha).
  rewrite Hrun. unfold confirmUpload.
  pose proof (@clock_afterPolls env AnchoredProbe 200 k w0) as Hpolled.
  rewrite Ha in Hpolled.
  pose proof (@lagSum_nonneg env (2 * k) (10 + awaits w)) as Hlag.
  assert (Hk : (k < 60)%nat) by lia.
  set (polled := afterPolls AnchoredProbe 200 k env w0) in *.
  run_step ltac:(
    change (Waits.waitForAttachmentAnchored fuel (Upload.path_basename attachmentPath)
              Upload.attachmentUiTimeoutMs env w0)
      with (Waits.anchoredLoop fuel (Upload.path_basename attachmentPath)
              (clock w0 + 12000) env w0);
    apply anchoredLoop_finds with (k := k) (d := anchor);
    [ intros i Hi; rewrite Hp; apply Hbefore; exact Hi
    | rewrite Hp; exact Hanchor
    | exact Hfound
    | fold polled; lia
    | lia ]).
  cbv beta iota.
  set (w1 := elapse 0 [Evaluated AnchoredProbe] 1 env polled).
  assert (Hp1 : probes w1 = (7 + probes w + k)%nat).
  { unfold w1, polled. cbn [probes elapse]. rewrite probes_afterPolls. lia. }
  destruct (@visible_wait_fruitless fuel (Upload.path_basename attachmentPath)
              Upload.attachmentUiTimeoutMs true env w1)
    as (w' & later & Hwait & Hev & Hclock).
  { intros n Hn. apply Hnone. lia. }
  { change (Z.to_nat (Upload.attachmentUiTimeoutMs / 200)) with 60%nat. lia. }
  erewrite bind_thrown by exact Hwait.
  exists w', (earlier ++ pollTrace AnchoredProbe 200 k ++ [Evaluated AnchoredProbe] ++ later).
  split; [reflexivity|].
  split.
  { rewrite Hev. unfold w1. cbn [events elapse]. unfold polled.
    rewrite events_afterPolls, He, <- !app_assoc. reflexivity. }
  split; [apply in_or_app; left; exact Hin|].
  unfold Upload.attachmentUiTimeoutMs in Hclock. unfold w1 in Hclock.
  rewrite clock_elapse in Hclock.
  pose proof (N2Z.is_nonneg (lag env (awaits polled))).
  lia.
Qed.

Lemma X16_upload_anchored_not_visible_witness :
  exists w' earlier,
    Upload.uploadAttachmentFile 62 (Some Samples.channel) Samples.reportName
      (Scenes.lateChip 2 Scenes.truncatedPage) Samples.start
    = (Thrown "Attachment did not appear in ChatGPT composer.", w')
    /\ events w' = events Samples.start ++ earlier ++ [DomFailure "attachment-visible"]
    /\ In (SetFileInputFiles 7 Samples.reportName) earlier
    /\ clock Samples.start + 250 + 200 * Z.of_nat 1 + 12000 <= clock w'.
Proof.
  apply (@X16_upload_anchored_not_visible 62 Samples.channel Samples.reportName
           (Scenes.lateChip 2 Scenes.truncatedPage) Samples.start
           Scenes.blankComposer Scenes.blankComposer Scenes.truncatedPage 1%N 7%N 1%nat).
  - reflexivity.
  - vm_compute. reflexivity.
  - reflexivity.
  - discriminate.
  - reflexivity.
  - reflexivity.
  - discriminate.
  - reflexivity.
  - discriminate.
  - intros i Hi. assert (i = 0%nat) as -> by lia. vm_compute. reflexivity.
  - vm_compute. reflexivity.
  - reflexivity.
  - vm_compute. reflexivity.
  - intros n Hn. unfold Scenes.lateChip, observe.
    destruct (Nat.ltb_spec n (5 + 2)); [simpl in Hn; lia|vm_compute; reflexivity].
  - lia.
Defined.

(** X17: when the first round trip after the assignment finds the name
    anchored and the next one finds it visible, the upload returns right
    after these two round trips, eight round trips in all; its last log line
    says whether the snapshot had shown the file in an input. *)
Theorem X17_upload_confirmed :
  forall (fuel : nat) (dom : Upload.DomChannel) (attachmentPath : jsstring)
         (env : Env) (w : World) (seen primed anchor shown : Document) (root node : N),
    observe env (2 + probes w)%nat = Shown seen ->
    Upload.isAttachmentPresent (Upload.path_basename attachmentPath) seen = false ->
    observe env (3 + probes w)%nat = Shown primed ->
    fileInputs primed <> [] ->
    Upload.getDocument dom = Some root ->
    Upload.querySelector dom root = Some node ->
    node <> 0%N ->
    Upload.setFileInputFiles dom node attachmentPath = true ->
    observe env (4 + probes w)%nat <> Rejected ->
    observe env (6 + probes w)%nat = Shown anchor ->
    Anchored.probe (Upload.path_basename attachmentPath) anchor = true ->
    observe env (7 + probes w)%nat = Shown shown ->
    Visible.probe (Upload.path_basename attachmentPath) shown = true ->
    (1 <= fuel)%nat ->
    let held := inputHasFile (Upload.path_basename attachmentPath)
                             (observe env (5 + probes w)%nat) in
    exists w' earlier,
      Upload.uploadAttachmentFile fuel (Some dom) attachmentPath env w = (Done tt, w')
      /\ events w'
         = events w ++ earlier
           ++ [Evaluated AnchoredProbe; Evaluated VisibleProbe;
               Logged (if held
                       then lit "Attachment queued (UI anchored, file input confirmed)"
                       else lit "Attachment queued (UI anchored)")]
      /\ In (SetFileInputFiles node attachmentPath) earlier
      /\ probes w' = (8 + probes w)%nat.
Proof.
  intros fuel dom attachmentPath env w seen primed anchor shown root node
    Hseen Habsent Hprimed Hinputs Hroot Hquery Hnode Hset Hdispatch
    Hanchor Hfound Hshown Hvisible Hfuel held.
  destruct (@upload_reaches_confirmation fuel dom attachmentPath env w seen primed root node
              Hseen Habsent Hprimed Hinputs Hroot Hquery Hnode Hset Hdispatch)
    as (w0 & earlier & Hrun & Hp & Hc & He & Hin & Ha).
  fold held in Hrun. rewrite Hrun. unfold confirmUpload.
  destruct fuel as [|fuel]; [lia|].
  run_step ltac:(apply anchored_first_round with (d := anchor);
                 [reflexivity | rewrite Hp; exact Hanchor | exact Hfound]).
  cbv beta iota.
  set (w1 := elapse 0 [Evaluated AnchoredProbe] 1 env w0).
  assert (Hwait : Waits.waitForAttachmentVisible (S fuel) (Upload.path_basename attachmentPath)
                    Upload.attachmentUiTimeoutMs true env w1
                  = (Done tt, elapse 0 [Evaluated VisibleProbe] 1 env w1)).
  { change (Waits.waitForAttachmentVisible (S fuel) (Upload.path_basename attachmentPath)
              Upload.attachmentUiTimeoutMs true env w1)
      with (Waits.visibleLoop (S fuel) true (Upload.path_basename attachmentPath)
              (clock w1 + Upload.attachmentUiTimeoutMs) env w1).
    pose proof (@visibleLoop_round true (Upload.path_basename attachmentPath)
                  (clock w1 + Upload.attachmentUiTimeoutMs) env fuel w1) as Hround.
    cbv zeta in Hround. rewrite Hround by (unfold Upload.attachmentUiTimeoutMs; lia).
    replace (probes w1) with (7 + probes w)%nat
      by (unfold w1; cbn [probes elapse]; lia).
    rewrite Hshown, Hvisible. reflexivity. }
  run_step ltac:(exact Hwait).
  eexists. exists earlier. split; [reflexivity|].
  cbn [log record events elapse probes]. unfold w1. cbn [events elapse probes].
  rewrite He, Hp, <- !app_assoc.
  split; [reflexivity|]. split; [exact Hin|lia].
Qed.

Lemma X17_upload_confirmed_witness :
  exists w' earlier,
    Upload.uploadAttachmentFile 1 (Some Samples.channel) Samples.reportName
      (Scenes.afterAssignment (Samples.chipPage (Some false))) Samples.start
    = (Done tt, w')
    /\ events w'
       = events Samples.start ++ earlier
         ++ [Evaluated AnchoredProbe; Evaluated VisibleProbe;
             Logged (lit "Attachment queued (UI anchored)")]
    /\ In (SetFileInputFiles 7 Samples.reportName) earlier
    /\ probes w' = (8 + probes Samples.start)%nat.
Proof.
  apply (@X17_upload_confirmed 1 Samples.channel Samples.reportName
           (Scenes.afterAssignment (Samples.chipPage (Some false))) Samples.start
           Scenes.blankComposer Scenes.blankComposer
           (Samples.chipPage (Some false)) (Samples.chipPage (Some false)) 1%N 7%N).
  - reflexivity.
  - vm_compute. reflexivity.
  - reflexivity.
  - discriminate.
  - reflexivity.
  - reflexivity.
  - discriminate.
  - reflexivity.
  - discriminate.
  - reflexivity.
  - vm_compute. reflexivity.
  - reflexivity.
  - vm_compute. reflexivity.
  - lia.
Defined.
